(** * The Concerto host middleware for Claude Code

    A shallow embedding of [src/agents/claude_code/claude_code_host.py]:
    the session engine ([run], [process_prompt]), the prompt composer, the
    agent invoker with its mock, the output parser, the interactive mediator
    and the history store, followed by the properties the specification
    states about them.

    Modelling conventions.
    - A Python [str] is a [string]; a character stands for a code point
      below 256, and the character classes of [str.strip], [str.lower] and
      [str.splitlines] are the ones Python uses on that range.
    - A Python [int] is a [Z].
    - A value produced by [json.loads] is a [json]; [JNull] is Python's
      [None], a JSON object is an association list in insertion order with
      distinct keys.  A float is kept as the literal it was read from; what
      Python prints for it and whether it is zero are parameters
      ([float_repr], [float_truth]) of the host model.
    - The process environment (standard input, the clock, [select] and
      [subprocess.run]) is explicit: [stdin] is the list of lines still
      unread, and an [Env] record answers every call made to the outside.
    - Writing to the standard streams does not fail, and [json.loads]
      fails with [json.JSONDecodeError] only: the limits of the interpreter
      on the depth of nesting and on the number of digits of an integer are
      not part of the model.  A statement about a line that the code parses
      is therefore made for lines within these limits
      ([within_parser_limits]), and where the decoded text matters, for
      lines whose escapes stay below code point 256 ([line_in_model]).
    - The agent is a function of its arguments and of the text it is given
      on its standard input; it does not read the input of the host.  A
      statement about the lines that the host reads is therefore made for
      hosts whose agent is given a standard input of its own
      ([agent_has_own_stdin]).

    The file has three parts: the model (Python strings, JSON, the host),
    the notions the statements use, and the statements with their proofs,
    where each claim of the specification is named by its number. *)

From Stdlib Require Import String Ascii List ZArith Bool Arith Lia DecimalString.
Import ListNotations.
Local Open Scope string_scope.

(** ** Python string primitives *)

Module PyStr.

Definition code (c : ascii) : nat := nat_of_ascii c.

Definition in_range (lo hi : nat) (c : ascii) : bool :=
  ((lo <=? code c) && (code c <=? hi))%nat.

Definition is_char (n : nat) (c : ascii) : bool := (code c =? n)%nat.

(** The characters for which [str.isspace] holds, below code point 256. *)
Definition isspace (c : ascii) : bool :=
  in_range 9 13 c || in_range 28 32 c || is_char 133 c || is_char 160 c.

(** The line boundaries of [str.splitlines], below code point 256. *)
Definition is_linebreak (c : ascii) : bool :=
  in_range 10 13 c || in_range 28 30 c || is_char 133 c.

Definition lower_char (c : ascii) : ascii :=
  if in_range 65 90 c || (in_range 192 222 c && negb (is_char 215 c))
  then ascii_of_nat (code c + 32)
  else c.

Definition newline : string := String "010" EmptyString.
Definition dquote : string := String "034" EmptyString.
Definition squote : string := String "039" EmptyString.
Definition backslash : string := String "092" EmptyString.

Definition is_empty (s : string) : bool :=
  match s with EmptyString => true | String _ _ => false end.

(** Truth value of a [str]: non-empty. *)
Definition truthy (s : string) : bool := negb (is_empty s).

Fixpoint smap (f : ascii -> ascii) (s : string) : string :=
  match s with
  | EmptyString => EmptyString
  | String c r => String (f c) (smap f r)
  end.

Fixpoint sall (p : ascii -> bool) (s : string) : bool :=
  match s with
  | EmptyString => true
  | String c r => p c && sall p r
  end.

Fixpoint lstrip (s : string) : string :=
  match s with
  | EmptyString => EmptyString
  | String c r => if isspace c then lstrip r else s
  end.

Fixpoint rstrip (s : string) : string :=
  match s with
  | EmptyString => EmptyString
  | String c r =>
      let r' := rstrip r in
      if isspace c && is_empty r' then EmptyString else String c r'
  end.

(** [s.strip()] *)
Definition strip (s : string) : string := rstrip (lstrip s).

(** [s.lower()] *)
Definition lower (s : string) : string := smap lower_char s.

(** [s[:n]] for [n >= 0] *)
Fixpoint take (n : nat) (s : string) : string :=
  match n, s with
  | S k, String c r => String c (take k r)
  | _, _ => EmptyString
  end.

(** [sep.join(parts)] *)
Definition join (sep : string) (parts : list string) : string :=
  String.concat sep parts.

(** [kw in text] *)
Fixpoint contains (kw text : string) : bool :=
  String.prefix kw text
  || match text with
     | EmptyString => false
     | String _ r => contains kw r
     end.

(** [s.replace(old, new)] for a non-empty [old]: occurrences are replaced
    from the left and do not overlap; [skip] counts the characters of an
    occurrence that are still to be dropped. *)
Fixpoint replace_from (old new : string) (skip : nat) (s : string) : string :=
  match s with
  | EmptyString => EmptyString
  | String c r =>
      match skip with
      | S k => replace_from old new k r
      | O =>
          if String.prefix old s
          then new ++ replace_from old new (String.length old - 1) r
          else String c (replace_from old new 0 r)
      end
  end.

Definition replace (old new s : string) : string := replace_from old new 0 s.

(** [s.splitlines()]: [cur] is the line being read. *)
Fixpoint splitlines_from (cur : string) (s : string) : list string :=
  match s with
  | EmptyString => if is_empty cur then [] else [cur]
  | String c r =>
      if is_char 13 c then
        match r with
        | String c' r' =>
            if is_char 10 c' then cur :: splitlines_from EmptyString r'
            else cur :: splitlines_from EmptyString r
        | EmptyString => [cur]
        end
      else if is_linebreak c then cur :: splitlines_from EmptyString r
      else splitlines_from (cur ++ String c EmptyString) r
  end.

Definition splitlines (s : string) : list string := splitlines_from EmptyString s.

(** [str(n)] for an [int]. *)
Definition str_of_Z (z : Z) : string := NilZero.string_of_int (Z.to_int z).

(** [str(b)] for a [bool]. *)
Definition str_of_bool (b : bool) : string := if b then "True" else "False".

Definition hex_digit (n : nat) : ascii :=
  if (n <? 10)%nat then ascii_of_nat (48 + n) else ascii_of_nat (87 + n).

(** Two lower-case hexadecimal digits of a character code. *)
Definition hex2 (c : ascii) : string :=
  String (hex_digit (code c / 16)) (String (hex_digit (code c mod 16)) EmptyString).

(** Writes a text with ['] where the text has a double quote, so that JSON
    inputs can be displayed in the examples. *)
Definition dq (s : string) : string :=
  smap (fun c => if is_char 39 c then "034"%char else c) s.

End PyStr.

(** ** JSON values, [json.loads] and [json.dumps] *)

Module Json.
Import PyStr.

Unset Elimination Schemes.
Inductive json : Type :=
| JNull
| JBool (b : bool)
| JInt (z : Z)
| JFloat (lit : string)
| JStr (s : string)
| JList (items : list json)
| JDict (fields : list (string * json)).
Set Elimination Schemes.

Definition fields_t : Type := list (string * json).

Fixpoint lookup (k : string) (d : fields_t) : option json :=
  match d with
  | [] => None
  | (k', v) :: r => if String.eqb k k' then Some v else lookup k r
  end.

(** [k in d] *)
Definition has_key (d : fields_t) (k : string) : bool :=
  match lookup k d with Some _ => true | None => false end.

(** [d.get(k)]: [None] for a missing key. *)
Definition get (d : fields_t) (k : string) : json :=
  match lookup k d with Some v => v | None => JNull end.

(** [d[k] = v]: a key already present keeps its place. *)
Fixpoint dict_set (d : fields_t) (k : string) (v : json) : fields_t :=
  match d with
  | [] => [(k, v)]
  | (k', v') :: r =>
      if String.eqb k k' then (k', v) :: r else (k', v') :: dict_set r k v
  end.


(** [v == s] for a [str] [s]. *)
Definition eq_str (v : json) (s : string) : bool :=
  match v with JStr s' => String.eqb s' s | _ => false end.

(** *** Lexer

    One pass over the characters.  A maximal run of letters, digits, signs
    and dots is a word: a number or one of the literals.  No JSON text has
    two values side by side, so reading words greedily accepts the same
    texts as scanning them by prefix. *)

Inductive token : Type :=
| TLBrace | TRBrace | TLBracket | TRBracket | TColon | TComma
| TString (s : string)
| TWord (w : string).

Inductive lex_state : Type :=
| LIdle
| LWord (w : string)
| LStr (acc : string)
| LEsc (acc : string)
| LHex (acc : string) (digits : list nat).

Definition is_json_ws (c : ascii) : bool :=
  is_char 32 c || is_char 9 c || is_char 10 c || is_char 13 c.

Definition is_digit (c : ascii) : bool := in_range 48 57 c.

Definition is_word_char (c : ascii) : bool :=
  is_digit c || in_range 65 90 c || in_range 97 122 c
  || is_char 43 c || is_char 45 c || is_char 46 c.

Definition snoc (s : string) (c : ascii) : string := s ++ String c EmptyString.

Definition lex_idle (c : ascii) (toks : list token) : option (lex_state * list token) :=
  if is_json_ws c then Some (LIdle, toks)
  else if is_char 123 c then Some (LIdle, TLBrace :: toks)
  else if is_char 125 c then Some (LIdle, TRBrace :: toks)
  else if is_char 91 c then Some (LIdle, TLBracket :: toks)
  else if is_char 93 c then Some (LIdle, TRBracket :: toks)
  else if is_char 58 c then Some (LIdle, TColon :: toks)
  else if is_char 44 c then Some (LIdle, TComma :: toks)
  else if is_char 34 c then Some (LStr EmptyString, toks)
  else if is_word_char c then Some (LWord (String c EmptyString), toks)
  else None.

(** The character a one-letter escape stands for. *)
Definition unescape (c : ascii) : option ascii :=
  if is_char 34 c || is_char 92 c || is_char 47 c then Some c
  else if is_char 98 c then Some "008"%char
  else if is_char 102 c then Some "012"%char
  else if is_char 110 c then Some "010"%char
  else if is_char 114 c then Some "013"%char
  else if is_char 116 c then Some "009"%char
  else None.

Definition hex_value (c : ascii) : option nat :=
  if is_digit c then Some (code c - 48)
  else if in_range 97 102 c then Some (code c - 87)
  else if in_range 65 70 c then Some (code c - 55)
  else None.

Definition hex_number (ds : list nat) : nat :=
  fold_left (fun acc d => 16 * acc + d) ds 0.

(** The character of a [\uXXXX] escape; a code point above 255 is outside
    the character model and is read as [?]. *)
Definition char_of_code (n : nat) : ascii :=
  if (n <? 256)%nat then ascii_of_nat n else "?"%char.

Fixpoint lex (st : lex_state) (toks : list token) (s : string) : option (list token) :=
  match s with
  | EmptyString =>
      match st with
      | LIdle => Some (rev toks)
      | LWord w => Some (rev (TWord w :: toks))
      | _ => None
      end
  | String c r =>
      match st with
      | LIdle =>
          match lex_idle c toks with
          | Some (st', toks') => lex st' toks' r
          | None => None
          end
      | LWord w =>
          if is_word_char c then lex (LWord (snoc w c)) toks r
          else
            match lex_idle c (TWord w :: toks) with
            | Some (st', toks') => lex st' toks' r
            | None => None
            end
      | LStr acc =>
          if is_char 34 c then lex LIdle (TString acc :: toks) r
          else if is_char 92 c then lex (LEsc acc) toks r
          else if (code c <? 32)%nat then None
          else lex (LStr (snoc acc c)) toks r
      | LEsc acc =>
          match unescape c with
          | Some c' => lex (LStr (snoc acc c')) toks r
          | None => if is_char 117 c then lex (LHex acc []) toks r else None
          end
      | LHex acc ds =>
          match hex_value c with
          | Some d =>
              if (length ds =? 3)%nat
              then lex (LStr (snoc acc (char_of_code (hex_number (ds ++ [d]))))) toks r
              else lex (LHex acc (ds ++ [d])) toks r
          | None => None
          end
      end
  end.

(** *** Numbers and literals *)

Fixpoint span_digits (s : string) : string * string :=
  match s with
  | String c r =>
      if is_digit c then let (ds, rest) := span_digits r in (String c ds, rest)
      else (EmptyString, s)
  | EmptyString => (EmptyString, EmptyString)
  end.

Fixpoint digits_value (acc : Z) (s : string) : Z :=
  match s with
  | EmptyString => acc
  | String c r => digits_value (10 * acc + Z.of_nat (code c - 48)) r
  end.

Definition drop_sign (s : string) : string :=
  match s with
  | String c r => if is_char 43 c || is_char 45 c then r else s
  | EmptyString => s
  end.

(** The exponent of a number: [[eE][-+]?[0-9]+] up to the end of the word. *)
Definition is_exponent (s : string) : bool :=
  match s with
  | String c r =>
      (is_char 101 c || is_char 69 c)
      && (let (ds, rest) := span_digits (drop_sign r) in
          truthy ds && is_empty rest)
  | EmptyString => false
  end.

(** What follows the integer part: nothing, a fraction, an exponent, or a
    fraction and an exponent. *)
Definition is_float_tail (s : string) : bool :=
  match s with
  | String c r =>
      if is_char 46 c then
        let (ds, rest) := span_digits r in
        truthy ds && (is_empty rest || is_exponent rest)
      else is_exponent s
  | EmptyString => false
  end.

(** A word that is a number in full: an optional minus sign; an integer
    part, either 0 or digits that do not start with 0; an optional
    fraction, a dot and digits; an optional exponent.  It is an [int] when
    it has neither fraction nor exponent, else a [float]. *)
Definition number_of_word (w : string) : option json :=
  let (negative, body) :=
    match w with
    | String c r => if is_char 45 c then (true, r) else (false, w)
    | EmptyString => (false, w)
    end in
  let (ip, rest) := span_digits body in
  match ip with
  | EmptyString => None
  | String d more =>
      if is_char 48 d && truthy more then None
      else if is_empty rest then
        Some (JInt (if negative then - digits_value 0 ip else digits_value 0 ip)%Z)
      else if is_float_tail rest then Some (JFloat w)
      else None
  end.

Definition value_of_word (w : string) : option json :=
  if String.eqb w "true" then Some (JBool true)
  else if String.eqb w "false" then Some (JBool false)
  else if String.eqb w "null" then Some JNull
  else if String.eqb w "NaN" || String.eqb w "Infinity" || String.eqb w "-Infinity"
  then Some (JFloat w)
  else number_of_word w.

(** *** Parser

    A stack of the containers that are open; [mode] says what may come
    next. *)

Inductive frame : Type :=
| FList (items_rev : list json)
| FDict (fields : fields_t) (key : option string).

Inductive mode : Type :=
| MValue        (** a value *)
| MValueOrEnd   (** after [[]: a value or []] *)
| MKeyOrEnd     (** after [{]: a key or [}] *)
| MKey          (** after a comma in an object: a key *)
| MColon        (** after a key *)
| MAfter        (** after a value in a container: a comma or the end *)
| MDone (v : json).

Definition push_value (v : json) (stack : list frame) : option (list frame * mode) :=
  match stack with
  | [] => Some ([], MDone v)
  | FList items :: st => Some (FList (v :: items) :: st, MAfter)
  | FDict fields (Some k) :: st => Some (FDict (dict_set fields k v) None :: st, MAfter)
  | FDict _ None :: _ => None
  end.

Definition start_value (t : token) (stack : list frame) : option (list frame * mode) :=
  match t with
  | TString s => push_value (JStr s) stack
  | TWord w =>
      match value_of_word w with
      | Some v => push_value v stack
      | None => None
      end
  | TLBracket => Some (FList [] :: stack, MValueOrEnd)
  | TLBrace => Some (FDict [] None :: stack, MKeyOrEnd)
  | _ => None
  end.

Definition close_list (stack : list frame) : option (list frame * mode) :=
  match stack with
  | FList items :: st => push_value (JList (rev items)) st
  | _ => None
  end.

Definition close_dict (stack : list frame) : option (list frame * mode) :=
  match stack with
  | FDict fields None :: st => push_value (JDict fields) st
  | _ => None
  end.

Definition set_key (k : string) (stack : list frame) : option (list frame * mode) :=
  match stack with
  | FDict fields None :: st => Some (FDict fields (Some k) :: st, MColon)
  | _ => None
  end.

Definition parse_step (t : token) (stack : list frame) (m : mode)
  : option (list frame * mode) :=
  match m, t with
  | MValue, _ => start_value t stack
  | MValueOrEnd, TRBracket => close_list stack
  | MValueOrEnd, _ => start_value t stack
  | MKeyOrEnd, TRBrace => close_dict stack
  | MKeyOrEnd, TString k => set_key k stack
  | MKey, TString k => set_key k stack
  | MColon, TColon => Some (stack, MValue)
  | MAfter, TComma =>
      match stack with
      | FList _ :: _ => Some (stack, MValue)
      | FDict _ None :: _ => Some (stack, MKey)
      | _ => None
      end
  | MAfter, TRBracket => close_list stack
  | MAfter, TRBrace => close_dict stack
  | _, _ => None
  end.

Fixpoint parse_tokens (toks : list token) (stack : list frame) (m : mode) : option json :=
  match toks with
  | [] => match m with MDone v => Some v | _ => None end
  | t :: r =>
      match parse_step t stack m with
      | Some (stack', m') => parse_tokens r stack' m'
      | None => None
      end
  end.

(** [json.loads(text)], [None] standing for [json.JSONDecodeError]. *)
Definition loads (text : string) : option json :=
  match lex LIdle [] text with
  | Some toks => parse_tokens toks [] MValue
  | None => None
  end.

(** *** Rendering: [json.dumps], [repr], [str] and truth values *)

Section Render.

(** [float_repr lit] is what Python prints for the float read from the
    literal [lit]; [float_truth lit] tells whether that float is not
    zero. *)
Variable float_repr : string -> string.
Variable float_truth : string -> bool.

(** The escapes of [json.dumps] with [ensure_ascii]. *)
Definition escape_char (c : ascii) : string :=
  if is_char 34 c then backslash ++ dquote
  else if is_char 92 c then backslash ++ backslash
  else if is_char 10 c then "\n"
  else if is_char 13 c then "\r"
  else if is_char 9 c then "\t"
  else if is_char 8 c then "\b"
  else if is_char 12 c then "\f"
  else if in_range 32 126 c then String c EmptyString
  else "\u00" ++ hex2 c.

Fixpoint escape (s : string) : string :=
  match s with
  | EmptyString => EmptyString
  | String c r => escape_char c ++ escape r
  end.

Definition quote (s : string) : string := dquote ++ escape s ++ dquote.

Definition float_json (lit : string) : string :=
  let r := float_repr lit in
  if String.eqb r "nan" then "NaN"
  else if String.eqb r "inf" then "Infinity"
  else if String.eqb r "-inf" then "-Infinity"
  else r.

(** [json.dumps(v, separators=(item_sep, key_sep))] *)
Fixpoint dumps_sep (item_sep key_sep : string) (v : json) : string :=
  match v with
  | JNull => "null"
  | JBool b => if b then "true" else "false"
  | JInt z => str_of_Z z
  | JFloat lit => float_json lit
  | JStr s => quote s
  | JList items =>
      "[" ++ join item_sep (map (dumps_sep item_sep key_sep) items) ++ "]"
  | JDict fields =>
      "{" ++ join item_sep
               (map (fun kv => quote (fst kv) ++ key_sep
                               ++ dumps_sep item_sep key_sep (snd kv)) fields)
          ++ "}"
  end.

(** [json.dumps(v)] *)
Definition dumps : json -> string := dumps_sep ", " ": ".

(** [json.dumps(v, separators=(",", ":"))] *)
Definition dumps_compact : json -> string := dumps_sep "," ":".

Fixpoint insert_by_key (kv : string * string) (l : list (string * string))
  : list (string * string) :=
  match l with
  | [] => [kv]
  | h :: t =>
      if String.leb (fst kv) (fst h) then kv :: l else h :: insert_by_key kv t
  end.

Definition sort_by_key (l : list (string * string)) : list (string * string) :=
  fold_right insert_by_key [] l.

Fixpoint spaces (n : nat) : string :=
  match n with O => EmptyString | S k => String " " (spaces k) end.

Definition block (opening closing : string) (level : nat) (items : list string) : string :=
  match items with
  | [] => opening ++ closing
  | _ =>
      opening ++ newline ++ spaces (2 * S level)
      ++ join ("," ++ newline ++ spaces (2 * S level)) items
      ++ newline ++ spaces (2 * level) ++ closing
  end.

(** [json.dumps(v, indent=2, sort_keys=True)] at nesting depth [level] *)
Fixpoint dumps_pretty (level : nat) (v : json) : string :=
  match v with
  | JList items => block "[" "]" level (map (dumps_pretty (S level)) items)
  | JDict fields =>
      block "{" "}" level
        (map (fun kr => quote (fst kr) ++ ": " ++ snd kr)
           (sort_by_key
              (map (fun kv => (fst kv, dumps_pretty (S level) (snd kv))) fields)))
  | _ => dumps v
  end.

(** [repr] of a [str]. *)
Definition repr_char (q : ascii) (c : ascii) : string :=
  if is_char 92 c then backslash ++ backslash
  else if Ascii.eqb c q then backslash ++ String c EmptyString
  else if is_char 10 c then "\n"
  else if is_char 13 c then "\r"
  else if is_char 9 c then "\t"
  else if (code c <? 32)%nat || in_range 127 160 c || is_char 173 c
  then "\x" ++ hex2 c
  else String c EmptyString.

Fixpoint repr_chars (q : ascii) (s : string) : string :=
  match s with
  | EmptyString => EmptyString
  | String c r => repr_char q c ++ repr_chars q r
  end.

Definition repr_str (s : string) : string :=
  let q := if contains squote s && negb (contains dquote s)
           then "034"%char else "039"%char in
  String q (repr_chars q s) ++ String q EmptyString.

(** [repr(v)] *)
Fixpoint py_repr (v : json) : string :=
  match v with
  | JNull => "None"
  | JBool b => str_of_bool b
  | JInt z => str_of_Z z
  | JFloat lit => float_repr lit
  | JStr s => repr_str s
  | JList items => "[" ++ join ", " (map py_repr items) ++ "]"
  | JDict fields =>
      "{" ++ join ", "
               (map (fun kv => repr_str (fst kv) ++ ": " ++ py_repr (snd kv)) fields)
          ++ "}"
  end.

(** [str(v)], as an f-string formats [v]. *)
Definition py_str (v : json) : string :=
  match v with
  | JStr s => s
  | _ => py_repr v
  end.

(** [bool(v)] *)
Definition py_truth (v : json) : bool :=
  match v with
  | JNull => false
  | JBool b => b
  | JInt z => negb (z =? 0)%Z
  | JFloat lit => float_truth lit
  | JStr s => truthy s
  | JList items => match items with [] => false | _ => true end
  | JDict fields => match fields with [] => false | _ => true end
  end.

(** [a or b] *)
Definition py_or (a b : json) : json := if py_truth a then a else b.

End Render.

End Json.

(** ** Induction on JSON values

    The induction principle for [json], with the hypotheses for the
    elements of a list and for the values of an object. *)

Import PyStr Json.

Section JsonInduction.

Variable P : json -> Prop.
Hypothesis P_null : P JNull.
Hypothesis P_bool : forall b, P (JBool b).
Hypothesis P_int : forall z, P (JInt z).
Hypothesis P_float : forall lit, P (JFloat lit).
Hypothesis P_str : forall s, P (JStr s).
Hypothesis P_list : forall items, Forall P items -> P (JList items).
Hypothesis P_dict : forall fields, Forall (fun kv => P (snd kv)) fields -> P (JDict fields).

Fixpoint json_induction (v : json) : P v :=
  match v with
  | JNull => P_null
  | JBool b => P_bool b
  | JInt z => P_int z
  | JFloat lit => P_float lit
  | JStr s => P_str s
  | JList items =>
      P_list items
        ((fix all (l : list json) : Forall P l :=
            match l with
            | [] => Forall_nil P
            | x :: r => Forall_cons x (json_induction x) (all r)
            end) items)
  | JDict fields =>
      P_dict fields
        ((fix all (l : fields_t) : Forall (fun kv => P (snd kv)) l :=
            match l with
            | [] => Forall_nil _
            | kv :: r => Forall_cons kv (json_induction (snd kv)) (all r)
            end) fields)
  end.

End JsonInduction.

(** ** The host: options, state and environment *)

(** [HostOptions] *)
Record HostOptions : Type := {
  mode : string;
  interactive : bool;
  mock : bool;
  verbose : bool;
  claude_command : string;
  claude_args : list string;
  prompt_mode : string;
  timeout_secs : Z;
  response_timeout_secs : Z;
  history_turns : Z;
  max_partials : Z;
  carry_history : bool
}.

(** An item of [self.history]: the dict with the keys [prompt] and [result]. *)
Record HistoryEntry : Type := {
  prompt_summary : string;
  result_summary : string
}.

(** What [select.select([sys.stdin], [], [], timeout)] does: standard input
    is ready, the timeout passes, or the call raises [ValueError] or
    [OSError]. *)
Inductive SelectResult : Type :=
| Ready
| TimedOut
| SelectError.

(** What [subprocess.run] does: it raises [FileNotFoundError],
    [subprocess.TimeoutExpired] or another exception (with its text), or it
    returns the completed process. *)
Inductive RunResult : Type :=
| FileNotFound
| TimeoutExpired
| OtherError (msg : string)
| Completed (returncode : Z) (out err : string).

(** The outside world.  Every call is numbered ([ticks]), so that the
    answers may change as time passes.  [time_ms] is [time.time()] in
    milliseconds; [select] receives the timeout, [subprocess_run] the
    argument vector, the text for the standard input of the child and the
    timeout. *)
Record Env : Type := {
  time_ms : nat -> Z;
  select : nat -> Z -> SelectResult;
  subprocess_run : nat -> list string -> option string -> Z -> RunResult
}.

(** The fields of the host object ([session_counter], [history]) and the
    streams of the process: the lines of standard input not yet read, the
    messages written to standard output (each one a JSON object, written on
    one line), the lines logged to standard error, and the number of calls
    made to the environment. *)
Record State : Type := {
  session_counter : Z;
  history : list HistoryEntry;
  stdin : list string;
  stdout : list json;
  stderr : list string;
  ticks : nat
}.

Definition set_session_counter (n : Z) (s : State) : State :=
  {| session_counter := n; history := history s; stdin := stdin s;
     stdout := stdout s; stderr := stderr s; ticks := ticks s |}.

Definition set_history (h : list HistoryEntry) (s : State) : State :=
  {| session_counter := session_counter s; history := h; stdin := stdin s;
     stdout := stdout s; stderr := stderr s; ticks := ticks s |}.

Definition set_stdin (l : list string) (s : State) : State :=
  {| session_counter := session_counter s; history := history s; stdin := l;
     stdout := stdout s; stderr := stderr s; ticks := ticks s |}.

Definition set_stdout (l : list json) (s : State) : State :=
  {| session_counter := session_counter s; history := history s; stdin := stdin s;
     stdout := l; stderr := stderr s; ticks := ticks s |}.

Definition set_stderr (l : list string) (s : State) : State :=
  {| session_counter := session_counter s; history := history s; stdin := stdin s;
     stdout := stdout s; stderr := l; ticks := ticks s |}.

Definition tick (s : State) : State :=
  {| session_counter := session_counter s; history := history s; stdin := stdin s;
     stdout := stdout s; stderr := stderr s; ticks := S (ticks s) |}.

(** The host as it is constructed, before a process that will read [input]. *)
Definition init_state (input : list string) : State :=
  {| session_counter := 0; history := []; stdin := input;
     stdout := []; stderr := []; ticks := 0 |}.

(** ** Computations: state and exceptions

    A computation changes the state and returns a value or raises an
    exception, of which the text is kept.  What was written before an
    exception stays written. *)

Definition M (A : Type) : Type := State -> State * (A + string).

Definition ret {A : Type} (a : A) : M A := fun s => (s, inl a).

Definition raise {A : Type} (exc : string) : M A := fun s => (s, inr exc).

Definition bind {A B : Type} (m : M A) (k : A -> M B) : M B :=
  fun s =>
    match m s with
    | (s', inl a) => k a s'
    | (s', inr exc) => (s', inr exc)
    end.

(** [try: m  except Exception as exc: handler(exc)] *)
Definition try_except {A : Type} (m : M A) (handler : string -> M A) : M A :=
  fun s =>
    match m s with
    | (s', inl a) => (s', inl a)
    | (s', inr exc) => handler exc s'
    end.

Definition modify (f : State -> State) : M unit := fun s => (f s, inl tt).

Definition gets {A : Type} (f : State -> A) : M A := fun s => (s, inl (f s)).

Definition when (b : bool) (m : M unit) : M unit := if b then m else ret tt.

Declare Scope host_scope.
Delimit Scope host_scope with host.
Notation "x <- m ;; k" := (bind m (fun x => k))
  (at level 61, m at next level, right associativity) : host_scope.
Notation "m ;; k" := (bind m (fun _ => k))
  (at level 61, right associativity) : host_scope.
Local Open Scope host_scope.

(** The state a computation ends in. *)
Definition exec {A : Type} (m : M A) (s : State) : State := fst (m s).

(** ** The host's pure helpers *)

(** [summarize(text, limit)] *)
Definition summarize (text : string) (limit : Z) : string :=
  let text := strip (replace newline " " text) in
  if (Z.of_nat (String.length text) <=? limit)%Z then text
  else take (Z.to_nat (Z.max 0 (limit - 3))) text ++ "...".

(** [try_parse_json(text)]: the value, or [None] when the text is not JSON. *)
Definition try_parse_json (text : string) : json :=
  match loads text with
  | Some v => v
  | None => JNull
  end.

(** The keywords of [looks_high_risk]. *)
Definition risk_keywords : list string :=
  ["rm -rf"; "drop table"; "delete"; "destroy"; "production"; "migrate";
   "rollback"; "truncate"; "sudo"].

(** [looks_high_risk(prompt)] *)
Definition looks_high_risk (prompt : string) : bool :=
  let text := lower prompt in
  existsb (fun keyword => contains keyword text) risk_keywords.

(** [compact[-1]], when [compact] is not empty. *)
Fixpoint last_value (compact : list string) : option string :=
  match compact with
  | [] => None
  | [v] => Some v
  | _ :: rest => last_value rest
  end.

(** The loop of [compact_values], [compact] being the list built so far. *)
Fixpoint compact_into (compact : list string) (values : list string) : list string :=
  match values with
  | [] => compact
  | value :: rest =>
      if is_empty value then compact_into compact rest
      else
        match last_value compact with
        | Some l =>
            if String.eqb l value then compact_into compact rest
            else compact_into (compact ++ [value]) rest
        | None => compact_into (compact ++ [value]) rest
        end
  end.

(** [compact_values(values)] *)
Definition compact_values (values : list string) : list string :=
  compact_into [] values.

(** Truth value of a [str | None]. *)
Definition truthy_opt (o : option string) : bool :=
  match o with
  | Some s => truthy s
  | None => false
  end.

(** The first of [keys] for which [f] gives a text, as the loop over the
    four keys of [extract_text] returns it. *)
Fixpoint first_text (f : string -> option string) (keys : list string) : option string :=
  match keys with
  | [] => None
  | key :: rest =>
      let extracted := f key in
      if truthy_opt extracted then extracted else first_text f rest
  end.

(** [extract_text(value)].  [of_key key fields] is
    [extract_text(value.get(key))] for the object with these fields. *)
Fixpoint extract_text (value : json) : option string :=
  match value with
  | JStr s =>
      let text := strip s in
      if truthy text then Some text else None
  | JDict fields =>
      let fix of_key (key : string) (d : fields_t) : option string :=
        match d with
        | [] => None
        | (k, v) :: r => if String.eqb key k then extract_text v else of_key key r
        end in
      match first_text (fun key => of_key key fields)
              ["text"; "completion"; "delta"; "output"] with
      | Some extracted => Some extracted
      | None =>
          let message := of_key "message" fields in
          if truthy_opt message then message
          else
            let content := of_key "content" fields in
            if truthy_opt content then content else None
      end
  | JList items =>
      let parts :=
        flat_map (fun item =>
                    let extracted := extract_text item in
                    if truthy_opt extracted
                    then match extracted with Some e => [e] | None => [] end
                    else [])
                 items in
      match parts with
      | [] => None
      | _ => Some (join newline parts)
      end
  | _ => None
  end.

(** [l[-n:]] for [n > 0] *)
Definition lastn {A : Type} (n : nat) (l : list A) : list A :=
  skipn (length l - n) l.

(** [shlex.quote(s)] *)
Definition shlex_safe (c : ascii) : bool :=
  in_range 48 57 c || in_range 65 90 c || in_range 97 122 c || is_char 95 c
  || is_char 64 c || is_char 37 c || is_char 43 c || is_char 61 c || is_char 58 c
  || is_char 44 c || is_char 46 c || is_char 47 c || is_char 45 c.

Definition shlex_quote (s : string) : string :=
  if is_empty s then squote ++ squote
  else if sall shlex_safe s then s
  else squote ++ replace squote (squote ++ dquote ++ squote ++ dquote ++ squote) s ++ squote.

(** [d.get(k, default)] *)
Definition get_or (d : fields_t) (k : string) (default : json) : json :=
  match lookup k d with
  | Some v => v
  | None => default
  end.

(** ** The host's methods *)

Section Host.

(** Python's printing of floats and their truth value (see [Json]). *)
Variable float_repr : string -> string.
Variable float_truth : string -> bool.

Variable opts : HostOptions.
Variable env : Env.

Definition is_stream : bool := String.eqb (mode opts) "stream".

(** [self.emit(msg_type, **payload)]: one JSON object, whose first key is
    [type], is written to standard output. *)
Definition emit (msg_type : string) (payload : fields_t) : M unit :=
  modify (fun s => set_stdout (stdout s ++ [JDict (("type", JStr msg_type) :: payload)]) s).

(** [self.log(message)] *)
Definition log (message : string) : M unit :=
  if verbose opts
  then modify (fun s => set_stderr (stderr s ++ ["[claude_code_host] " ++ message]) s)
  else ret tt.

(** [time.time()], in milliseconds. *)
Definition time : M Z :=
  fun s => (tick s, inl (time_ms env (ticks s))).

(** [sys.stdin.readline()]: the next line, or the empty text at the end
    of the input. *)
Definition readline : M string :=
  fun s =>
    match stdin s with
    | [] => (s, inl EmptyString)
    | line :: rest => (set_stdin rest s, inl line)
    end.

(** [select.select([sys.stdin], [], [], timeout_secs)] *)
Definition select_stdin (timeout_secs : Z) : M SelectResult :=
  fun s => (tick s, inl (select env (ticks s) timeout_secs)).

(** [subprocess.run(argv, input=stdin_payload, capture_output=True,
    text=True, timeout=timeout, check=False)] *)
Definition run_subprocess (argv : list string) (stdin_payload : option string)
           (timeout : Z) : M RunResult :=
  fun s => (tick s, inl (subprocess_run env (ticks s) argv stdin_payload timeout)).

(** [parse_prompt_input(line, parsed)] *)
Definition parse_prompt_input (line : string) (parsed : json) : string * json :=
  match parsed with
  | JDict d =>
      if has_key d "prompt" then
        let prompt_value := get_or d "prompt" (JStr EmptyString) in
        let prompt_text :=
          match prompt_value with
          | JStr s => s
          | _ => dumps_compact float_repr prompt_value
          end in
        (prompt_text, get d "context")
      else (line, JNull)
  | _ => (line, JNull)
  end.

(** [mock_output(prompt)] *)
Definition mock_output (prompt : string) : string :=
  let task := summarize prompt 100 in
  join newline
    [ dumps float_repr
        (JDict [("event", JStr "analysis");
                ("text", JStr ("Planning implementation for task: " ++ task))]);
      dumps float_repr
        (JDict [("event", JStr "edit");
                ("text", JStr "Would update source files and add/adjust tests.")]);
      dumps float_repr
        (JDict [("event", JStr "final");
                ("text", JStr "Mock Claude Code run completed successfully.")]) ].

(** [build_command(prompt)] *)
Definition build_command (prompt : string) : list string * option string :=
  let args := claude_args opts in
  if existsb (fun part => contains "{prompt}" part) args then
    (claude_command opts :: map (fun part => replace "{prompt}" prompt part) args, None)
  else if String.eqb (prompt_mode opts) "stdin" then
    (claude_command opts :: args, Some (prompt ++ newline))
  else if String.eqb (prompt_mode opts) "json-stdin" then
    (claude_command opts :: args,
     Some (dumps float_repr (JDict [("prompt", JStr prompt)]) ++ newline))
  else
    (claude_command opts :: args ++ [prompt], None).

(** The timeout [invoke_claude] gives to [subprocess.run]. *)
Definition invoke_timeout : Z := Z.max 1 (timeout_secs opts).

(** [invoke_claude(prompt)]: the output, the diagnostic output and the
    argument vector. *)
Definition invoke_claude (prompt : string) : M (string * string * list string) :=
  if mock opts then
    ret (mock_output prompt, EmptyString, [claude_command opts; "<mock>"])
  else
    let '(argv, stdin_payload) := build_command prompt in
    log ("exec: " ++ join " " (map shlex_quote argv)) ;;
    completed <- run_subprocess argv stdin_payload invoke_timeout ;;
    match completed with
    | FileNotFound =>
        raise ("Claude command not found: " ++ claude_command opts)
    | TimeoutExpired =>
        raise ("Claude command timed out after " ++ str_of_Z (timeout_secs opts) ++ "s")
    | OtherError msg => raise msg
    | Completed returncode out err =>
        if negb (returncode =? 0)%Z then
          let stderr_text := strip err in
          let stdout_text := strip out in
          let detail :=
            if truthy stderr_text then stderr_text
            else if truthy stdout_text then stdout_text
            else "exit code " ++ str_of_Z returncode in
          raise ("Claude command failed: " ++ detail)
        else ret (out, err, argv)
    end.

(** The event name of a structured line without text:
    [parsed.get("type") or parsed.get("event") or parsed.get("kind") or "event"]. *)
Definition event_name (parsed : fields_t) : json :=
  py_or float_truth (get parsed "type")
    (py_or float_truth (get parsed "event")
       (py_or float_truth (get parsed "kind") (JStr "event"))).

(** The loop of [parse_claude_output] over the lines. *)
Fixpoint collect_lines (lines : list string) (partials event_markers : list string)
  : list string * list string :=
  match lines with
  | [] => (partials, event_markers)
  | line :: rest =>
      match try_parse_json line with
      | JDict parsed =>
          let extracted := extract_text (JDict parsed) in
          if truthy_opt extracted then
            collect_lines rest
              (partials ++ match extracted with Some e => [e] | None => [] end)
              event_markers
          else
            collect_lines rest partials
              (event_markers ++ ["claude:" ++ py_str float_repr (event_name parsed)])
      | _ => collect_lines rest (partials ++ [line]) event_markers
      end
  end.

(** [parse_claude_output(output)]: the result text, the partials and the
    event markers. *)
Definition parse_claude_output (output : string) : string * list string * list string :=
  let lines :=
    map strip (filter (fun line => truthy (strip line)) (splitlines output)) in
  let '(partials, event_markers) := collect_lines lines [] [] in
  let partials := compact_values partials in
  let event_markers := compact_values event_markers in
  let result_text := strip (join newline partials) in
  let result_text := if truthy result_text then result_text else strip output in
  let result_text :=
    if truthy result_text then result_text else "Claude Code returned no output." in
  (result_text, partials, event_markers).

(** The numbered history lines of [compose_prompt]. *)
Fixpoint history_sections (idx : Z) (items : list HistoryEntry) : list string :=
  match items with
  | [] => []
  | item :: rest =>
      (str_of_Z idx ++ ". Prompt: " ++ prompt_summary item ++ newline
       ++ "   Result: " ++ result_summary item)
      :: history_sections (idx + 1) rest
  end.

(** [compose_prompt(prompt, context, supervisor_note)], for the history
    [hist] of the host. *)
Definition compose_prompt (hist : list HistoryEntry) (prompt : string) (context : json)
           (supervisor_note : string) : string :=
  let history_part :=
    if carry_history opts
       && match hist with [] => false | _ => true end
       && (0 <? history_turns opts)%Z
    then "Recent middleware history:"
         :: history_sections 1 (lastn (Z.to_nat (history_turns opts)) hist)
    else [] in
  let task_part := ["Task:" ++ newline ++ prompt] in
  let guidance_part :=
    if truthy (strip supervisor_note)
    then ["Supervisor guidance:" ++ newline ++ strip supervisor_note]
    else [] in
  let context_part :=
    match context with
    | JNull => []
    | JStr context_text => ["Concerto context:" ++ newline ++ context_text]
    | _ => ["Concerto context:" ++ newline ++ dumps_pretty float_repr 0 context]
    end in
  join (newline ++ newline) (history_part ++ task_part ++ guidance_part ++ context_part).

(** The entry [record_history] appends. *)
Definition history_entry (prompt result : string) : HistoryEntry :=
  {| prompt_summary := summarize prompt 300; result_summary := summarize result 300 |}.

Definition max_entries : Z := Z.max 1 (history_turns opts * 2).

(** [record_history(prompt, result)], on the history. *)
Definition record (hist : list HistoryEntry) (prompt result : string) : list HistoryEntry :=
  if negb (carry_history opts) then hist
  else
    let hist := (hist ++ [history_entry prompt result])%list in
    if (max_entries <? Z.of_nat (length hist))%Z
    then lastn (Z.to_nat max_entries) hist
    else hist.

(** [record_history(prompt, result)] *)
Definition record_history (prompt result : string) : M unit :=
  modify (fun s => set_history (record (history s) prompt result) s).

(** [read_line_with_timeout(timeout_secs)] *)
Definition read_line_with_timeout (timeout_secs : Z) : M (option string) :=
  if (timeout_secs <=? 0)%Z then
    line <- readline ;;
    ret (if truthy line then Some line else None)
  else
    ready <- select_stdin timeout_secs ;;
    match ready with
    | TimedOut => ret None
    | Ready | SelectError =>
        line <- readline ;;
        ret (if truthy line then Some line else None)
    end.

(** What [read_response] makes of a line that was read. *)
Definition response_of_line (line default : string) : string :=
  match try_parse_json (strip line) with
  | JDict parsed =>
      let value := get parsed "value" in
      let value :=
        match value with
        | JNull => get parsed "response"
        | _ => value
        end in
      match value with
      | JNull => default
      | JStr text => strip text
      | _ => dumps_compact float_repr value
      end
  | _ =>
      let stripped := strip line in
      if truthy stripped then stripped else default
  end.

(** [read_response(default)] *)
Definition read_response (default : string) : M string :=
  line <- read_line_with_timeout (Z.max 0 (response_timeout_secs opts)) ;;
  match line with
  | None =>
      log "response timeout reached; using default" ;;
      ret default
  | Some line => ret (response_of_line line default)
  end.

(** [request_question(question, context, options)] *)
Definition request_question (question context : string) (options : list string)
  : M string :=
  counter <- gets session_counter ;;
  emit "question"
    [("id", JStr ("session-" ++ str_of_Z counter ++ "-question"));
     ("question", JStr question);
     ("context", JStr context);
     ("options", JList (map JStr options))] ;;
  read_response EmptyString.

Definition approval_words : list string :=
  ["y"; "yes"; "approve"; "approved"; "true"; "1"; "ok"; "proceed"].

(** [request_approval(description, risk_level)] *)
Definition request_approval (description risk_level : string) : M bool :=
  counter <- gets session_counter ;;
  emit "approval"
    [("id", JStr ("session-" ++ str_of_Z counter ++ "-approval"));
     ("description", JStr description);
     ("risk_level", JStr risk_level)] ;;
  response <- read_response "no" ;;
  let decision := lower (strip response) in
  ret (existsb (String.eqb decision) approval_words).

(** The loop of [process_prompt] over the event markers. *)
Fixpoint emit_markers (session : Z) (event_markers : list string) : M unit :=
  match event_markers with
  | [] => ret tt
  | marker :: rest =>
      emit "progress"
        [("session", JInt session); ("stage", JStr "claude_event");
         ("message", JStr marker)] ;;
      emit_markers session rest
  end.

(** The loop of [process_prompt] over the partials, [sent] of them sent. *)
Fixpoint emit_partials (session : Z) (sent : Z) (partials : list string) : M unit :=
  match partials with
  | [] => ret tt
  | chunk :: rest =>
      if (Z.max 0 (max_partials opts) <=? sent)%Z then ret tt
      else if is_empty chunk then emit_partials session sent rest
      else
        emit "partial" [("session", JInt session); ("chunk", JStr chunk)] ;;
        emit_partials session (sent + 1) rest
  end.

(** [process_prompt], up to the approval: the guidance of the supervisor
    when the session goes on, [None] when the task was rejected (the
    method returns then). *)
Definition session_gate (session : Z) (prompt : string) : M (option string) :=
  when is_stream
    (emit "progress"
       [("session", JInt session); ("stage", JStr "received_prompt");
        ("message", JStr "Prompt received by claude_code middleware")]) ;;
  supervisor_note <-
    (if is_stream && interactive opts then
       note <- request_question
                 "Any extra implementation guidance before I run Claude Code?"
                 "Reply with one short instruction, or leave empty."
                 ["Proceed as-is"; "Prioritize safety"; "Prioritize speed"] ;;
       when (truthy note)
         (emit "progress"
            [("session", JInt session); ("stage", JStr "supervisor_guidance");
             ("message", JStr "Applied supervisor guidance")]) ;;
       ret note
     else ret EmptyString) ;;
  if is_stream && interactive opts && looks_high_risk prompt then
    approved <- request_approval
                  ("High-risk task detected: " ++ summarize prompt 160) "high" ;;
    if negb approved then
      emit "error"
        [("session", JInt session);
         ("message", JStr "Task rejected by supervisor approval handler")] ;;
      ret None
    else ret (Some supervisor_note)
  else ret (Some supervisor_note).

(** [process_prompt], from the composition of the prompt on. *)
Definition session_body (session : Z) (prompt : string) (context : json)
           (started_at : Z) (supervisor_note : string) : M unit :=
  hist <- gets history ;;
  let composed_prompt := compose_prompt hist prompt context supervisor_note in
  when is_stream
    (emit "progress"
       [("session", JInt session); ("stage", JStr "invoke_claude");
        ("message", JStr "Invoking Claude Code CLI")]) ;;
  invoked <- invoke_claude composed_prompt ;;
  let '(raw_output, stderr_output, argv) := invoked in
  let '(result_text, partials, event_markers) := parse_claude_output raw_output in
  when is_stream
    (emit_markers session event_markers ;;
     emit_partials session 0 partials) ;;
  now <- time ;;
  let elapsed_ms := (now - started_at)%Z in
  emit "result"
    [("session", JInt session); ("text", JStr result_text);
     ("elapsed_ms", JInt elapsed_ms);
     ("command", JStr match argv with
                      | first :: _ => first
                      | [] => claude_command opts
                      end)] ;;
  record_history prompt result_text ;;
  let stderr_trimmed := strip stderr_output in
  when (truthy stderr_trimmed)
    (log ("session " ++ str_of_Z session ++ " stderr: " ++ summarize stderr_trimmed 300)).

(** [process_prompt(session, prompt, context, started_at)] *)
Definition process_prompt (session : Z) (prompt : string) (context : json)
           (started_at : Z) : M unit :=
  gate <- session_gate session prompt ;;
  match gate with
  | None => ret tt
  | Some supervisor_note => session_body session prompt context started_at supervisor_note
  end.

(** A line that declares itself a response:
    [isinstance(parsed, dict) and parsed.get("type") == "response"]. *)
Definition is_response (parsed : json) : bool :=
  match parsed with
  | JDict d => eq_str (get d "type") "response"
  | _ => false
  end.

(** The body of the loop of [run], for one line of standard input. *)
Definition run_line (raw_line : string) : M unit :=
  let line := strip raw_line in
  if is_empty line then ret tt
  else
    let parsed := try_parse_json line in
    if is_response parsed then log "ignored stray response message in main loop"
    else
      let '(prompt, context) := parse_prompt_input line parsed in
      if is_empty prompt then
        emit "error" [("message", JStr "received empty prompt")]
      else
        modify (fun s => set_session_counter (session_counter s + 1) s) ;;
        session <- gets session_counter ;;
        started <- time ;;
        try_except (process_prompt session prompt context started)
          (fun exc =>
             emit "error"
               [("session", JInt session);
                ("message", JStr ("session failed: " ++ exc))]).

(** [for raw_line in sys.stdin: ...]: [None] when the loop did not reach
    the end of the input within [fuel] lines. *)
Fixpoint run_loop (fuel : nat) (s : State) : option State :=
  match fuel with
  | O => None
  | S fuel' =>
      match stdin s with
      | [] => Some s
      | raw_line :: rest => run_loop fuel' (exec (run_line raw_line) (set_stdin rest s))
      end
  end.

(** [run()]: every pass of the loop reads a line, so the loop ends within
    as many passes as there are lines; the state at the end of the input. *)
Definition run (s : State) : option State :=
  let s := exec (log ("starting"
                      ++ " mode=" ++ mode opts
                      ++ " interactive=" ++ str_of_bool (interactive opts)
                      ++ " mock=" ++ str_of_bool (mock opts))) s in
  run_loop (S (length (stdin s))) s.

End Host.

(** ** Notions used by the statements *)

(** No two neighbours of the list are equal. *)
Fixpoint no_adjacent_dup (l : list string) : Prop :=
  match l with
  | a :: ((b :: _) as rest) => a <> b /\ no_adjacent_dup rest
  | _ => True
  end.

(** The text-extraction rule as the specification words it: a candidate
    counts when it is a non-empty text, and the first candidate that counts
    wins. *)
Definition nonempty_text (o : option string) : option string :=
  match o with
  | Some s => if truthy s then Some s else None
  | None => None
  end.

Fixpoint first_nonempty (candidates : list (option string)) : option string :=
  match candidates with
  | [] => None
  | c :: rest =>
      match nonempty_text c with
      | Some s => Some s
      | None => first_nonempty rest
      end
  end.

Definition object_text_keys : list string :=
  ["text"; "completion"; "delta"; "output"; "message"; "content"].

(** The type of a message and the terminal messages. *)
Definition msg_type (m : json) : json :=
  match m with
  | JDict d => get d "type"
  | _ => JNull
  end.

Definition msg_field (m : json) (k : string) : option json :=
  match m with
  | JDict d => lookup k d
  | _ => None
  end.

Definition is_terminal (m : json) : bool :=
  eq_str (msg_type m) "result" || eq_str (msg_type m) "error".

(** [extract_text(value.get(key))] *)
Definition text_of_key (fields : fields_t) (key : string) : option string :=
  extract_text (get fields key).

(** *** Computations

    [pres R m]: the state [m] ends in is related by [R] to the state it
    starts in, whether [m] returns or raises.  [total m]: [m] never
    raises. *)
Definition pres {A : Type} (R : State -> State -> Prop) (m : M A) : Prop :=
  forall s, R s (fst (m s)).

Definition total {A : Type} (m : M A) : Prop :=
  forall s, exists a, snd (m s) = inl a.

(** *** Messages

    A quiet step leaves the history and the session counter as they are and
    writes no terminal message. *)
Definition quiet (s s' : State) : Prop :=
  history s' = history s
  /\ session_counter s' = session_counter s
  /\ exists out, stdout s' = (stdout s ++ out)%list
                 /\ Forall (fun m => is_terminal m = false) out.

Definition not_terminal_type (t : string) : Prop := t <> "result" /\ t <> "error".

(** The [result] message of [process_prompt]. *)
Definition result_message (session : Z) (text : string) (elapsed : Z) (command : string)
  : json :=
  JDict [("type", JStr "result"); ("session", JInt session); ("text", JStr text);
         ("elapsed_ms", JInt elapsed); ("command", JStr command)].

(** Between [s] and [s'] exactly one terminal message was written, and it
    was written last. *)
Definition ends_terminal (s s' : State) : Prop :=
  exists pre t,
    stdout s' = (stdout s ++ pre ++ [t])%list
    /\ is_terminal t = true
    /\ Forall (fun m => is_terminal m = false) pre.

(** The number of terminal messages among [messages]. *)
Definition terminal_count (messages : list json) : nat :=
  length (filter is_terminal messages).

(** A line for which the main loop owes a terminal message: it is not blank
    and does not declare itself a response. *)
Definition starts_exchange (raw_line : string) : bool :=
  negb (is_empty (strip raw_line))
  && negb (is_response (try_parse_json (strip raw_line))).

(** The lines that the loop of [run] itself reads, in order; the lines that
    the mediator reads during a session are not among them. *)
Fixpoint main_loop_lines (fr : string -> string) (ft : string -> bool)
         (opts : HostOptions) (env : Env) (fuel : nat) (s : State) : list string :=
  match fuel with
  | O => []
  | S fuel' =>
      match stdin s with
      | [] => []
      | raw_line :: rest =>
          raw_line
          :: main_loop_lines fr ft opts env fuel'
               (exec (run_line fr ft opts env raw_line) (set_stdin rest s))
      end
  end.

(** The state in which [run] enters its loop. *)
Definition run_start (opts : HostOptions) (s : State) : State :=
  exec (log opts ("starting"
                  ++ " mode=" ++ mode opts
                  ++ " interactive=" ++ str_of_bool (interactive opts)
                  ++ " mock=" ++ str_of_bool (mock opts))) s.

(** *** Sample configurations for the concrete runs *)

(** The options [parse_args] builds when no flag and no environment
    variable is given. *)
Definition default_options : HostOptions :=
  {| mode := "oneshot"; interactive := false; mock := false; verbose := false;
     claude_command := "claude"; claude_args := ["--print"];
     prompt_mode := "arg-last"; timeout_secs := 600; response_timeout_secs := 30;
     history_turns := 3; max_partials := 32; carry_history := true |}.

(** The same with [--mock]. *)
Definition mock_options : HostOptions :=
  {| mode := "oneshot"; interactive := false; mock := true; verbose := false;
     claude_command := "claude"; claude_args := ["--print"];
     prompt_mode := "arg-last"; timeout_secs := 600; response_timeout_secs := 30;
     history_turns := 3; max_partials := 32; carry_history := true |}.

(** The same with [--mock --mode stream --interactive]. *)
Definition mock_interactive_options : HostOptions :=
  {| mode := "stream"; interactive := true; mock := true; verbose := false;
     claude_command := "claude"; claude_args := ["--print"];
     prompt_mode := "arg-last"; timeout_secs := 600; response_timeout_secs := 30;
     history_turns := 3; max_partials := 32; carry_history := true |}.

(** A printing of floats for the concrete runs, none of which has a float. *)
Definition literal_repr (lit : string) : string := lit.

Definition literal_truth (lit : string) : bool := true.

(** An environment whose clock advances by ten milliseconds a call, where
    nothing arrives on standard input in time and the command of the agent
    does not exist. *)
Definition idle_env : Env :=
  {| time_ms := fun n => (10 * Z.of_nat n)%Z;
     select := fun _ _ => TimedOut;
     subprocess_run := fun _ _ _ _ => FileNotFound |}.

(** An environment where the line awaited on standard input is there and
    the agent prints [out] and, as diagnostics, [err], and exits with 0. *)
Definition agent_env (out err : string) : Env :=
  {| time_ms := fun n => (10 * Z.of_nat n)%Z;
     select := fun _ _ => Ready;
     subprocess_run := fun _ _ _ _ => Completed 0 out err |}.

(** *** The main loop and the history *)

(** The input only gets shorter. *)
Definition stdin_shrinks (s s' : State) : Prop :=
  length (stdin s') <= length (stdin s).

(** The history stays within its capacity. *)
Definition within_capacity (opts : HostOptions) (s s' : State) : Prop :=
  (Z.of_nat (length (history s)) <= max_entries opts ->
   Z.of_nat (length (history s')) <= max_entries opts)%Z.

(** The history after a sequence of appends to an empty store. *)
Definition appends (opts : HostOptions) (sessions : list (string * string))
  : list HistoryEntry :=
  fold_left (fun hist session => record opts hist (fst session) (snd session)) sessions [].

(** *** Mock runs *)

(** The text of the [result] message of a mock session, computed from the
    history the host carries, the prompt, the context and the guidance. *)
Definition mock_result_text (fr : string -> string) (ft : string -> bool)
           (opts : HostOptions) (hist : list HistoryEntry) (prompt : string)
           (context : json) (note : string) : string :=
  fst (fst (parse_claude_output fr ft
              (mock_output fr (compose_prompt fr opts hist prompt context note)))).

(** The last two lines of the text of every mock result. *)
Definition mock_tail : string :=
  newline ++ "Would update source files and add/adjust tests."
  ++ newline ++ "Mock Claude Code run completed successfully.".

(** The texts of the messages written, one for each message. *)
Definition texts (messages : list json) : list (option json) :=
  map (fun m => msg_field m "text") messages.

(** The input line of the scenario. *)
Definition health_check_line : string := dq "{'prompt':'add a health check endpoint'}".

(** *** The mediator and the waits *)






(** [line = sys.stdin.readline(); return line if line else None]: the read
    that waits for a line without a deadline. *)
Definition blocking_read : M (option string) :=
  fun s =>
    match stdin s with
    | [] => (s, inl None)
    | line :: rest => (set_stdin rest s, inl (if truthy line then Some line else None))
    end.

(** The default options with [--timeout-secs 0], for the concrete runs. *)
Definition zero_timeout_options : HostOptions :=
  {| mode := "oneshot"; interactive := false; mock := false; verbose := false;
     claude_command := "claude"; claude_args := ["--print"];
     prompt_mode := "arg-last"; timeout_secs := 0; response_timeout_secs := 30;
     history_turns := 3; max_partials := 32; carry_history := true |}.

(** An environment where the agent needs more than one second: the
    invocation runs out of time when its timeout is 1, and completes when
    it is given any other timeout. *)
Definition slow_agent_env : Env :=
  {| time_ms := fun n => (10 * Z.of_nat n)%Z;
     select := fun _ _ => Ready;
     subprocess_run :=
       fun _ _ _ timeout =>
         if (timeout =? 1)%Z then TimeoutExpired else Completed 0 "done" EmptyString |}.

(** *** The inputs on which the model is the code *)

(** The number of opening brackets of a text.  Arrays and objects cannot
    be nested more deeply in a text than it has opening brackets. *)
Fixpoint open_brackets (text : string) : nat :=
  match text with
  | EmptyString => 0
  | String c rest =>
      (if is_char 91 c || is_char 123 c then 1 else 0) + open_brackets rest
  end.

(** The longest run of decimal digits of a text, [run] being the length of
    the run that ends where the text starts.  No integer literal of a text
    has more digits than its longest run. *)
Fixpoint digit_runs (run : nat) (text : string) : nat :=
  match text with
  | EmptyString => run
  | String c rest =>
      if in_range 48 57 c then digit_runs (S run) rest
      else Nat.max run (digit_runs 0 rest)
  end.

Definition longest_digit_run (text : string) : nat := digit_runs 0 text.

(** [json.loads] raises a [RecursionError] when the nesting of a text
    exhausts the recursion limit of the interpreter, and a [ValueError]
    when an integer literal has more digits than the interpreter converts;
    [try_parse_json] catches neither, and [loads] has neither limit.  The
    code parses a line after stripping it.  A line is within the limits of
    the parser when, stripped, it has at most 100 opening brackets and no
    run of more than 640 digits: the interpreter allows a recursion of
    1000 frames unless told otherwise, which the code never does, and it
    converts integers of 4300 digits by default and of 640 digits under
    every setting. *)
Definition within_parser_limits (line : string) : bool :=
  (open_brackets (strip line) <=? 100)%nat
  && (longest_digit_run (strip line) <=? 640)%nat.

(** Whether a text has an escape [\uXXXX] that does not start with two
    zeros, or a backslash before such a sequence: a JSON string of the text
    may then hold a code point above 255, which [loads] does not
    represent. *)
Fixpoint has_wide_escape (text : string) : bool :=
  match text with
  | String c ((String u digits) as rest) =>
      (is_char 92 c && is_char 117 u && negb (String.prefix "00" digits))
      || has_wide_escape rest
  | _ => false
  end.

(** A line on which [try_parse_json] is [json.loads] with its exception
    handler: it is within the limits of the parser and all it decodes are
    code points below 256. *)
Definition line_in_model (line : string) : bool :=
  within_parser_limits line && negb (has_wide_escape (strip line)).

(** Whether the agent is given a standard input of its own: the mock does
    not start a process, and [subprocess.run] connects the process to a
    pipe when it is called with an [input], which [build_command] provides
    in the prompt modes [stdin] and [json-stdin] unless an argument holds
    the placeholder.  Otherwise the process inherits the standard input of
    the host and can take lines from it. *)
Definition agent_has_own_stdin (opts : HostOptions) : bool :=
  mock opts
  || (negb (existsb (fun part => contains "{prompt}" part) (claude_args opts))
      && (String.eqb (prompt_mode opts) "stdin"
          || String.eqb (prompt_mode opts) "json-stdin")).


(** *** Notions for the further properties *)

Definition no_newline (s : string) : bool := sall (fun c => negb (is_char 10 c)) s.

Definition is_marker (m : string) : Prop := exists name, m = "claude:" ++ name.

Definition partial_message (session : Z) (chunk : string) : json :=
  JDict [("type", JStr "partial"); ("session", JInt session); ("chunk", JStr chunk)].

(** At most [n] lines were read from the input between [s] and [s']. *)
Definition reads (n : nat) (s s' : State) : Prop :=
  exists k, k <= n /\ stdin s' = skipn k (stdin s).

(** The number of input lines a session may read: one for the question,
    one for the approval. *)
Definition session_reads (opts : HostOptions) (prompt : string) : nat :=
  if is_stream opts && interactive opts
  then (if looks_high_risk prompt then 2 else 1)
  else 0.

Definition prompt_of_line (fr : string -> string) (raw_line : string) : string :=
  fst (parse_prompt_input fr (strip raw_line) (try_parse_json (strip raw_line))).

Definition starts_session (fr : string -> string) (raw_line : string) : bool :=
  starts_exchange raw_line && negb (is_empty (prompt_of_line fr raw_line)).







(** [stderr_text or stdout_text or f"exit code {returncode}"] of
    [invoke_claude]. *)
Definition failure_detail (returncode : Z) (out err : string) : string :=
  if truthy (strip err) then strip err
  else if truthy (strip out) then strip out
  else "exit code " ++ str_of_Z returncode.

(** What [subprocess.run] answers to the invocation that starts in [s]. *)
Definition agent_answer (fr : string -> string) (opts : HostOptions) (env : Env)
           (prompt : string) (s : State) : RunResult :=
  subprocess_run env (ticks s) (fst (build_command fr opts prompt))
    (snd (build_command fr opts prompt)) (invoke_timeout opts).

(** The line of [compose_prompt] for the history item [item], numbered [idx]. *)
Definition history_line (idx : Z) (item : HistoryEntry) : string :=
  str_of_Z idx ++ ". Prompt: " ++ prompt_summary item ++ newline
  ++ "   Result: " ++ result_summary item.

(** A JSON object whose values are texts. *)
Definition text_object (fields : list (string * string)) : json :=
  JDict (map (fun kv => (fst kv, JStr (snd kv))) fields).

Definition printable (c : ascii) : bool := in_range 32 126 c.

(** A field of an object of texts, as [json.dumps] writes it. *)
Definition field_text (key_sep : string) (kv : string * string) : string :=
  quote (fst kv) ++ key_sep ++ quote (snd kv).

(** The tokens of the fields of an object of texts. *)
Definition field_tokens (kv : string * string) : list token :=
  [TString (fst kv); TColon; TString (snd kv)].

Definition fields_tokens (fields : list (string * string)) : list token :=
  match fields with
  | [] => []
  | first :: rest => field_tokens first ++ flat_map (fun kv => TComma :: field_tokens kv) rest
  end.

(** The fields read so far, followed by the fields still to come. *)
Definition set_fields (acc : fields_t) (fields : list (string * string)) : fields_t :=
  fold_left (fun d kv => dict_set d (fst kv) (JStr (snd kv))) fields acc.



(** ** The model on concrete inputs *)

Example loads_object :
  loads (dq "{'event': 'tool', 'n': [1, 2.50, true, null], 'n2': -7}")
  = Some (JDict [("event", JStr "tool");
                 ("n", JList [JInt 1; JFloat "2.50"; JBool true; JNull]);
                 ("n2", JInt (-7))]).
Proof. reflexivity. Qed.

Example loads_duplicate_key :
  loads (dq "{'a': 1, 'b': 2, 'a': 3}") = Some (JDict [("a", JInt 3); ("b", JInt 2)]).
Proof. reflexivity. Qed.

Example loads_rejects :
  map loads ["[1,]"; "01"; "1."; "-"; "yes"; dq "{'a' 1}"; "[1 2]"; "{}{}"; EmptyString]
  = [None; None; None; None; None; None; None; None; None].
Proof. reflexivity. Qed.

Example dumps_compact_escapes :
  dumps_compact literal_repr
    (JDict [("a", JList [JInt 1; JStr ("x" ++ dquote ++ "y" ++ newline)]); ("b", JNull)])
  = dq "{'a':[1,'x\'y\n'],'b':null}".
Proof. reflexivity. Qed.

Example summarize_truncates :
  summarize ("  one" ++ newline ++ "two three four  ") 10 = "one two..."
  /\ summarize "short" 10 = "short".
Proof. split; reflexivity. Qed.

Example risk_classification :
  looks_high_risk "please drop table users" = true
  /\ looks_high_risk "list files in repo" = false.
Proof. split; reflexivity. Qed.

Example compact_values_run :
  compact_values ["a"; "a"; EmptyString; "a"; "b"; "b"; "a"] = ["a"; "b"; "a"].
Proof. reflexivity. Qed.

Example extract_text_nested :
  extract_text
    (JDict [("text", JStr "  ");
            ("delta", JList [JStr "a"; JInt 3; JDict [("content", JStr " b ")]])])
  = Some ("a" ++ newline ++ "b").
Proof. reflexivity. Qed.

Example parse_claude_output_mixed :
  parse_claude_output literal_repr literal_truth
    (join newline
       [dq "{'type':'start'}"; dq "{'type':'start'}"; "plain line";
        dq "{'delta':'chunk'}"; dq "{'delta':'chunk'}"; dq "{'kind': 3}"; "7"])
  = (join newline ["plain line"; "chunk"; "7"],
     ["plain line"; "chunk"; "7"],
     ["claude:start"; "claude:3"]).
Proof. reflexivity. Qed.

Example compose_prompt_sections :
  compose_prompt literal_repr default_options
    [{| prompt_summary := "p1"; result_summary := "r1" |}]
    "do it" (JDict [("b", JInt 1); ("a", JList [JStr "x"])]) " be safe "
  = join newline
      ["Recent middleware history:"; EmptyString;
       "1. Prompt: p1"; "   Result: r1"; EmptyString;
       "Task:"; "do it"; EmptyString;
       "Supervisor guidance:"; "be safe"; EmptyString;
       "Concerto context:"; "{"; dq "  'a': ["; dq "    'x'"; "  ],"; dq "  'b': 1"; "}"].
Proof. reflexivity. Qed.

Example build_command_modes :
  build_command literal_repr default_options "P" = (["claude"; "--print"; "P"], None)
  /\ build_command literal_repr
       {| mode := "oneshot"; interactive := false; mock := false; verbose := false;
          claude_command := "claude"; claude_args := ["-p"; "{prompt}!"];
          prompt_mode := "stdin"; timeout_secs := 600; response_timeout_secs := 30;
          history_turns := 3; max_partials := 32; carry_history := true |} "P"
     = (["claude"; "-p"; "P!"], None)
  /\ build_command literal_repr
       {| mode := "oneshot"; interactive := false; mock := false; verbose := false;
          claude_command := "claude"; claude_args := ["-p"];
          prompt_mode := "json-stdin"; timeout_secs := 600; response_timeout_secs := 30;
          history_turns := 3; max_partials := 32; carry_history := true |} "P"
     = (["claude"; "-p"], Some (dq "{'prompt': 'P'}" ++ newline)).
Proof. repeat split. Qed.

(** A streamed, interactive mock session: the guidance is asked for and
    given, the task is classified as risky and approved, and the session
    ends with its [result]. *)
Example interactive_session_messages :
  option_map (fun s => map msg_type (stdout s))
    (run literal_repr literal_truth mock_interactive_options (agent_env "x" "y")
       (init_state
          ["please delete x" ++ newline;
           dq "{'type':'response','value':'be careful'}" ++ newline;
           dq "{'type':'response','value':true}" ++ newline]))
  = Some (map JStr ["progress"; "question"; "progress"; "approval"; "progress";
                    "partial"; "partial"; "partial"; "result"]).
Proof. reflexivity. Qed.

(** An empty prompt between two prompts: the sessions are numbered 1 and 2,
    and the error in between has no session. *)
Example sessions_around_an_empty_prompt :
  option_map (fun s => map (fun m => (msg_type m, msg_field m "session")) (stdout s))
    (run literal_repr literal_truth mock_options idle_env
       (init_state ["first" ++ newline; dq "{'prompt': ''}" ++ newline;
                    "second" ++ newline]))
  = Some [(JStr "result", Some (JInt 1)); (JStr "error", None);
          (JStr "result", Some (JInt 2))].
Proof. reflexivity. Qed.

(** Lines outside the model: one that is nested too deeply, one with an
    integer of too many digits, one with an escape above code point 255;
    and a plain prompt, which is a line of the model. *)
Example lines_outside_the_model :
  within_parser_limits (String.concat EmptyString (repeat "[" 101)) = false
  /\ within_parser_limits (String.concat EmptyString (repeat "7" 641)) = false
  /\ within_parser_limits (dq "{'type':'response','value':'yes\u3000'}") = true
  /\ line_in_model (dq "{'type':'response','value':'yes\u3000'}") = false
  /\ line_in_model (dq "{'type':'response','value':'caf\u00e9'}" ++ newline) = true
  /\ line_in_model ("please delete the cache" ++ newline) = true.
Proof. repeat split; vm_compute; reflexivity. Qed.

(** The agent of the default options is given the prompt as an argument
    and inherits the standard input of the host; the mock, and an agent
    that is given the prompt on its standard input, have their own. *)
Example agents_and_standard_input :
  agent_has_own_stdin default_options = false
  /\ agent_has_own_stdin mock_options = true
  /\ agent_has_own_stdin
       {| mode := "stream"; interactive := true; mock := false; verbose := false;
          claude_command := "claude"; claude_args := ["--print"];
          prompt_mode := "stdin"; timeout_secs := 600; response_timeout_secs := 30;
          history_turns := 3; max_partials := 32; carry_history := true |} = true
  /\ agent_has_own_stdin
       {| mode := "stream"; interactive := true; mock := false; verbose := false;
          claude_command := "claude"; claude_args := ["--print"; "{prompt}"];
          prompt_mode := "stdin"; timeout_secs := 600; response_timeout_secs := 30;
          history_turns := 3; max_partials := 32; carry_history := true |} = false.
Proof. repeat split. Qed.

(** ** Texts *)

Lemma length_append (a b : string) :
  String.length (a ++ b) = String.length a + String.length b.
Proof.
  induction a as [|c a IH]; simpl; [reflexivity | now rewrite IH].
Qed.

Lemma length_take (n : nat) (s : string) : String.length (take n s) <= n.
Proof.
  revert s; induction n as [|n IH]; intros [|c s]; simpl; try lia.
  specialize (IH s); lia.
Qed.

Lemma take_all (n : nat) (s : string) : String.length s <= n -> take n s = s.
Proof.
  revert s; induction n as [|n IH]; intros [|c s]; simpl; intros H;
    try reflexivity; try lia.
  f_equal; apply IH; lia.
Qed.

Lemma truthy_not_empty (s : string) : truthy s = true <-> s <> EmptyString.
Proof.
  destruct s; simpl; split; intros H; try reflexivity; try discriminate;
    try congruence.
Qed.

Lemma summarize_bound (text : string) (limit : Z) :
  (3 <= limit)%Z -> (Z.of_nat (String.length (summarize text limit)) <= limit)%Z.
Proof.
  intros Hl. unfold summarize.
  destruct (Z.leb_spec (Z.of_nat (String.length (strip (replace newline " " text)))) limit)
    as [H|H]; [exact H|].
  rewrite length_append. simpl.
  pose proof (length_take (Z.to_nat (Z.max 0 (limit - 3)))
                (strip (replace newline " " text))).
  lia.
Qed.

(** ** Compaction *)

Lemma last_value_snoc (c : list string) (v : string) : last_value (c ++ [v]) = Some v.
Proof.
  induction c as [|a c IH]; simpl; [reflexivity|].
  rewrite IH. destruct (c ++ [v])%list eqn:E; [destruct c; discriminate | reflexivity].
Qed.

Lemma no_adjacent_dup_snoc (c : list string) (v : string) :
  no_adjacent_dup c -> last_value c <> Some v -> no_adjacent_dup (c ++ [v]).
Proof.
  induction c as [|a c IH]; simpl; intros Hc Hl; [exact I|].
  destruct c as [|b c]; simpl in *.
  - split; [congruence | exact I].
  - destruct Hc as [Hab Hc]. split; [exact Hab|]. apply IH; assumption.
Qed.

Lemma compact_into_no_adjacent_dup (values compact : list string) :
  no_adjacent_dup compact -> no_adjacent_dup (compact_into compact values).
Proof.
  revert compact; induction values as [|v values IH]; intros compact Hc; simpl;
    [exact Hc|].
  destruct (is_empty v); [now apply IH|].
  destruct (last_value compact) as [l|] eqn:El.
  - destruct (String.eqb_spec l v) as [->|Hne]; [now apply IH|].
    apply IH, no_adjacent_dup_snoc; [exact Hc | congruence].
  - apply IH, no_adjacent_dup_snoc; [exact Hc | congruence].
Qed.

Lemma compact_into_app (xs ys compact : list string) :
  compact_into compact (xs ++ ys) = compact_into (compact_into compact xs) ys.
Proof.
  revert compact; induction xs as [|x xs IH]; intros compact; simpl; [reflexivity|].
  destruct (is_empty x); [apply IH|].
  destruct (last_value compact) as [l|]; [destruct (String.eqb l x)|]; apply IH.
Qed.

Lemma compact_into_thrice (m : string) (compact : list string) :
  compact_into compact [m; m; m] = compact_into compact [m].
Proof.
  simpl. destruct (is_empty m) eqn:Em; [reflexivity|].
  destruct (last_value compact) as [l|] eqn:El.
  - destruct (String.eqb l m) eqn:E; [reflexivity|].
    rewrite last_value_snoc, String.eqb_refl. reflexivity.
  - rewrite last_value_snoc, String.eqb_refl. reflexivity.
Qed.

Lemma compact_values_no_adjacent_dup (values : list string) :
  no_adjacent_dup (compact_values values).
Proof. apply compact_into_no_adjacent_dup. exact I. Qed.

(** ** Text extraction *)

Lemma extract_text_dict (fields : fields_t) :
  extract_text (JDict fields)
  = match first_text (text_of_key fields) ["text"; "completion"; "delta"; "output"] with
    | Some extracted => Some extracted
    | None =>
        if truthy_opt (text_of_key fields "message") then text_of_key fields "message"
        else if truthy_opt (text_of_key fields "content") then text_of_key fields "content"
        else None
    end.
Proof.
  assert (Hk : forall key d,
             (fix of_key (key : string) (d : fields_t) {struct d} : option string :=
                match d with
                | [] => None
                | (k, v) :: r => if String.eqb key k then extract_text v else of_key key r
                end) key d = text_of_key d key).
  { intros key d. induction d as [|[k v] d IH]; [reflexivity|].
    unfold text_of_key, get in *. simpl lookup.
    destruct (String.eqb key k); [reflexivity | exact IH]. }
  simpl. rewrite !Hk. reflexivity.
Qed.

Lemma nonempty_text_truthy (o : option string) :
  nonempty_text o = if truthy_opt o then o else None.
Proof. destruct o as [s|]; simpl; [destruct (truthy s)|]; reflexivity. Qed.

Lemma extract_text_nonempty (v : json) (t : string) :
  extract_text v = Some t -> t <> EmptyString.
Proof.
  revert t. induction v using json_induction; intros t; try discriminate.
  - simpl. destruct (truthy (strip s)) eqn:E; [|discriminate].
    intros [= <-]. now apply truthy_not_empty.
  - simpl.
    set (f := fun item : json =>
                if truthy_opt (extract_text item)
                then match extract_text item with Some e => [e] | None => [] end
                else []).
    assert (Hparts : Forall (fun p => p <> EmptyString) (flat_map f items)).
    { induction H as [|x l Hx Hl IH]; simpl; [constructor|].
      apply Forall_app; split; [|exact IH].
      unfold f. destruct (extract_text x) as [e|] eqn:Ex; simpl; [|constructor].
      destruct (truthy e) eqn:Et; constructor; [|constructor].
      now apply truthy_not_empty. }
    destruct (flat_map f items) as [|p parts] eqn:Ep; [discriminate|].
    intros [= <-]. inversion Hparts as [|? ? Hp Hrest]; subst.
    unfold join. simpl. destruct parts; [exact Hp|].
    destruct p; [congruence | discriminate].
  - rewrite extract_text_dict.
    assert (Hkey : forall key u, text_of_key fields key = Some u -> u <> EmptyString).
    { intros key u. unfold text_of_key, get.
      induction H as [|[k w] l Hw Hl IH]; simpl; [discriminate|].
      destruct (String.eqb key k); [apply Hw | apply IH]. }
    assert (Hfirst : forall keys u,
               first_text (text_of_key fields) keys = Some u -> u <> EmptyString).
    { induction keys as [|key keys IH]; simpl; intros u; [discriminate|].
      destruct (truthy_opt (text_of_key fields key)); [apply Hkey | apply IH]. }
    destruct (first_text (text_of_key fields) _) as [e|] eqn:E.
    + intros [= <-]. eapply Hfirst; eassumption.
    + destruct (truthy_opt (text_of_key fields "message")); [apply Hkey|].
      destruct (truthy_opt (text_of_key fields "content")); [apply Hkey | discriminate].
Qed.

Lemma collect_lines_thrice (fr : string -> string) (ft : string -> bool)
      (line : string) (parsed : fields_t) :
  try_parse_json line = JDict parsed ->
  truthy_opt (extract_text (JDict parsed)) = false ->
  collect_lines fr ft [line; line; line] [] []
  = ([], let marker := "claude:" ++ py_str fr (event_name ft parsed) in
         [marker; marker; marker]).
Proof.
  intros Hp Ht. cbn [collect_lines]. rewrite Hp, Ht. reflexivity.
Qed.

(** C8.  For every raw agent output, the partials and the event markers
    that [parse_claude_output] returns have no two equal neighbours.
    Compaction makes one entry of three equal neighbours, wherever they
    stand in a list; three identical structured event lines (lines that
    parse to an object without text) give exactly one event marker, as
    does the output made of the line of a [ping] event written three
    times. *)
Theorem C8_compaction_no_adjacent_duplicates :
  (forall (fr : string -> string) (ft : string -> bool) (output : string),
      let '(_, partials, event_markers) := parse_claude_output fr ft output in
      no_adjacent_dup partials /\ no_adjacent_dup event_markers)
  /\ (forall (xs ys : list string) (m : string),
         compact_values (xs ++ [m; m; m] ++ ys) = compact_values (xs ++ [m] ++ ys))
  /\ (forall (fr : string -> string) (ft : string -> bool) (line : string)
             (parsed : fields_t),
         try_parse_json line = JDict parsed ->
         truthy_opt (extract_text (JDict parsed)) = false ->
         compact_values (snd (collect_lines fr ft [line; line; line] [] []))
         = ["claude:" ++ py_str fr (event_name ft parsed)])
  /\ (forall (fr : string -> string) (ft : string -> bool),
         let line := dq "{'type':'ping'}" in
         snd (parse_claude_output fr ft (join newline [line; line; line]))
         = ["claude:ping"]).
Proof.
  split; [|split; [|split]].
  - intros fr ft output. unfold parse_claude_output.
    destruct (collect_lines fr ft _ [] []) as [partials event_markers].
    split; apply compact_values_no_adjacent_dup.
  - intros xs ys m. unfold compact_values.
    rewrite !compact_into_app.
    now rewrite (compact_into_thrice m).
  - intros fr ft line parsed Hp Ht.
    rewrite (collect_lines_thrice fr ft line parsed Hp Ht). cbn [snd].
    unfold compact_values. rewrite (compact_into_thrice _ []).
    reflexivity.
  - intros fr ft. reflexivity.
Qed.

Lemma C8_compaction_witness :
  compact_values
    (snd (collect_lines (fun lit => lit) (fun _ => true)
            [dq "{'event':'tool_use'}"; dq "{'event':'tool_use'}"; dq "{'event':'tool_use'}"]
            [] []))
  = ["claude:tool_use"].
Proof.
  exact (proj1 (proj2 (proj2 C8_compaction_no_adjacent_duplicates))
           (fun lit => lit) (fun _ => true) (dq "{'event':'tool_use'}")
           [("event", JStr "tool_use")] eq_refl eq_refl).
Defined.

Lemma flat_map_nonempty_text (items : list json) :
  flat_map (fun item =>
              if truthy_opt (extract_text item)
              then match extract_text item with Some e => [e] | None => [] end
              else []) items
  = flat_map (fun item =>
                match nonempty_text (extract_text item) with
                | Some t => [t]
                | None => []
                end) items.
Proof.
  induction items as [|x items IH]; simpl; [reflexivity|].
  rewrite IH. f_equal.
  destruct (extract_text x) as [e|]; simpl; [destruct (truthy e)|]; reflexivity.
Qed.

(** C9.  Text extraction on an object takes the candidates
    [extract_text(value.get(key))] for the keys text, completion, delta,
    output, message, content in this order and returns the first that is a
    non-empty text, and none when there is no such candidate.  On a list it
    extracts every element, keeps the non-empty texts and joins them with a
    newline, and yields none when no element gives a text.  A string gives
    itself trimmed when that is not empty, any other value gives none, and
    a text that is returned is never empty. *)
Theorem C9_extract_text_rule :
  (forall fields : fields_t,
      extract_text (JDict fields)
      = first_nonempty (map (fun key => extract_text (get fields key)) object_text_keys))
  /\ (forall items : list json,
         extract_text (JList items)
         = match flat_map (fun item =>
                             match nonempty_text (extract_text item) with
                             | Some t => [t]
                             | None => []
                             end) items with
           | [] => None
           | parts => Some (join newline parts)
           end)
  /\ (forall s : string, extract_text (JStr s) = nonempty_text (Some (strip s)))
  /\ (forall (b : bool) (z : Z) (lit : string),
         extract_text JNull = None /\ extract_text (JBool b) = None
         /\ extract_text (JInt z) = None /\ extract_text (JFloat lit) = None)
  /\ (forall (v : json) (t : string), extract_text v = Some t -> t <> EmptyString).
Proof.
  split; [|split; [|split; [|split]]].
  - intros fields. rewrite extract_text_dict.
    unfold object_text_keys, text_of_key. cbn [map first_text first_nonempty].
    rewrite !nonempty_text_truthy.
    repeat match goal with
           | |- context [truthy_opt ?o] => destruct (truthy_opt o) eqn:?
           end;
      try reflexivity;
      repeat match goal with
             | |- context [match ?o with Some _ => _ | None => _ end] =>
                 destruct o eqn:?; try discriminate
             end; reflexivity.
  - intros items. rewrite <- flat_map_nonempty_text. cbn [extract_text].
    destruct (flat_map _ items); reflexivity.
  - intros s. reflexivity.
  - intros b z lit. repeat split.
  - exact extract_text_nonempty.
Qed.

Lemma C9_extract_text_witness :
  "done" <> EmptyString.
Proof.
  exact (proj2 (proj2 (proj2 (proj2 C9_extract_text_rule)))
           (JDict [("text", JStr "  "); ("message", JDict [("content", JList [JStr " done "])])])
           "done" eq_refl).
Defined.

(** ** Reasoning about computations *)

Lemma total_ret {A : Type} (a : A) : total (ret a).
Proof. intros s. now exists a. Qed.

Lemma total_gets {A : Type} (f : State -> A) : total (gets f).
Proof. intros s. now exists (f s). Qed.

Lemma total_modify (f : State -> State) : total (modify f).
Proof. intros s. now exists tt. Qed.

Lemma total_bind {A B : Type} (m : M A) (k : A -> M B) :
  total m -> (forall a, total (k a)) -> total (bind m k).
Proof.
  intros Hm Hk s. unfold bind.
  destruct (Hm s) as [a Ha]. destruct (m s) as [s1 r]. simpl in Ha. subst r.
  apply Hk.
Qed.

Lemma total_when (b : bool) (m : M unit) : total m -> total (when b m).
Proof. intros Hm. destruct b; [exact Hm | apply total_ret]. Qed.

Lemma total_try_except {A : Type} (m : M A) (handler : string -> M A) :
  (forall exc, total (handler exc)) -> total (try_except m handler).
Proof.
  intros Hh s. unfold try_except. destruct (m s) as [s1 [a|exc]]; [now exists a|].
  apply Hh.
Qed.

(** A computation that never raises hands a value and a state to what
    follows it. *)
Lemma bind_total {A B : Type} (R : State -> State -> Prop) (m : M A) (k : A -> M B) :
  total m -> pres R m ->
  forall s, exists s1 a, R s s1 /\ m s = (s1, inl a) /\ bind m k s = k a s1.
Proof.
  intros Ht Hp s. unfold bind. specialize (Ht s). specialize (Hp s).
  destruct (m s) as [s1 r]. destruct Ht as [a Ha]. simpl in *. subst r.
  now exists s1, a.
Qed.

Section Preservation.

Variable R : State -> State -> Prop.
Hypothesis R_refl : forall s, R s s.
Hypothesis R_trans : forall a b c, R a b -> R b c -> R a c.

Lemma pres_ret {A : Type} (a : A) : pres R (ret a).
Proof. intros s. apply R_refl. Qed.

Lemma pres_raise {A : Type} (exc : string) : pres R (@raise A exc).
Proof. intros s. apply R_refl. Qed.

Lemma pres_gets {A : Type} (f : State -> A) : pres R (gets f).
Proof. intros s. apply R_refl. Qed.

Lemma pres_bind {A B : Type} (m : M A) (k : A -> M B) :
  pres R m -> (forall a, pres R (k a)) -> pres R (bind m k).
Proof.
  intros Hm Hk s. unfold bind. specialize (Hm s).
  destruct (m s) as [s1 [a|exc]]; simpl in *; [|exact Hm].
  eapply R_trans; [exact Hm | apply Hk].
Qed.

Lemma pres_when (b : bool) (m : M unit) : pres R m -> pres R (when b m).
Proof. intros Hm. destruct b; [exact Hm | apply pres_ret]. Qed.

Lemma pres_try_except {A : Type} (m : M A) (handler : string -> M A) :
  pres R m -> (forall exc, pres R (handler exc)) -> pres R (try_except m handler).
Proof.
  intros Hm Hh s. unfold try_except. specialize (Hm s).
  destruct (m s) as [s1 [a|exc]]; simpl in *; [exact Hm|].
  eapply R_trans; [exact Hm | apply Hh].
Qed.

(** *** The steps that touch the state *)

Hypothesis R_stderr : forall s l, R s (set_stderr l s).
Hypothesis R_tick : forall s, R s (tick s).
Hypothesis R_stdin : forall s line rest, stdin s = line :: rest -> R s (set_stdin rest s).

(** The message types [R] lets a computation write. *)
Variable allowed : string -> Prop.
Hypothesis R_emit :
  forall s t payload,
    allowed t -> R s (set_stdout (stdout s ++ [JDict (("type", JStr t) :: payload)]) s).

Variable fr : string -> string.
Variable ft : string -> bool.
Variable opts : HostOptions.
Variable env : Env.

Lemma pres_log (message : string) : pres R (log opts message).
Proof.
  unfold log. destruct (verbose opts); [|apply pres_ret].
  intros s. apply R_stderr.
Qed.

Lemma pres_emit (t : string) (payload : fields_t) : allowed t -> pres R (emit t payload).
Proof. intros Ht s. now apply R_emit. Qed.

Lemma pres_time : pres R (time env).
Proof. intros s. apply R_tick. Qed.

Lemma pres_select_stdin (t : Z) : pres R (select_stdin env t).
Proof. intros s. apply R_tick. Qed.

Lemma pres_run_subprocess argv payload (t : Z) : pres R (run_subprocess env argv payload t).
Proof. intros s. apply R_tick. Qed.

Lemma pres_readline : pres R readline.
Proof.
  intros s. unfold readline. destruct (stdin s) eqn:E; simpl;
    [apply R_refl | eapply R_stdin; eassumption].
Qed.

Ltac pres_step :=
  first
    [ apply pres_ret | apply pres_raise | apply pres_gets | apply pres_log
    | apply pres_time | apply pres_select_stdin | apply pres_run_subprocess
    | apply pres_readline
    | apply pres_emit; assumption
    | apply pres_when
    | apply pres_bind; [|intros ?]
    | match goal with
      | |- pres _ (if ?b then _ else _) => destruct b
      | |- pres _ (match ?x with _ => _ end) => destruct x
      end ].

Lemma pres_read_line_with_timeout (t : Z) : pres R (read_line_with_timeout env t).
Proof. unfold read_line_with_timeout. repeat pres_step. Qed.

Lemma pres_read_response (default : string) : pres R (read_response fr opts env default).
Proof.
  unfold read_response.
  apply pres_bind; [apply pres_read_line_with_timeout|].
  intros [line|]; repeat pres_step.
Qed.

Lemma pres_request_question (question context : string) (options : list string) :
  allowed "question" -> pres R (request_question fr opts env question context options).
Proof.
  intros Hq. unfold request_question.
  repeat (first [apply pres_read_response | pres_step]).
Qed.

Lemma pres_request_approval (description risk_level : string) :
  allowed "approval" -> pres R (request_approval fr opts env description risk_level).
Proof.
  intros Hq. unfold request_approval.
  repeat (first [apply pres_read_response | pres_step]).
Qed.

Lemma pres_emit_markers (session : Z) (event_markers : list string) :
  allowed "progress" -> pres R (emit_markers session event_markers).
Proof.
  intros Hp. induction event_markers as [|marker rest IH]; simpl;
    [apply pres_ret|].
  apply pres_bind; [now apply pres_emit | intros _; exact IH].
Qed.

Lemma pres_emit_partials (session sent : Z) (partials : list string) :
  allowed "partial" -> pres R (emit_partials opts session sent partials).
Proof.
  intros Hp. revert sent; induction partials as [|chunk rest IH]; intros sent; simpl;
    [apply pres_ret|].
  destruct (Z.max 0 (max_partials opts) <=? sent)%Z; [apply pres_ret|].
  destruct (is_empty chunk); [apply IH|].
  apply pres_bind; [now apply pres_emit | intros _; apply IH].
Qed.

Lemma pres_invoke_claude (prompt : string) : pres R (invoke_claude fr opts env prompt).
Proof. unfold invoke_claude. repeat pres_step. Qed.

(** *** The session, for a relation that every step of it keeps *)

Hypothesis allowed_all : forall t, allowed t.
Hypothesis R_record :
  forall s prompt result, R s (set_history (record opts (history s) prompt result) s).
Hypothesis R_counter : forall s n, R s (set_session_counter n s).

Lemma pres_record_history (prompt result : string) :
  pres R (record_history opts prompt result).
Proof. intros s. apply R_record. Qed.

Ltac session_step :=
  first
    [ apply pres_request_question; apply allowed_all
    | apply pres_request_approval; apply allowed_all
    | apply pres_emit_markers; apply allowed_all
    | apply pres_emit_partials; apply allowed_all
    | apply pres_invoke_claude
    | apply pres_record_history
    | apply pres_emit; apply allowed_all
    | pres_step ].

Lemma pres_session_gate (session : Z) (prompt : string) :
  pres R (session_gate fr opts env session prompt).
Proof. unfold session_gate. repeat session_step. Qed.

Lemma pres_session_body (session : Z) (prompt : string) (context : json)
      (started_at : Z) (note : string) :
  pres R (session_body fr ft opts env session prompt context started_at note).
Proof. unfold session_body. repeat session_step. Qed.

Lemma pres_process_prompt (session : Z) (prompt : string) (context : json)
      (started_at : Z) :
  pres R (process_prompt fr ft opts env session prompt context started_at).
Proof.
  unfold process_prompt.
  apply pres_bind; [apply pres_session_gate|].
  intros [note|]; [apply pres_session_body | apply pres_ret].
Qed.

Lemma pres_run_line (raw_line : string) : pres R (run_line fr ft opts env raw_line).
Proof.
  unfold run_line.
  destruct (is_empty (strip raw_line)); [apply pres_ret|].
  destruct (is_response _); [apply pres_log|].
  destruct (parse_prompt_input fr _ _) as [prompt context].
  destruct (is_empty prompt); [apply pres_emit, allowed_all|].
  apply pres_bind; [intros s; apply R_counter|]. intros _.
  apply pres_bind; [apply pres_gets|]. intros session.
  apply pres_bind; [apply pres_time|]. intros started.
  apply pres_try_except; [apply pres_process_prompt|].
  intros exc. apply pres_emit, allowed_all.
Qed.

End Preservation.

(** *** Computations that never raise *)

Section Totality.

Variable fr : string -> string.
Variable opts : HostOptions.
Variable env : Env.

Lemma total_log (message : string) : total (log opts message).
Proof. unfold log. destruct (verbose opts); [apply total_modify | apply total_ret]. Qed.

Lemma total_emit (t : string) (payload : fields_t) : total (emit t payload).
Proof. apply total_modify. Qed.

Lemma total_time : total (time env).
Proof. intros s. now eexists. Qed.

Lemma total_select_stdin (t : Z) : total (select_stdin env t).
Proof. intros s. now eexists. Qed.

Lemma total_readline : total readline.
Proof. intros s. unfold readline. destruct (stdin s); now eexists. Qed.

Ltac total_step :=
  first
    [ apply total_ret | apply total_gets | apply total_modify | apply total_log
    | apply total_emit | apply total_time | apply total_select_stdin
    | apply total_readline | apply total_when
    | apply total_bind; [|intros ?]
    | match goal with
      | |- total (if ?b then _ else _) => destruct b
      | |- total (match ?x with _ => _ end) => destruct x
      end ].

Lemma total_read_line_with_timeout (t : Z) : total (read_line_with_timeout env t).
Proof. unfold read_line_with_timeout. repeat total_step. Qed.

Lemma total_read_response (default : string) : total (read_response fr opts env default).
Proof.
  unfold read_response.
  apply total_bind; [apply total_read_line_with_timeout|].
  intros [line|]; repeat total_step.
Qed.

Lemma total_request_question (question context : string) (options : list string) :
  total (request_question fr opts env question context options).
Proof.
  unfold request_question. repeat (first [apply total_read_response | total_step]).
Qed.

Lemma total_request_approval (description risk_level : string) :
  total (request_approval fr opts env description risk_level).
Proof.
  unfold request_approval. repeat (first [apply total_read_response | total_step]).
Qed.

Lemma total_emit_markers (session : Z) (event_markers : list string) :
  total (emit_markers session event_markers).
Proof.
  induction event_markers as [|marker rest IH]; simpl; [apply total_ret|].
  apply total_bind; [apply total_emit | intros _; exact IH].
Qed.

Lemma total_emit_partials (session sent : Z) (partials : list string) :
  total (emit_partials opts session sent partials).
Proof.
  revert sent; induction partials as [|chunk rest IH]; intros sent; simpl;
    [apply total_ret|].
  destruct (Z.max 0 (max_partials opts) <=? sent)%Z; [apply total_ret|].
  destruct (is_empty chunk); [apply IH|].
  apply total_bind; [apply total_emit | intros _; apply IH].
Qed.

Lemma total_record_history (prompt result : string) :
  total (record_history opts prompt result).
Proof. apply total_modify. Qed.

Lemma total_session_gate (session : Z) (prompt : string) :
  total (session_gate fr opts env session prompt).
Proof.
  unfold session_gate.
  repeat (first [apply total_request_question | apply total_request_approval
                | total_step]).
Qed.

End Totality.

(** *** Quiet steps *)

Lemma quiet_refl (s : State) : quiet s s.
Proof.
  repeat split. exists []. split; [now rewrite app_nil_r | constructor].
Qed.

Lemma quiet_trans (a b c : State) : quiet a b -> quiet b c -> quiet a c.
Proof.
  intros (Hh1 & Hc1 & o1 & Ho1 & Hf1) (Hh2 & Hc2 & o2 & Ho2 & Hf2).
  repeat split; [congruence | congruence |].
  exists (o1 ++ o2)%list. split.
  - rewrite Ho2, Ho1. now rewrite app_assoc.
  - apply Forall_app. now split.
Qed.

Lemma quiet_same (s s' : State) :
  history s' = history s -> session_counter s' = session_counter s ->
  stdout s' = stdout s -> quiet s s'.
Proof.
  intros Hh Hc Ho. repeat split; try assumption.
  exists []. split; [now rewrite app_nil_r | constructor].
Qed.

Lemma quiet_stderr (s : State) (l : list string) : quiet s (set_stderr l s).
Proof. now apply quiet_same. Qed.

Lemma quiet_tick (s : State) : quiet s (tick s).
Proof. now apply quiet_same. Qed.

Lemma quiet_stdin (s : State) (line : string) (rest : list string) :
  stdin s = line :: rest -> quiet s (set_stdin rest s).
Proof. intros _. now apply quiet_same. Qed.

Lemma message_type (t : string) (payload : fields_t) :
  msg_type (JDict (("type", JStr t) :: payload)) = JStr t.
Proof. reflexivity. Qed.

Lemma quiet_emit (s : State) (t : string) (payload : fields_t) :
  not_terminal_type t ->
  quiet s (set_stdout (stdout s ++ [JDict (("type", JStr t) :: payload)]) s).
Proof.
  intros [Hr He]. repeat split. eexists. split; [reflexivity|].
  constructor; [|constructor].
  unfold is_terminal. rewrite message_type. simpl.
  apply String.eqb_neq in Hr, He. now rewrite Hr, He.
Qed.

Create HintDb quiet.
#[local] Hint Resolve quiet_refl quiet_trans quiet_stderr quiet_tick quiet_stdin quiet_emit
  : quiet.

Lemma not_terminal_progress : not_terminal_type "progress".
Proof. split; discriminate. Qed.
Lemma not_terminal_partial : not_terminal_type "partial".
Proof. split; discriminate. Qed.
Lemma not_terminal_question : not_terminal_type "question".
Proof. split; discriminate. Qed.
Lemma not_terminal_approval : not_terminal_type "approval".
Proof. split; discriminate. Qed.

#[local] Hint Resolve not_terminal_progress not_terminal_partial not_terminal_question
  not_terminal_approval : quiet.

Section QuietSteps.

Variable fr : string -> string.
Variable ft : string -> bool.
Variable opts : HostOptions.
Variable env : Env.

Lemma quiet_log_step (message : string) : pres quiet (log opts message).
Proof. eapply pres_log; eauto with quiet. Qed.

Lemma quiet_emit_step (t : string) (payload : fields_t) :
  not_terminal_type t -> pres quiet (emit t payload).
Proof. intros Ht. eapply pres_emit; eauto with quiet. Qed.

Lemma quiet_time : pres quiet (time env).
Proof. eapply pres_time; eauto with quiet. Qed.

Lemma quiet_request_question (question context : string) (options : list string) :
  pres quiet (request_question fr opts env question context options).
Proof. eapply pres_request_question; eauto with quiet. Qed.

Lemma quiet_request_approval (description risk_level : string) :
  pres quiet (request_approval fr opts env description risk_level).
Proof. eapply pres_request_approval; eauto with quiet. Qed.

Lemma quiet_emit_markers (session : Z) (event_markers : list string) :
  pres quiet (emit_markers session event_markers).
Proof. eapply pres_emit_markers; eauto with quiet. Qed.

Lemma quiet_emit_partials (session sent : Z) (partials : list string) :
  pres quiet (emit_partials opts session sent partials).
Proof. eapply pres_emit_partials; eauto with quiet. Qed.

Lemma quiet_invoke_claude (prompt : string) :
  pres quiet (invoke_claude fr opts env prompt).
Proof. eapply pres_invoke_claude; eauto with quiet. Qed.

End QuietSteps.

Lemma bind_gets {A B : Type} (f : State -> A) (k : A -> M B) (s : State) :
  bind (gets f) k s = k (f s) s.
Proof. reflexivity. Qed.

Lemma bind_modify {B : Type} (f : State -> State) (k : unit -> M B) (s : State) :
  bind (modify f) k s = k tt (f s).
Proof. reflexivity. Qed.

Lemma bind_pres {A B : Type} (R : State -> State -> Prop) (m : M A) (k : A -> M B) :
  pres R m ->
  forall s,
    (exists s1 a, R s s1 /\ m s = (s1, inl a) /\ bind m k s = k a s1)
    \/ (exists s1 exc, R s s1 /\ m s = (s1, inr exc) /\ bind m k s = (s1, inr exc)).
Proof.
  intros Hp s. unfold bind. specialize (Hp s).
  destruct (m s) as [s1 [a|exc]]; simpl in *; [left | right]; eexists; eexists; repeat split; assumption.
Qed.

Lemma when_log_spec (opts : HostOptions) (b : bool) (message : string) (s : State) :
  exists s', when b (log opts message) s = (s', inl tt)
             /\ stdout s' = stdout s /\ history s' = history s
             /\ session_counter s' = session_counter s /\ stdin s' = stdin s.
Proof.
  unfold when, log. destruct b; [destruct (verbose opts)|]; eexists; repeat split.
Qed.

Lemma terminal_count_app (a b : list json) :
  terminal_count (a ++ b) = terminal_count a + terminal_count b.
Proof. unfold terminal_count. now rewrite filter_app, length_app. Qed.

Lemma terminal_count_quiet (out : list json) :
  Forall (fun m => is_terminal m = false) out -> terminal_count out = 0.
Proof.
  induction 1 as [|m out Hm _ IH]; [reflexivity|].
  unfold terminal_count in *. simpl. now rewrite Hm.
Qed.

Lemma terminal_count_ends (s s' : State) :
  ends_terminal s s' -> terminal_count (stdout s') = terminal_count (stdout s) + 1.
Proof.
  intros (pre & t & Ho & Ht & Hf). rewrite Ho, !terminal_count_app.
  rewrite (terminal_count_quiet pre Hf).
  unfold terminal_count. simpl. now rewrite Ht.
Qed.

(** *** What a session writes and records *)

Section SessionSpecs.

Variable fr : string -> string.
Variable ft : string -> bool.
Variable opts : HostOptions.
Variable env : Env.

Lemma session_body_spec session prompt context started note s :
  match session_body fr ft opts env session prompt context started note s with
  | (s', inl _) =>
      exists s1 raw elapsed command,
        quiet s s1
        /\ stdout s' = (stdout s1 ++ [result_message session (fst (fst (parse_claude_output fr ft raw))) elapsed command])%list
        /\ history s' = record opts (history s) prompt (fst (fst (parse_claude_output fr ft raw)))
        /\ session_counter s' = session_counter s
        /\ (mock opts = true -> raw = mock_output fr (compose_prompt fr opts (history s) prompt context note))
  | (s', inr _) => quiet s s'
  end.
Proof.
  unfold session_body. rewrite bind_gets.
  match goal with
  | |- context [bind ?m ?k s] =>
      destruct (bind_total quiet m k) with (s := s) as (s1 & [] & Hq1 & _ & ->)
  end.
  { apply total_when, total_emit. }
  { apply (pres_when quiet quiet_refl), quiet_emit_step; auto with quiet. }
  match goal with
  | |- context [bind ?m ?k s1] =>
      destruct (bind_pres quiet m k) with (s := s1)
        as [(s2 & [[raw err] argv] & Hq2 & Hinv & ->) | (s2 & exc & Hq2 & _ & ->)]
  end.
  { apply quiet_invoke_claude. }
  2:{ eauto with quiet. }
  destruct (parse_claude_output fr ft raw) as [[text partials] markers] eqn:Eparse.
  match goal with
  | |- context [bind ?m ?k s2] =>
      destruct (bind_total quiet m k) with (s := s2) as (s3 & [] & Hq3 & _ & ->)
  end.
  { apply total_when, total_bind; [apply total_emit_markers|].
    intros _. apply total_emit_partials. }
  { apply (pres_when quiet quiet_refl), (pres_bind quiet quiet_trans).
    - apply quiet_emit_markers.
    - intros _. apply quiet_emit_partials. }
  unfold time, emit, record_history. unfold bind at 1. rewrite !bind_modify.
  match goal with
  | |- context [when ?b (log opts ?msg) ?X] =>
      destruct (when_log_spec opts b msg X) as (s' & -> & Ho & Hh & Hc & _)
  end.
  assert (Hq : quiet s s3) by eauto with quiet.
  exists (tick s3), raw. do 2 eexists.
  split; [eauto with quiet|].
  rewrite Ho, Hh, Hc. cbn [stdout history session_counter set_history set_stdout tick fst].
  destruct Hq as (Hh3 & Hc3 & _). rewrite Hh3, Hc3.
  rewrite Eparse. cbn [fst].
  split; [reflexivity|]. split; [reflexivity|]. split; [reflexivity|].
  intros Hmock. unfold invoke_claude in Hinv. rewrite Hmock in Hinv.
  unfold ret in Hinv. now injection Hinv as _ <- _ _.
Qed.

Lemma session_gate_spec session prompt s :
  match session_gate fr opts env session prompt s with
  | (s', inl (Some _)) => quiet s s'
  | (s', inl None) =>
      exists s1 msg,
        quiet s s1 /\ stdout s' = (stdout s1 ++ [msg])%list /\ is_terminal msg = true
        /\ history s' = history s /\ session_counter s' = session_counter s
  | (s', inr _) => False
  end.
Proof.
  unfold session_gate.
  match goal with
  | |- context [bind ?m ?k s] =>
      destruct (bind_total quiet m k) with (s := s) as (s1 & [] & Hq1 & _ & ->)
  end.
  { apply total_when, total_emit. }
  { apply (pres_when quiet quiet_refl), quiet_emit_step; auto with quiet. }
  match goal with
  | |- context [bind ?m ?k s1] =>
      destruct (bind_total quiet m k) with (s := s1) as (s2 & note & Hq2 & _ & ->)
  end.
  { destruct (is_stream opts && interactive opts); [|apply total_ret].
    apply total_bind; [apply total_request_question|]. intros note.
    apply total_bind; [apply total_when, total_emit|]. intros _. apply total_ret. }
  { destruct (is_stream opts && interactive opts); [|apply (pres_ret quiet quiet_refl)].
    apply (pres_bind quiet quiet_trans); [apply quiet_request_question|]. intros note.
    apply (pres_bind quiet quiet_trans);
      [apply (pres_when quiet quiet_refl), quiet_emit_step; auto with quiet|].
    intros _. apply (pres_ret quiet quiet_refl). }
  assert (Hq : quiet s s2) by eauto with quiet.
  destruct (is_stream opts && interactive opts && looks_high_risk prompt);
    [|exact Hq].
  match goal with
  | |- context [bind ?m ?k s2] =>
      destruct (bind_total quiet m k) with (s := s2) as (s3 & approved & Hq3 & _ & ->)
  end.
  { apply total_request_approval. }
  { apply quiet_request_approval. }
  assert (Hq' : quiet s s3) by eauto with quiet.
  destruct approved; cbn [negb]; [exact Hq'|].
  unfold emit. rewrite bind_modify. unfold ret.
  eexists s3, _. split; [exact Hq'|]. split; [reflexivity|].
  destruct Hq' as (Hh & Hc & _). now repeat split.
Qed.

Lemma quiet_then_terminal (s s1 s' : State) (t : json) :
  quiet s s1 -> stdout s' = (stdout s1 ++ [t])%list -> is_terminal t = true ->
  ends_terminal s s'.
Proof.
  intros (_ & _ & out & Ho & Hf) Hs Ht. exists out, t.
  split; [|now split]. rewrite Hs, Ho. now rewrite <- app_assoc.
Qed.

Lemma process_prompt_terminal session prompt context started s :
  match process_prompt fr ft opts env session prompt context started s with
  | (s', inl _) => ends_terminal s s'
  | (s', inr _) => quiet s s'
  end.
Proof.
  unfold process_prompt. unfold bind.
  pose proof (session_gate_spec session prompt s) as Hg.
  destruct (session_gate fr opts env session prompt s) as [s1 [[note|]|exc]];
    [| |contradiction].
  - pose proof (session_body_spec session prompt context started note s1) as Hb.
    destruct (session_body fr ft opts env session prompt context started note s1)
      as [s2 [[]|exc]].
    + destruct Hb as (s3 & raw & elapsed & command & Hq & Ho & _).
      eapply quiet_then_terminal; [|exact Ho|reflexivity]. eauto with quiet.
    + eauto with quiet.
  - destruct Hg as (s2 & msg & Hq & Ho & Ht & _).
    eapply quiet_then_terminal; eassumption.
Qed.

Lemma run_line_terminal raw_line s :
  strip raw_line <> EmptyString ->
  is_response (try_parse_json (strip raw_line)) = false ->
  ends_terminal s (exec (run_line fr ft opts env raw_line) s).
Proof.
  intros Hne Hresp. unfold exec, run_line.
  destruct (is_empty (strip raw_line)) eqn:Ee.
  { destruct (strip raw_line); [congruence | discriminate]. }
  rewrite Hresp.
  destruct (parse_prompt_input fr _ _) as [prompt context].
  destruct (is_empty prompt).
  { exists (@nil json). eexists. split; [reflexivity|]. split; [reflexivity|constructor]. }
  rewrite bind_modify, bind_gets. unfold time at 1. unfold bind at 1.
  unfold try_except.
  match goal with
  | |- context [process_prompt fr ft opts env ?n prompt context ?t ?X] =>
      pose proof (process_prompt_terminal n prompt context t X) as Hp;
      destruct (process_prompt fr ft opts env n prompt context t X) as [s1 [[]|exc]]
  end.
  - destruct Hp as (pre & t & Ho & Ht & Hf). exists pre, t. now repeat split.
  - unfold emit, modify. cbn [fst].
    destruct Hp as (_ & _ & out & Ho & Hf). cbn [stdout tick set_session_counter] in Ho.
    exists out. eexists. cbn [stdout set_stdout]. rewrite Ho, <- app_assoc.
    split; [reflexivity|]. now split.
Qed.
Lemma run_line_silent (raw_line : string) (s : State) :
  starts_exchange raw_line = false ->
  stdout (exec (run_line fr ft opts env raw_line) s) = stdout s.
Proof.
  unfold starts_exchange, exec, run_line. intros H.
  destruct (is_empty (strip raw_line)); [reflexivity|].
  destruct (is_response _); [|discriminate].
  unfold log. now destruct (verbose opts).
Qed.

Lemma run_loop_terminal_count (fuel : nat) (s s' : State) :
  run_loop fr ft opts env fuel s = Some s' ->
  terminal_count (stdout s')
  = terminal_count (stdout s)
    + length (filter starts_exchange (main_loop_lines fr ft opts env fuel s)).
Proof.
  revert s; induction fuel as [|fuel IH]; intros s; simpl; [discriminate|].
  destruct (stdin s) as [|raw_line rest] eqn:E.
  - intros [= <-]. simpl. lia.
  - intros Hrun. rewrite (IH _ Hrun). simpl.
    destruct (starts_exchange raw_line) eqn:Hs.
    + unfold starts_exchange in Hs. apply andb_prop in Hs. destruct Hs as [Hne Hresp].
      apply negb_true_iff in Hne, Hresp.
      assert (Hne' : strip raw_line <> EmptyString)
        by (intros Heq; rewrite Heq in Hne; discriminate).
      rewrite (terminal_count_ends _ _
                 (run_line_terminal raw_line (set_stdin rest s) Hne' Hresp)).
      simpl. lia.
    + now rewrite (run_line_silent raw_line (set_stdin rest s) Hs).
Qed.
End SessionSpecs.

(** ** The main loop, line by line *)

Lemma is_empty_false (s : string) : s <> EmptyString -> is_empty s = false.
Proof. destruct s; [congruence | reflexivity]. Qed.

Lemma is_empty_true (s : string) : is_empty s = true -> s = EmptyString.
Proof. destruct s; [reflexivity | discriminate]. Qed.

Lemma process_prompt_keeps_counter (fr : string -> string) (ft : string -> bool)
      (opts : HostOptions) (env : Env) (session : Z) (prompt : string) (context : json)
      (started : Z) :
  pres (fun s s' => session_counter s' = session_counter s)
    (process_prompt fr ft opts env session prompt context started).
Proof.
  apply pres_process_prompt with (allowed := fun _ => True);
    intros; try reflexivity; try exact I.
  congruence.
Qed.

(** A line that starts a session takes the next session number. *)
Lemma run_line_starts_session (fr : string -> string) (ft : string -> bool)
      (opts : HostOptions) (env : Env) (raw_line : string) (s : State) :
  strip raw_line <> EmptyString ->
  is_response (try_parse_json (strip raw_line)) = false ->
  fst (parse_prompt_input fr (strip raw_line) (try_parse_json (strip raw_line)))
  <> EmptyString ->
  session_counter (exec (run_line fr ft opts env raw_line) s) = (session_counter s + 1)%Z.
Proof.
  intros Hne Hresp Hprompt. unfold exec, run_line.
  rewrite (is_empty_false _ Hne), Hresp.
  destruct (parse_prompt_input fr _ _) as [prompt context]. cbn [fst] in Hprompt.
  rewrite (is_empty_false _ Hprompt).
  rewrite bind_modify, bind_gets. unfold time at 1. unfold bind at 1.
  unfold try_except.
  match goal with
  | |- context [process_prompt fr ft opts env ?n prompt context ?t ?X] =>
      pose proof (process_prompt_keeps_counter fr ft opts env n prompt context t X) as Hp;
      destruct (process_prompt fr ft opts env n prompt context t X) as [s1 [[]|exc]]
  end; cbn [fst] in *; [exact Hp|].
  unfold emit, modify. cbn [fst session_counter set_stdout]. exact Hp.
Qed.



(** ** The main loop as a whole *)

Lemma lastn_length {A : Type} (n : nat) (l : list A) :
  length (lastn n l) = Nat.min n (length l).
Proof. unfold lastn. rewrite length_skipn. lia. Qed.

Lemma lastn_snoc {A : Type} (n : nat) (l : list A) (x : A) :
  1 <= n ->
  exists dropped kept, l = (dropped ++ kept)%list /\ lastn n (l ++ [x]) = (kept ++ [x])%list.
Proof.
  intros Hn. unfold lastn. rewrite length_app. simpl.
  exists (firstn (length l + 1 - n) l), (skipn (length l + 1 - n) l).
  split; [now rewrite firstn_skipn|].
  rewrite skipn_app.
  replace (length l + 1 - n - length l) with 0 by lia. reflexivity.
Qed.

Lemma record_no_carry (opts : HostOptions) (hist : list HistoryEntry) (prompt result : string) :
  carry_history opts = false -> record opts hist prompt result = hist.
Proof. intros H. unfold record. now rewrite H. Qed.

Lemma record_length (opts : HostOptions) (hist : list HistoryEntry) (prompt result : string) :
  carry_history opts = true ->
  (Z.of_nat (length (record opts hist prompt result)) <= max_entries opts)%Z.
Proof.
  intros H. unfold record. rewrite H. cbn [negb].
  destruct (Z.ltb_spec (max_entries opts)
              (Z.of_nat (length (hist ++ [history_entry prompt result])))) as [Hlt|Hge].
  - rewrite lastn_length. unfold max_entries in *. lia.
  - exact Hge.
Qed.

Lemma record_within (opts : HostOptions) (hist : list HistoryEntry) (prompt result : string) :
  (Z.of_nat (length hist) <= max_entries opts ->
   Z.of_nat (length (record opts hist prompt result)) <= max_entries opts)%Z.
Proof.
  intros Hh. destruct (carry_history opts) eqn:E.
  - now apply record_length.
  - now rewrite record_no_carry.
Qed.

Lemma record_appends (opts : HostOptions) (hist : list HistoryEntry) (prompt result : string) :
  carry_history opts = true ->
  exists dropped kept,
    hist = (dropped ++ kept)%list
    /\ record opts hist prompt result = (kept ++ [history_entry prompt result])%list.
Proof.
  intros H. unfold record. rewrite H. cbn [negb].
  destruct (max_entries opts <? _)%Z.
  - apply lastn_snoc. unfold max_entries. lia.
  - now exists [], hist.
Qed.

Lemma record_appends_exact (opts : HostOptions) (hist : list HistoryEntry)
      (prompt result : string) :
  carry_history opts = true ->
  exists dropped kept,
    hist = (dropped ++ kept)%list
    /\ record opts hist prompt result = (kept ++ [history_entry prompt result])%list
    /\ length kept = Nat.min (length hist) (Z.to_nat (max_entries opts) - 1).
Proof.
  intros H. unfold record. rewrite H. cbn [negb].
  rewrite length_app. cbn [length].
  assert (Hn : 1 <= Z.to_nat (max_entries opts)) by (unfold max_entries; lia).
  destruct (Z.ltb_spec (max_entries opts) (Z.of_nat (length hist + 1))) as [Hlt|Hge].
  - exists (firstn (length hist + 1 - Z.to_nat (max_entries opts)) hist),
      (skipn (length hist + 1 - Z.to_nat (max_entries opts)) hist).
    split; [now rewrite firstn_skipn|]. split.
    + unfold lastn. rewrite length_app. cbn [length]. rewrite skipn_app.
      replace (length hist + 1 - Z.to_nat (max_entries opts) - length hist) with 0
        by lia.
      reflexivity.
    + rewrite length_skipn. lia.
  - exists [], hist. repeat split. lia.
Qed.

(** Outside the mock the agent has a standard input of its own exactly
    when [build_command] gives a payload for it. *)
Lemma own_stdin_payload (fr : string -> string) (opts : HostOptions) (prompt : string) :
  mock opts = false ->
  agent_has_own_stdin opts = true <-> snd (build_command fr opts prompt) <> None.
Proof.
  intros Hmock. unfold agent_has_own_stdin, build_command. rewrite Hmock. cbn [orb].
  destruct (existsb _ (claude_args opts)); cbn [negb andb snd].
  - split; [discriminate | congruence].
  - destruct (String.eqb (prompt_mode opts) "stdin"); cbn [orb snd].
    + split; [discriminate | reflexivity].
    + destruct (String.eqb (prompt_mode opts) "json-stdin"); cbn [snd];
        split; try discriminate; try reflexivity; congruence.
Qed.


Section RunLoop.

Variable fr : string -> string.
Variable ft : string -> bool.
Variable opts : HostOptions.
Variable env : Env.

Lemma run_line_stdin_shrinks (raw_line : string) :
  pres stdin_shrinks (run_line fr ft opts env raw_line).
Proof.
  apply pres_run_line with (allowed := fun _ => True); unfold stdin_shrinks;
    intros; cbn [stdin set_stderr tick set_stdin set_stdout set_history
                   set_session_counter];
    try lia; try exact I.
  match goal with H : stdin _ = _ |- _ => rewrite H end. simpl. lia.
Qed.

Lemma run_line_within_capacity (raw_line : string) :
  pres (within_capacity opts) (run_line fr ft opts env raw_line).
Proof.
  apply pres_run_line with (allowed := fun _ => True); unfold within_capacity;
    intros; cbn [history set_stderr tick set_stdin set_stdout set_history
                   set_session_counter] in *;
    auto; try exact I.
  now apply record_within.
Qed.

(** The loop reaches the end of the input when it is given more passes
    than there are lines. *)
Lemma run_loop_total (fuel : nat) (s : State) :
  length (stdin s) < fuel ->
  exists s', run_loop fr ft opts env fuel s = Some s' /\ stdin s' = [].
Proof.
  revert s; induction fuel as [|fuel IH]; intros s Hlen; [lia|].
  simpl. destruct (stdin s) as [|raw_line rest] eqn:E; [now exists s|].
  apply IH.
  pose proof (run_line_stdin_shrinks raw_line (set_stdin rest s)) as Hs.
  unfold stdin_shrinks in Hs. cbn [stdin set_stdin] in Hs.
  unfold exec. simpl in Hlen. lia.
Qed.

Lemma run_loop_within_capacity (fuel : nat) (s s' : State) :
  run_loop fr ft opts env fuel s = Some s' -> within_capacity opts s s'.
Proof.
  revert s; induction fuel as [|fuel IH]; intros s; simpl; [discriminate|].
  destruct (stdin s) as [|raw_line rest] eqn:E.
  - intros [= <-]. unfold within_capacity. tauto.
  - intros Hrun. specialize (IH _ Hrun).
    pose proof (run_line_within_capacity raw_line (set_stdin rest s)) as Hl.
    unfold within_capacity, exec in *. cbn [history set_stdin] in Hl. tauto.
Qed.

Lemma run_total (s : State) :
  exists s', run fr ft opts env s = Some s' /\ stdin s' = []
             /\ within_capacity opts s s'.
Proof.
  unfold run.
  set (s0 := exec (log opts _) s).
  assert (Hs0 : stdin s0 = stdin s /\ history s0 = history s).
  { unfold s0, exec, log. now destruct (verbose opts). }
  destruct (run_loop_total (S (length (stdin s0))) s0) as (s' & Hrun & Hend); [lia|].
  exists s'. split; [exact Hrun|]. split; [exact Hend|].
  pose proof (run_loop_within_capacity _ _ _ Hrun) as Hw.
  unfold within_capacity in *. destruct Hs0 as [_ Hh]. now rewrite Hh in Hw.
Qed.

End RunLoop.

(** C1 as the specification states it fails on a line such as
    [{"type":"response"}]: the line is not blank, the main loop reads it,
    and nothing is written for it, so it has no terminal message. *)
Lemma C1_stray_response_counterexample :
  let raw_line := dq "{'type':'response'}" ++ newline in
  strip raw_line <> EmptyString
  /\ stdout (exec (run_line literal_repr literal_truth mock_options idle_env raw_line)
               (init_state []))
     = []
  /\ option_map stdout
       (run literal_repr literal_truth mock_options idle_env (init_state [raw_line]))
     = Some []
  /\ ~ ends_terminal (init_state [])
         (exec (run_line literal_repr literal_truth mock_options idle_env raw_line)
            (init_state [])).
Proof.
  cbv zeta. split; [discriminate|]. split; [reflexivity|]. split; [reflexivity|].
  intros (pre & t & Ho & _). vm_compute in Ho.
  destruct pre; discriminate.
Qed.

(** C1, amended.  For every non-blank line read by the main loop that is
    within the limits of the parser and does not declare itself a response
    (it is not a JSON object whose [type] is [response]), the host writes
    exactly one terminal message for the line, a [result] or an [error],
    and it is the last message written for the line.  For such a line that
    declares itself a response nothing is written.  So, when the agent has
    a standard input of its own and every line of the input is a line of
    the model, the run reaches the end of its input, and the number of
    terminal messages it has written is the number of lines read by the
    main loop that are not blank and do not declare themselves
    responses. *)
Theorem C1_one_terminal_message_per_prompt_line :
  (forall (fr : string -> string) (ft : string -> bool) (opts : HostOptions) (env : Env)
          (raw_line : string) (s : State),
      strip raw_line <> EmptyString ->
      within_parser_limits raw_line = true ->
      is_response (try_parse_json (strip raw_line)) = false ->
      ends_terminal s (exec (run_line fr ft opts env raw_line) s))
  /\ (forall (fr : string -> string) (ft : string -> bool) (opts : HostOptions)
             (env : Env) (raw_line : string) (s : State),
         strip raw_line <> EmptyString ->
         within_parser_limits raw_line = true ->
         is_response (try_parse_json (strip raw_line)) = true ->
         stdout (exec (run_line fr ft opts env raw_line) s) = stdout s)
  /\ (forall (fr : string -> string) (ft : string -> bool) (opts : HostOptions)
             (env : Env) (input : list string),
         agent_has_own_stdin opts = true ->
         forallb line_in_model input = true ->
         exists s',
           run fr ft opts env (init_state input) = Some s'
           /\ terminal_count (stdout s')
              = length (filter starts_exchange
                          (main_loop_lines fr ft opts env (S (length input))
                             (run_start opts (init_state input))))).
Proof.
  split; [|split].
  - intros fr ft opts env raw_line s Hne _ Hresp. now apply run_line_terminal.
  - intros fr ft opts env raw_line s Hne _ Hresp.
    apply run_line_silent. unfold starts_exchange. rewrite Hresp.
    apply andb_false_r.
  - intros fr ft opts env input _ _.
    destruct (run_total fr ft opts env (init_state input)) as (s' & Hrun & _).
    exists s'. split; [exact Hrun|].
    unfold run in Hrun. fold (run_start opts (init_state input)) in Hrun.
    assert (H0 : stdin (run_start opts (init_state input)) = input
                 /\ stdout (run_start opts (init_state input)) = []).
    { unfold run_start, exec, log. now destruct (verbose opts). }
    destruct H0 as [Hin Hout]. rewrite Hin in Hrun.
    rewrite (run_loop_terminal_count fr ft opts env _ _ _ Hrun), Hout.
    reflexivity.
Qed.

Lemma C1_one_terminal_message_witness :
  ends_terminal (init_state [])
    (exec (run_line literal_repr literal_truth mock_interactive_options idle_env
             "please delete the cache")
       (init_state [])).
Proof.
  refine (proj1 C1_one_terminal_message_per_prompt_line literal_repr literal_truth
            mock_interactive_options idle_env "please delete the cache"
            (init_state []) _ eq_refl eq_refl).
  discriminate.
Defined.


Lemma fold_record_within (opts : HostOptions) (sessions : list (string * string))
      (hist : list HistoryEntry) :
  (Z.of_nat (length hist) <= max_entries opts ->
   Z.of_nat (length (fold_left (fun hist session =>
                                  record opts hist (fst session) (snd session))
                       sessions hist)) <= max_entries opts)%Z.
Proof.
  revert hist; induction sessions as [|session sessions IH]; intros hist Hh; simpl;
    [exact Hh|].
  apply IH. now apply record_within.
Qed.

(** C6.  After any sequence of appends to the history store, the number of
    entries is at most [max(1, history_turns * 2)]; so is it at the end of
    every run of the host, which reaches the end of its input; with
    [history_turns = 3] the number of entries is at most 6. *)
Theorem C6_history_never_exceeds_capacity :
  (forall (opts : HostOptions) (sessions : list (string * string)),
      (Z.of_nat (length (appends opts sessions)) <= Z.max 1 (history_turns opts * 2))%Z)
  /\ (forall (fr : string -> string) (ft : string -> bool) (opts : HostOptions)
             (env : Env) (input : list string),
         exists s',
           run fr ft opts env (init_state input) = Some s'
           /\ (Z.of_nat (length (history s')) <= Z.max 1 (history_turns opts * 2))%Z)
  /\ (forall (fr : string -> string) (ft : string -> bool) (opts : HostOptions)
             (env : Env) (input : list string) (sessions : list (string * string)),
         history_turns opts = 3%Z ->
         length (appends opts sessions) <= 6
         /\ exists s',
             run fr ft opts env (init_state input) = Some s'
             /\ length (history s') <= 6).
Proof.
  assert (Happ : forall opts sessions,
             (Z.of_nat (length (appends opts sessions)) <= max_entries opts)%Z).
  { intros opts sessions. apply fold_record_within. unfold max_entries. simpl. lia. }
  assert (Hrun : forall fr ft opts env input,
             exists s',
               run fr ft opts env (init_state input) = Some s'
               /\ (Z.of_nat (length (history s')) <= max_entries opts)%Z).
  { intros fr ft opts env input.
    destruct (run_total fr ft opts env (init_state input)) as (s' & Hr & _ & Hw).
    exists s'. split; [exact Hr|]. apply Hw. unfold max_entries. simpl. lia. }
  split; [exact Happ|]. split; [exact Hrun|].
  intros fr ft opts env input sessions Hturns. split.
  - specialize (Happ opts sessions). unfold max_entries in Happ.
    rewrite Hturns in Happ. lia.
  - destruct (Hrun fr ft opts env input) as (s' & Hr & Hb).
    exists s'. split; [exact Hr|]. unfold max_entries in Hb.
    rewrite Hturns in Hb. lia.
Qed.

Lemma C6_history_capacity_witness :
  length (appends mock_options [("a", "b"); ("c", "d")]) <= 6
  /\ exists s',
      run literal_repr literal_truth mock_options idle_env
        (init_state ["one"; "two"; "three"; "four"; "five"; "six"; "seven"; "eight"])
      = Some s'
      /\ length (history s') <= 6.
Proof.
  exact (proj2 (proj2 C6_history_never_exceeds_capacity) literal_repr literal_truth
           mock_options idle_env
           ["one"; "two"; "three"; "four"; "five"; "six"; "seven"; "eight"]
           [("a", "b"); ("c", "d")] eq_refl).
Defined.

(** ** The history store *)

Lemma summarize_cases (text : string) (limit : Z) :
  let flat := strip (replace newline " " text) in
  ((Z.of_nat (String.length flat) <= limit)%Z -> summarize text limit = flat)
  /\ ((limit < Z.of_nat (String.length flat))%Z ->
      summarize text limit = take (Z.to_nat (Z.max 0 (limit - 3))) flat ++ "...").
Proof.
  cbv zeta. unfold summarize.
  destruct (Z.leb_spec (Z.of_nat (String.length (strip (replace newline " " text)))) limit);
    split; intros; try reflexivity; lia.
Qed.

(** C3 as the specification states it fails when the agent cannot be run:
    with the default options and a command that does not exist, the session
    reaches the composition of the prompt ([session_body] starts with it),
    the invocation raises, and no entry is appended to the history; the
    run writes one [error] message and its history is empty at the end. *)
Lemma C3_failed_invocation_counterexample :
  carry_history default_options = true
  /\ session_body literal_repr literal_truth default_options idle_env 1 "fix the bug"
       JNull 0 EmptyString (init_state [])
     = (tick (init_state []), inr "Claude command not found: claude")
  /\ history (tick (init_state [])) = []
  /\ option_map (fun s => (history s, stdout s))
       (run literal_repr literal_truth default_options idle_env
          (init_state ["fix the bug" ++ newline]))
     = Some ([], [JDict [("type", JStr "error"); ("session", JInt 1);
                         ("message",
                          JStr "session failed: Claude command not found: claude")]]).
Proof. repeat split. Qed.

(** C3, amended.  With history carrying enabled, every session that
    reaches the composition stage and whose body then completes without
    raising, so that its [result] message is written, appends exactly one
    entry to the history store: the history afterwards is the new entry
    after the last entries of the history before, as many of them as there
    are or, if that is fewer, the capacity of the store less one.  The new
    entry holds the summaries of the original prompt and of the text of
    the [result] message, each of at most 300 characters, cut to 297
    characters and an ellipsis when the flattened text is longer than 300.
    This holds whatever the agent wrote as diagnostics.  A session whose
    body raises leaves the history as it was. *)
Theorem C3_history_entry_per_completed_session :
  (forall (fr : string -> string) (ft : string -> bool) (opts : HostOptions) (env : Env)
          (session : Z) (prompt : string) (context : json) (started : Z) (note : string)
          (s s' : State),
      carry_history opts = true ->
      session_body fr ft opts env session prompt context started note s = (s', inl tt) ->
      exists (text : string) (elapsed : Z) (command : string)
             (before : list json) (dropped kept : list HistoryEntry),
        stdout s' = (before ++ [result_message session text elapsed command])%list
        /\ history s = (dropped ++ kept)%list
        /\ length kept
           = Nat.min (length (history s)) (Z.to_nat (max_entries opts) - 1)
        /\ history s'
           = (kept ++ [{| prompt_summary := summarize prompt 300;
                          result_summary := summarize text 300 |}])%list
        /\ String.length (summarize prompt 300) <= 300
        /\ String.length (summarize text 300) <= 300)
  /\ (forall text : string,
         let flat := strip (replace newline " " text) in
         (String.length flat <= 300 -> summarize text 300 = flat)
         /\ (300 < String.length flat -> summarize text 300 = take 297 flat ++ "..."))
  /\ (forall (fr : string -> string) (ft : string -> bool) (opts : HostOptions) (env : Env)
             (session : Z) (prompt : string) (context : json) (started : Z)
             (note : string) (s s' : State) (exc : string),
         session_body fr ft opts env session prompt context started note s = (s', inr exc) ->
         history s' = history s).
Proof.
  split; [|split].
  - intros fr ft opts env session prompt context started note s s' Hcarry Hbody.
    pose proof (session_body_spec fr ft opts env session prompt context started note s)
      as Hspec.
    rewrite Hbody in Hspec.
    destruct Hspec as (s1 & raw & elapsed & command & _ & Ho & Hh & _).
    destruct (record_appends_exact opts (history s) prompt
                (fst (fst (parse_claude_output fr ft raw))) Hcarry)
      as (dropped & kept & Hsplit & Hrec & Hkept).
    exists (fst (fst (parse_claude_output fr ft raw))), elapsed, command,
      (stdout s1), dropped, kept.
    split; [exact Ho|]. split; [exact Hsplit|]. split; [exact Hkept|].
    split; [now rewrite Hh, Hrec|].
    split.
    + pose proof (summarize_bound prompt 300). lia.
    + pose proof (summarize_bound (fst (fst (parse_claude_output fr ft raw))) 300). lia.
  - intros text flat. destruct (summarize_cases text 300) as [Hle Hgt].
    split; intros H; [apply Hle | apply Hgt]; fold flat; lia.
  - intros fr ft opts env session prompt context started note s s' exc Hbody.
    pose proof (session_body_spec fr ft opts env session prompt context started note s)
      as Hspec.
    rewrite Hbody in Hspec. now destruct Hspec as (Hh & _).
Qed.

Lemma C3_history_entry_witness :
  let opts := default_options in
  let env := agent_env "All tests pass." "warning: deprecated flag" in
  let s := init_state [] in
  let s' := fst (session_body literal_repr literal_truth opts env 1 "fix the bug" JNull 0
                   EmptyString s) in
  exists (text : string) (elapsed : Z) (command : string)
         (before : list json) (dropped kept : list HistoryEntry),
    stdout s' = (before ++ [result_message 1 text elapsed command])%list
    /\ history s = (dropped ++ kept)%list
    /\ length kept = Nat.min (length (history s)) (Z.to_nat (max_entries opts) - 1)
    /\ history s'
       = (kept ++ [{| prompt_summary := summarize "fix the bug" 300;
                      result_summary := summarize text 300 |}])%list
    /\ String.length (summarize "fix the bug" 300) <= 300
    /\ String.length (summarize text 300) <= 300.
Proof.
  exact (proj1 C3_history_entry_per_completed_session literal_repr literal_truth
           default_options (agent_env "All tests pass." "warning: deprecated flag")
           1%Z "fix the bug" JNull 0%Z EmptyString (init_state [])
           (fst (session_body literal_repr literal_truth default_options
                   (agent_env "All tests pass." "warning: deprecated flag")
                   1 "fix the bug" JNull 0 EmptyString (init_state [])))
           eq_refl eq_refl).
Defined.

(** ** Mock runs *)

Section MockRuns.

Variable fr : string -> string.
Variable ft : string -> bool.
Variable opts : HostOptions.

Lemma total_session_body_mock (env : Env) (session : Z) (prompt : string) (context : json)
      (started : Z) (note : string) :
  mock opts = true ->
  total (session_body fr ft opts env session prompt context started note).
Proof.
  intros Hmock. unfold session_body.
  apply total_bind; [apply total_gets|]. intros hist.
  apply total_bind; [apply total_when, total_emit|]. intros _.
  apply total_bind.
  { unfold invoke_claude. rewrite Hmock. apply total_ret. }
  intros [[raw err] argv].
  destruct (parse_claude_output fr ft raw) as [[text partials] markers].
  apply total_bind.
  { apply total_when, total_bind; [apply total_emit_markers|].
    intros _. apply total_emit_partials. }
  intros _. apply total_bind; [apply total_time|]. intros now.
  apply total_bind; [apply total_emit|]. intros _.
  apply total_bind; [apply total_record_history|]. intros _.
  apply total_when, total_log.
Qed.

Lemma session_body_mock (env : Env) (session : Z) (prompt : string) (context : json)
      (started : Z) (note : string) (s : State) :
  mock opts = true ->
  exists s' before elapsed command,
    session_body fr ft opts env session prompt context started note s = (s', inl tt)
    /\ stdout s'
       = (before
          ++ [result_message session
                (mock_result_text fr ft opts (history s) prompt context note)
                elapsed command])%list.
Proof.
  intros Hmock.
  pose proof (session_body_spec fr ft opts env session prompt context started note s)
    as Hspec.
  destruct (total_session_body_mock env session prompt context started note Hmock s)
    as [[] Htotal].
  destruct (session_body fr ft opts env session prompt context started note s)
    as [s' r].
  cbn [snd] in Htotal. subst r.
  destruct Hspec as (s1 & raw & elapsed & command & _ & Ho & _ & _ & Hraw).
  exists s', (stdout s1), elapsed, command. split; [reflexivity|].
  rewrite Ho, (Hraw Hmock). reflexivity.
Qed.

Lemma compose_prompt_no_carry (hist : list HistoryEntry) (prompt : string) (context : json)
      (note : string) :
  carry_history opts = false ->
  compose_prompt fr opts hist prompt context note
  = compose_prompt fr opts [] prompt context note.
Proof. intros H. unfold compose_prompt. now rewrite H. Qed.

Lemma compose_prompt_fresh (prompt : string) :
  compose_prompt fr opts [] prompt JNull EmptyString = "Task:" ++ newline ++ prompt.
Proof.
  unfold compose_prompt. rewrite andb_false_r. reflexivity.
Qed.

End MockRuns.

(** C5 as the specification states it fails in two ways.  In one process
    with the default history carrying, the same prompt text sent twice
    gets two different result texts, because the second composed prompt
    starts with the history of the first session.  And two fresh processes
    that receive the same prompt text with different contexts give
    different result texts, because the context is part of the composed
    prompt that the mock summarizes. *)
Lemma C5_same_prompt_counterexample :
  option_map (fun s => texts (stdout s))
    (run literal_repr literal_truth mock_options idle_env
       (init_state ["hi" ++ newline; "hi" ++ newline]))
  = Some
      [Some (JStr ("Planning implementation for task: Task: hi" ++ mock_tail));
       Some (JStr ("Planning implementation for task: Recent middleware history:  "
                   ++ "1. Prompt: hi    Result: Planning implementation for task: "
                   ++ "Task: hi W..." ++ mock_tail))]
  /\ "Planning implementation for task: Task: hi" ++ mock_tail
     <> "Planning implementation for task: Recent middleware history:  "
        ++ "1. Prompt: hi    Result: Planning implementation for task: "
        ++ "Task: hi W..." ++ mock_tail
  /\ option_map (fun s => texts (stdout s))
       (run literal_repr literal_truth mock_options idle_env
          (init_state [dq "{'prompt':'hi','context':'alpha'}" ++ newline]))
     = Some [Some (JStr ("Planning implementation for task: Task: hi  "
                         ++ "Concerto context: alpha" ++ mock_tail))]
  /\ option_map (fun s => texts (stdout s))
       (run literal_repr literal_truth mock_options idle_env
          (init_state [dq "{'prompt':'hi','context':'beta'}" ++ newline]))
     = Some [Some (JStr ("Planning implementation for task: Task: hi  "
                         ++ "Concerto context: beta" ++ mock_tail))]
  /\ "Planning implementation for task: Task: hi  Concerto context: alpha" ++ mock_tail
     <> "Planning implementation for task: Task: hi  Concerto context: beta" ++ mock_tail.
Proof.
  split; [reflexivity|]. split; [discriminate|]. split; [reflexivity|].
  split; [reflexivity | discriminate].
Qed.

(** C5, amended.  In mock mode the text of the [result] message is a
    function of the composed prompt.  Two mock sessions with the same prompt
    text, the same context and the same supervisor guidance, run by hosts
    that carry the same history (as two fresh hosts do) or that do not carry
    history, complete and write [result] messages with the same text,
    whatever their session numbers, clocks and environments. *)
Theorem C5_mock_result_text_deterministic :
  forall (fr : string -> string) (ft : string -> bool) (opts : HostOptions)
         (env1 env2 : Env) (session1 session2 started1 started2 : Z)
         (prompt : string) (context : json) (note : string) (s1 s2 : State),
    mock opts = true ->
    carry_history opts = false \/ history s1 = history s2 ->
    exists (text : string) (s1' s2' : State) (before1 before2 : list json)
           (elapsed1 elapsed2 : Z) (command1 command2 : string),
      session_body fr ft opts env1 session1 prompt context started1 note s1 = (s1', inl tt)
      /\ session_body fr ft opts env2 session2 prompt context started2 note s2
         = (s2', inl tt)
      /\ stdout s1' = (before1 ++ [result_message session1 text elapsed1 command1])%list
      /\ stdout s2' = (before2 ++ [result_message session2 text elapsed2 command2])%list
      /\ text = mock_result_text fr ft opts (history s1) prompt context note.
Proof.
  intros fr ft opts env1 env2 session1 session2 started1 started2 prompt context note
    s1 s2 Hmock Hsame.
  destruct (session_body_mock fr ft opts env1 session1 prompt context started1 note s1 Hmock)
    as (s1' & before1 & elapsed1 & command1 & Hb1 & Ho1).
  destruct (session_body_mock fr ft opts env2 session2 prompt context started2 note s2 Hmock)
    as (s2' & before2 & elapsed2 & command2 & Hb2 & Ho2).
  exists (mock_result_text fr ft opts (history s1) prompt context note),
    s1', s2', before1, before2, elapsed1, elapsed2, command1, command2.
  repeat (split; [assumption|]). split; [|reflexivity].
  rewrite Ho2. unfold mock_result_text.
  destruct Hsame as [Hcarry | Hhist].
  - now rewrite (compose_prompt_no_carry fr opts (history s1) _ _ _ Hcarry),
      (compose_prompt_no_carry fr opts (history s2) _ _ _ Hcarry).
  - now rewrite Hhist.
Qed.

Lemma C5_mock_result_text_witness :
  exists (text : string) (s1' s2' : State) (before1 before2 : list json)
         (elapsed1 elapsed2 : Z) (command1 command2 : string),
    session_body literal_repr literal_truth mock_options idle_env 1 "hi" JNull 0
      EmptyString (init_state [])
    = (s1', inl tt)
    /\ session_body literal_repr literal_truth mock_options (agent_env "x" "y") 7 "hi"
         JNull 50 EmptyString (init_state ["later"])
       = (s2', inl tt)
    /\ stdout s1' = (before1 ++ [result_message 1 text elapsed1 command1])%list
    /\ stdout s2' = (before2 ++ [result_message 7 text elapsed2 command2])%list
    /\ text = mock_result_text literal_repr literal_truth mock_options
                (history (init_state [])) "hi" JNull EmptyString.
Proof.
  exact (C5_mock_result_text_deterministic literal_repr literal_truth mock_options
           idle_env (agent_env "x" "y") 1%Z 7%Z 0%Z 50%Z "hi" JNull EmptyString
           (init_state []) (init_state ["later"]) eq_refl (or_intror eq_refl)).
Defined.

(** *** Mock sessions in oneshot mode *)

Section MockOneshot.

Variable fr : string -> string.
Variable ft : string -> bool.
Variable opts : HostOptions.
Variable env : Env.

Lemma session_gate_oneshot (session : Z) (prompt : string) (s : State) :
  is_stream opts = false ->
  session_gate fr opts env session prompt s = (s, inl (Some EmptyString)).
Proof.
  intros H. unfold session_gate. rewrite H. reflexivity.
Qed.

Lemma session_body_mock_oneshot (session : Z) (prompt : string) (context : json)
      (started : Z) (note : string) (s : State) :
  is_stream opts = false -> mock opts = true ->
  session_body fr ft opts env session prompt context started note s
  = (set_history
       (record opts (history s) prompt
          (mock_result_text fr ft opts (history s) prompt context note))
       (set_stdout
          (stdout s
           ++ [result_message session
                 (mock_result_text fr ft opts (history s) prompt context note)
                 (time_ms env (ticks s) - started) (claude_command opts)])
          (tick s)),
     inl tt).
Proof.
  intros Hs Hm. unfold session_body, invoke_claude, mock_result_text.
  rewrite Hs, Hm. rewrite bind_gets. cbn [when].
  unfold bind at 1. unfold ret at 1. unfold bind at 1. unfold ret at 1.
  destruct (parse_claude_output fr ft _) as [[text partials] markers].
  cbn [fst]. unfold bind at 1. unfold ret at 1.
  unfold time, emit, record_history. unfold bind at 1. rewrite !bind_modify.
  reflexivity.
Qed.

Lemma run_line_mock_oneshot (raw_line prompt : string) (context : json) (s : State) :
  is_stream opts = false -> mock opts = true ->
  strip raw_line <> EmptyString ->
  is_response (try_parse_json (strip raw_line)) = false ->
  parse_prompt_input fr (strip raw_line) (try_parse_json (strip raw_line))
  = (prompt, context) ->
  prompt <> EmptyString ->
  let text := mock_result_text fr ft opts (history s) prompt context EmptyString in
  exec (run_line fr ft opts env raw_line) s
  = {| session_counter := session_counter s + 1;
       history := record opts (history s) prompt text;
       stdin := stdin s;
       stdout := stdout s
                 ++ [result_message (session_counter s + 1) text
                       (time_ms env (S (ticks s)) - time_ms env (ticks s))
                       (claude_command opts)];
       stderr := stderr s;
       ticks := S (S (ticks s)) |}.
Proof.
  intros Hs Hm Hne Hresp Hparse Hprompt text.
  unfold exec, run_line.
  rewrite (is_empty_false _ Hne), Hresp, Hparse, (is_empty_false _ Hprompt).
  rewrite bind_modify, bind_gets. unfold time at 1. unfold bind at 1.
  unfold try_except, process_prompt. unfold bind at 1.
  rewrite session_gate_oneshot by exact Hs.
  rewrite session_body_mock_oneshot by assumption.
  reflexivity.
Qed.

End MockOneshot.

(** ** The scenario of the specification *)

(** C2 as the specification states it fails: for the line of the scenario
    the mock host writes one [result] message, whose text starts with
    [Planning implementation for task: Task: add a health check endpoint];
    the mock summarizes the composed prompt, which starts with [Task:], and
    not the bare prompt, so the text differs from the one the specification
    gives. *)
Lemma C2_mock_scenario_counterexample :
  option_map (fun s => texts (stdout s))
    (run literal_repr literal_truth mock_options idle_env
       (init_state [health_check_line ++ newline]))
  = Some [Some (JStr ("Planning implementation for task: Task: add a health check endpoint"
                      ++ mock_tail))]
  /\ "Planning implementation for task: Task: add a health check endpoint" ++ mock_tail
     <> "Planning implementation for task: add a health check endpoint" ++ mock_tail.
Proof. split; [reflexivity | discriminate]. Qed.

(** C2, amended.  In mock mode with mode = oneshot, for the input line
    [{"prompt":"add a health check endpoint"}] (with or without blanks and
    the end of line around it) the host writes exactly one message, a
    [result] of session 1, and its text is
    [Planning implementation for task: Task: add a health check endpoint],
    [Would update source files and add/adjust tests.] and
    [Mock Claude Code run completed successfully.] joined by newlines: the
    three mock event texts, the first of which embeds the summary of the
    composed prompt. *)
Theorem C2_mock_oneshot_scenario :
  forall (fr : string -> string) (ft : string -> bool) (opts : HostOptions) (env : Env)
         (raw_line : string),
    mock opts = true ->
    mode opts = "oneshot" ->
    strip raw_line = health_check_line ->
    exists (s' : State) (elapsed : Z),
      run fr ft opts env (init_state [raw_line]) = Some s'
      /\ stdout s'
         = [result_message 1
              ("Planning implementation for task: Task: add a health check endpoint"
               ++ mock_tail)
              elapsed (claude_command opts)].
Proof.
  intros fr ft opts env raw_line Hmock Hmode Hline.
  assert (Hs : is_stream opts = false) by (unfold is_stream; now rewrite Hmode).
  assert (Hstep : forall s,
             history s = [] -> stdout s = [] -> session_counter s = 0%Z ->
             stdout (exec (run_line fr ft opts env raw_line) s)
             = [result_message 1
                  ("Planning implementation for task: Task: add a health check endpoint"
                   ++ mock_tail)
                  (time_ms env (S (ticks s)) - time_ms env (ticks s))
                  (claude_command opts)]
             /\ stdin (exec (run_line fr ft opts env raw_line) s) = stdin s).
  { intros s Hh Ho Hc.
    rewrite (run_line_mock_oneshot fr ft opts env raw_line
               "add a health check endpoint" JNull s Hs Hmock).
    - cbn [stdout stdin]. rewrite Hh, Ho, Hc. split; [|reflexivity].
      unfold mock_result_text. rewrite compose_prompt_fresh.
      reflexivity.
    - rewrite Hline. discriminate.
    - rewrite Hline. reflexivity.
    - rewrite Hline. reflexivity.
    - discriminate. }
  unfold run.
  set (s0 := exec (log opts _) (init_state [raw_line])).
  assert (H0 : stdin s0 = [raw_line] /\ history s0 = [] /\ stdout s0 = []
               /\ session_counter s0 = 0%Z).
  { unfold s0, exec, log. now destruct (verbose opts). }
  destruct H0 as (Hin & Hh & Ho & Hc).
  rewrite Hin. cbn [length run_loop]. rewrite Hin.
  destruct (Hstep (set_stdin [] s0) Hh Ho Hc) as [Hout Hstdin].
  cbn [stdin set_stdin] in Hstdin. rewrite Hstdin.
  eexists _, _. split; [reflexivity | exact Hout].
Qed.

Lemma C2_mock_oneshot_scenario_witness :
  exists (s' : State) (elapsed : Z),
    run literal_repr literal_truth mock_options idle_env
      (init_state [health_check_line ++ newline])
    = Some s'
    /\ stdout s'
       = [result_message 1
            ("Planning implementation for task: Task: add a health check endpoint"
             ++ mock_tail)
            elapsed (claude_command mock_options)].
Proof.
  exact (C2_mock_oneshot_scenario literal_repr literal_truth mock_options idle_env
           (health_check_line ++ newline) eq_refl eq_refl eq_refl).
Defined.

(** ** The interactive mediator *)

Lemma rstrip_idempotent (s : string) : rstrip (rstrip s) = rstrip s.
Proof.
  induction s as [|c r IH]; [reflexivity|]. simpl.
  destruct (isspace c && is_empty (rstrip r)) eqn:E; [reflexivity|].
  simpl. now rewrite IH, E.
Qed.

Lemma lstrip_head (s : string) :
  lstrip s = EmptyString \/ exists c r, lstrip s = String c r /\ isspace c = false.
Proof.
  induction s as [|c r IH]; [now left|]. simpl.
  destruct (isspace c) eqn:E; [exact IH|]. right. now exists c, r.
Qed.

Lemma strip_idempotent (s : string) : strip (strip s) = strip s.
Proof.
  unfold strip.
  destruct (lstrip_head s) as [-> | (c & r & -> & Hc)]; [reflexivity|].
  assert (H1 : rstrip (String c r) = String c (rstrip r)) by (simpl; now rewrite Hc).
  rewrite H1.
  assert (H2 : lstrip (String c (rstrip r)) = String c (rstrip r))
    by (simpl; now rewrite Hc).
  rewrite H2. simpl. rewrite Hc. simpl. now rewrite rstrip_idempotent.
Qed.








(** ** The two bounded waits *)

(** C4 as the specification states it fails for the agent invocation: with
    a configured timeout of zero the invocation is given a deadline of 1,
    and an agent that needs longer is reported as timed out; the wait does
    not block without a deadline. *)
Lemma C4_zero_invocation_timeout_counterexample :
  timeout_secs zero_timeout_options = 0%Z
  /\ invoke_timeout zero_timeout_options = 1%Z
  /\ option_map stdout
       (run literal_repr literal_truth zero_timeout_options slow_agent_env
          (init_state ["fix the bug" ++ newline]))
     = Some [JDict [("type", JStr "error"); ("session", JInt 1);
                    ("message",
                     JStr "session failed: Claude command timed out after 0s")]].
Proof. repeat split. Qed.

(** C4, amended.  For the interactive response wait, a configured timeout
    of zero or less means that the wait blocks without a deadline: the
    next line is taken whenever it comes, and the readiness of the input
    is not asked.  A positive configured timeout is the deadline of the
    readiness wait: when it passes, nothing is read and the default answer
    is used.  For the agent invocation the deadline is
    [max(1, timeout_secs)]: a positive configured timeout is the deadline,
    a configured timeout of zero or less gives the deadline 1, and an
    invocation that exceeds its deadline raises the time-out error. *)
Theorem C4_wait_deadlines :
  (forall (opts : HostOptions) (env : Env) (s : State),
      (response_timeout_secs opts <= 0)%Z ->
      read_line_with_timeout env (Z.max 0 (response_timeout_secs opts)) s
      = blocking_read s)
  /\ (forall (opts : HostOptions) (env : Env) (s : State),
         (0 < response_timeout_secs opts)%Z ->
         read_line_with_timeout env (Z.max 0 (response_timeout_secs opts)) s
         = match select env (ticks s) (response_timeout_secs opts) with
           | TimedOut => (tick s, inl None)
           | Ready | SelectError => blocking_read (tick s)
           end)
  /\ (forall (fr : string -> string) (opts : HostOptions) (env : Env)
             (default : string) (s : State),
         (0 < response_timeout_secs opts)%Z ->
         select env (ticks s) (response_timeout_secs opts) = TimedOut ->
         snd (read_response fr opts env default s) = inl default
         /\ stdin (fst (read_response fr opts env default s)) = stdin s)
  /\ (forall opts : HostOptions,
         (0 < timeout_secs opts)%Z -> invoke_timeout opts = timeout_secs opts)
  /\ (forall opts : HostOptions,
         (timeout_secs opts <= 0)%Z -> invoke_timeout opts = 1%Z)
  /\ (forall (fr : string -> string) (opts : HostOptions) (env : Env)
             (prompt : string) (s : State),
         mock opts = false ->
         subprocess_run env (ticks s) (fst (build_command fr opts prompt))
           (snd (build_command fr opts prompt)) (invoke_timeout opts)
         = TimeoutExpired ->
         snd (invoke_claude fr opts env prompt s)
         = inr ("Claude command timed out after "
                ++ str_of_Z (timeout_secs opts) ++ "s")).
Proof.
  assert (Hpos : forall opts env s,
             (0 < response_timeout_secs opts)%Z ->
             read_line_with_timeout env (Z.max 0 (response_timeout_secs opts)) s
             = match select env (ticks s) (response_timeout_secs opts) with
               | TimedOut => (tick s, inl None)
               | Ready | SelectError => blocking_read (tick s)
               end).
  { intros opts env s H. unfold read_line_with_timeout.
    replace (Z.max 0 (response_timeout_secs opts)) with (response_timeout_secs opts)
      by lia.
    destruct (Z.leb_spec (response_timeout_secs opts) 0); [lia|].
    unfold bind, select_stdin, blocking_read, readline, ret.
    destruct (select env (ticks s) (response_timeout_secs opts));
      try reflexivity; cbn [stdin tick]; destruct (stdin s); reflexivity. }
  split; [|split; [exact Hpos|split; [|split; [|split]]]].
  - intros opts env s H. unfold read_line_with_timeout.
    replace (Z.max 0 (response_timeout_secs opts)) with 0%Z by lia.
    cbn [Z.leb Z.compare]. unfold bind, blocking_read, readline, ret.
    destruct (stdin s); reflexivity.
  - intros fr opts env default s H Hsel. unfold read_response, bind.
    rewrite (Hpos opts env s H), Hsel.
    unfold log, ret. destruct (verbose opts); split; reflexivity.
  - intros opts H. unfold invoke_timeout. lia.
  - intros opts H. unfold invoke_timeout. lia.
  - intros fr opts env prompt s Hmock Hrun. unfold invoke_claude. rewrite Hmock.
    destruct (build_command fr opts prompt) as [argv payload]. cbn [fst snd] in Hrun.
    unfold bind, log, run_subprocess.
    destruct (verbose opts); cbn [modify ret ticks set_stderr fst snd];
      rewrite Hrun; reflexivity.
Qed.

Lemma C4_wait_deadlines_witness :
  invoke_timeout zero_timeout_options = 1%Z
  /\ snd (invoke_claude literal_repr zero_timeout_options slow_agent_env "Task: x"
            (init_state []))
     = inr ("Claude command timed out after "
            ++ str_of_Z (timeout_secs zero_timeout_options) ++ "s").
Proof.
  split.
  - refine (proj1 (proj2 (proj2 (proj2 (proj2 C4_wait_deadlines))))
              zero_timeout_options _).
    simpl. lia.
  - exact (proj2 (proj2 (proj2 (proj2 (proj2 C4_wait_deadlines))))
             literal_repr zero_timeout_options slow_agent_env "Task: x" (init_state [])
             eq_refl eq_refl).
Defined.

(** * Further properties of the host

    Properties that the code shows besides what the specification states: the
    edge cases and invariants of its functions, how they compose, and what
    the host never does.  Each is named X followed by its number. *)

(** ** Summaries, risk keywords and the parsed output *)

Lemma sall_append (p : ascii -> bool) (a b : string) :
  sall p (a ++ b) = sall p a && sall p b.
Proof. induction a as [|c a IH]; simpl; [reflexivity|]. now rewrite IH, andb_assoc. Qed.

Lemma sall_lstrip (p : ascii -> bool) (s : string) : sall p s = true -> sall p (lstrip s) = true.
Proof.
  induction s as [|c s IH]; simpl; [reflexivity|].
  intros H. apply andb_prop in H. destruct H as [Hc Hs].
  destruct (isspace c); [now apply IH|]. simpl. now rewrite Hc, Hs.
Qed.

Lemma sall_rstrip (p : ascii -> bool) (s : string) : sall p s = true -> sall p (rstrip s) = true.
Proof.
  induction s as [|c s IH]; simpl; [reflexivity|].
  intros H. apply andb_prop in H. destruct H as [Hc Hs].
  destruct (isspace c && is_empty (rstrip s)); [reflexivity|]. simpl.
  now rewrite Hc, IH.
Qed.

Lemma sall_strip (p : ascii -> bool) (s : string) : sall p s = true -> sall p (strip s) = true.
Proof. intros H. now apply sall_rstrip, sall_lstrip. Qed.

Lemma sall_take (p : ascii -> bool) (n : nat) (s : string) :
  sall p s = true -> sall p (take n s) = true.
Proof.
  revert s; induction n as [|n IH]; intros [|c s]; simpl; try reflexivity.
  intros H. apply andb_prop in H. destruct H as [Hc Hs]. now rewrite Hc, IH.
Qed.

Lemma replace_newline (s : string) :
  replace newline " " s = smap (fun c => if is_char 10 c then " "%char else c) s.
Proof.
  unfold replace. induction s as [|c s IH]; [reflexivity|].
  cbn [replace_from smap]. unfold newline at 1. cbn [String.prefix String.length Nat.sub].
  destruct (ascii_dec "010" c) as [<-|Hne].
  - assert (Hp : forall t, prefix EmptyString t = true) by (intros [|? ?]; reflexivity).
    rewrite Hp. change (String.length newline - 1) with 0. rewrite IH. reflexivity.
  - rewrite IH. f_equal.
    destruct (is_char 10 c) eqn:E; [|reflexivity].
    exfalso. apply Hne. unfold is_char, code in E. apply Nat.eqb_eq in E.
    rewrite <- (ascii_nat_embedding c), E. reflexivity.
Qed.

Lemma no_newline_replace (s : string) : no_newline (replace newline " " s) = true.
Proof.
  rewrite replace_newline. unfold no_newline.
  induction s as [|c s IH]; [reflexivity|]. simpl. rewrite IH.
  destruct (is_char 10 c) eqn:E; [reflexivity | now rewrite E].
Qed.

Lemma replace_no_newline (s : string) :
  no_newline s = true -> replace newline " " s = s.
Proof.
  rewrite replace_newline. unfold no_newline.
  induction s as [|c s IH]; [reflexivity|]. simpl. intros H.
  apply andb_prop in H. destruct H as [Hc Hs]. rewrite (IH Hs).
  destruct (is_char 10 c); [discriminate | reflexivity].
Qed.

Lemma no_newline_summarize (text : string) (limit : Z) :
  no_newline (summarize text limit) = true.
Proof.
  unfold summarize.
  assert (H : no_newline (strip (replace newline " " text)) = true)
    by apply sall_strip, no_newline_replace.
  destruct (_ <=? limit)%Z; [exact H|].
  unfold no_newline. rewrite sall_append. now rewrite (sall_take _ _ _ H).
Qed.

Lemma rstrip_append (a b : string) :
  is_empty (rstrip b) = false -> rstrip (a ++ b) = a ++ rstrip b.
Proof.
  intros Hb. induction a as [|c a IH]; [reflexivity|]. simpl.
  rewrite IH. destruct (a ++ rstrip b) eqn:E.
  - destruct a; simpl in E; [rewrite E in Hb; discriminate | discriminate].
  - simpl. now rewrite andb_false_r.
Qed.

Lemma strip_head (s : string) :
  strip s = EmptyString \/ exists c r, strip s = String c r /\ isspace c = false.
Proof.
  unfold strip. destruct (lstrip_head s) as [-> | (c & r & -> & Hc)]; [now left|].
  right. simpl. rewrite Hc. simpl. now exists c, (rstrip r).
Qed.

Lemma strip_summarize (text : string) (limit : Z) :
  strip (summarize text limit) = summarize text limit.
Proof.
  unfold summarize. set (flat := strip (replace newline " " text)).
  destruct (_ <=? limit)%Z; [apply strip_idempotent|].
  unfold strip.
  assert (Hl : lstrip (take (Z.to_nat (Z.max 0 (limit - 3))) flat ++ "...")
               = take (Z.to_nat (Z.max 0 (limit - 3))) flat ++ "...").
  { destruct (Z.to_nat (Z.max 0 (limit - 3))) as [|n]; [reflexivity|].
    destruct (strip_head (replace newline " " text)) as [H | (c & r & H & Hc)];
      fold flat in H; rewrite H; [reflexivity|].
    simpl. now rewrite Hc. }
  rewrite Hl. now rewrite rstrip_append.
Qed.

Lemma summarize_idempotent (text : string) (limit : Z) :
  (3 <= limit)%Z -> summarize (summarize text limit) limit = summarize text limit.
Proof.
  intros Hl.
  pose proof (summarize_bound text limit Hl) as Hb.
  pose proof (no_newline_summarize text limit) as Hn.
  pose proof (strip_summarize text limit) as Hs.
  set (r := summarize text limit) in *.
  unfold summarize at 1. rewrite (replace_no_newline r Hn), Hs.
  destruct (Z.leb_spec (Z.of_nat (String.length r)) limit); [reflexivity | lia].
Qed.

(** X1.  A summary never contains a newline and has no blanks around it.
    For a limit of at least 3 it has at most [limit] characters and
    summarizing it again with the same limit changes nothing.  For a limit
    of at most 3, a text that is too long is summarized as the bare
    ellipsis, which is longer than a limit below 3. *)
Theorem X1_summarize_invariants :
  forall (text : string) (limit : Z),
    no_newline (summarize text limit) = true
    /\ strip (summarize text limit) = summarize text limit
    /\ ((3 <= limit)%Z ->
        (Z.of_nat (String.length (summarize text limit)) <= limit)%Z
        /\ summarize (summarize text limit) limit = summarize text limit)
    /\ ((limit <= 3)%Z ->
        (limit < Z.of_nat (String.length (strip (replace newline " " text))))%Z ->
        summarize text limit = "...").
Proof.
  intros text limit. split; [apply no_newline_summarize|].
  split; [apply strip_summarize|]. split.
  - intros Hl. split; [now apply summarize_bound | now apply summarize_idempotent].
  - intros Hl Hlong. destruct (summarize_cases text limit) as [_ H].
    rewrite (H Hlong). replace (Z.to_nat (Z.max 0 (limit - 3))) with 0 by lia.
    destruct (strip _); reflexivity.
Qed.

Lemma X1_summarize_witness :
  (Z.of_nat (String.length (summarize "  fix the bug  " 10)) <= 10)%Z
  /\ summarize (summarize "  fix the bug  " 10) 10 = summarize "  fix the bug  " 10.
Proof.
  refine (proj1 (proj2 (proj2 (X1_summarize_invariants "  fix the bug  " 10%Z))) _).
  lia.
Defined.

Lemma prefix_split (k t : string) :
  String.prefix k t = true <-> exists b, t = k ++ b.
Proof.
  revert t; induction k as [|c k IH]; intros t; simpl.
  - split; [intros _; now exists t | now destruct t].
  - destruct t as [|d t]; [split; [discriminate | intros [b H]; discriminate]|].
    simpl. destruct (ascii_dec c d) as [<-|Hne].
    + rewrite IH. split; intros [b H]; exists b; [now rewrite H | now injection H].
    + split; [discriminate | intros [b H]; injection H; congruence].
Qed.

Lemma contains_split (k t : string) :
  contains k t = true <-> exists a b, t = a ++ k ++ b.
Proof.
  induction t as [|d t IH]; cbn [contains].
  - rewrite orb_false_r, prefix_split. split.
    + intros [b H]. now exists EmptyString, b.
    + intros (a & b & H). destruct a; [now exists b | discriminate].
  - rewrite orb_true_iff, prefix_split, IH. split.
    + intros [[b H] | (a & b & H)].
      * now exists EmptyString, b.
      * exists (String d a), b. simpl. now rewrite H.
    + intros (a & b & H). destruct a as [|e a].
      * left. now exists b.
      * right. exists a, b. simpl in H. now injection H.
Qed.

Lemma lower_append (a b : string) : lower (a ++ b) = lower a ++ lower b.
Proof. unfold lower. induction a as [|c a IH]; simpl; [reflexivity | now rewrite IH]. Qed.

Lemma append_assoc (a b c : string) : (a ++ b) ++ c = a ++ b ++ c.
Proof. induction a as [|x a IH]; simpl; [reflexivity | now rewrite IH]. Qed.

Lemma looks_high_risk_iff (prompt : string) :
  looks_high_risk prompt = true
  <-> exists keyword before after,
      In keyword risk_keywords /\ lower prompt = before ++ keyword ++ after.
Proof.
  unfold looks_high_risk. rewrite existsb_exists. split.
  - intros (k & Hin & Hc). apply contains_split in Hc. destruct Hc as (a & b & H).
    now exists k, a, b.
  - intros (k & a & b & Hin & H). exists k. split; [exact Hin|].
    apply contains_split. now exists a, b.
Qed.

(** X2.  A prompt is high-risk exactly when its lowercased text contains
    one of the nine keywords.  So a prompt that embeds a high-risk text is
    high-risk, and two prompts that differ only in letter case are judged
    alike. *)
Theorem X2_high_risk_keywords :
  (forall prompt : string,
      looks_high_risk prompt = true
      <-> exists keyword before after,
          In keyword risk_keywords /\ lower prompt = before ++ keyword ++ after)
  /\ (forall before prompt after : string,
         looks_high_risk prompt = true ->
         looks_high_risk (before ++ prompt ++ after) = true)
  /\ (forall p q : string,
         lower p = lower q -> looks_high_risk p = looks_high_risk q).
Proof.
  split; [exact looks_high_risk_iff|]. split.
  - intros before prompt after H. apply looks_high_risk_iff in H.
    destruct H as (k & a & b & Hin & H). apply looks_high_risk_iff.
    exists k, (lower before ++ a), (b ++ lower after). split; [exact Hin|].
    rewrite !lower_append, H, !append_assoc. reflexivity.
  - intros p q H. unfold looks_high_risk. now rewrite H.
Qed.

Lemma X2_high_risk_witness :
  looks_high_risk ("Please " ++ "DROP TABLE users" ++ " now") = true.
Proof.
  exact (proj1 (proj2 X2_high_risk_keywords) "Please " "DROP TABLE users" " now" eq_refl).
Defined.

Lemma lstrip_empty_iff (s : string) : lstrip s = EmptyString <-> sall isspace s = true.
Proof.
  induction s as [|c s IH]; simpl; [tauto|].
  destruct (isspace c); simpl; [exact IH|]. split; discriminate.
Qed.

Lemma strip_empty_iff (s : string) : strip s = EmptyString <-> sall isspace s = true.
Proof.
  rewrite <- lstrip_empty_iff. unfold strip. split.
  - destruct (lstrip_head s) as [-> | (c & r & -> & Hc)]; [reflexivity|].
    simpl. rewrite Hc. discriminate.
  - intros ->. reflexivity.
Qed.

Lemma sall_snoc (p : ascii -> bool) (s : string) (c : ascii) :
  sall p (s ++ String c EmptyString) = sall p s && p c.
Proof. induction s as [|d s IH]; simpl; [now rewrite andb_true_r|]. now rewrite IH, andb_assoc. Qed.

Lemma splitlines_from_all_bounded (p : ascii -> bool) (n : nat) :
  forall s cur : string,
    String.length s <= n ->
    sall p cur = true -> sall p s = true ->
    Forall (fun line => sall p line = true) (splitlines_from cur s).
Proof.
  induction n as [|n IH]; intros s cur Hn Hcur Hs.
  - destruct s; [|simpl in Hn; lia]. simpl.
    destruct (is_empty cur); constructor; [exact Hcur | constructor].
  - destruct s as [|c s]; simpl.
    { destruct (is_empty cur); constructor; [exact Hcur | constructor]. }
    simpl in Hn, Hs. apply andb_prop in Hs. destruct Hs as [Hc Hs].
    destruct (is_char 13 c).
    + destruct s as [|c' s']; [constructor; [exact Hcur | constructor]|].
      simpl in Hn.
      destruct (is_char 10 c'); constructor; try exact Hcur.
      * simpl in Hs. apply andb_prop in Hs. destruct Hs as [_ Hs].
        apply IH; [lia | reflexivity | exact Hs].
      * apply IH; [simpl; lia | reflexivity | exact Hs].
    + destruct (is_linebreak c).
      * constructor; [exact Hcur|]. apply IH; [lia | reflexivity | exact Hs].
      * apply IH; [lia | | exact Hs]. rewrite sall_snoc. now rewrite Hcur, Hc.
Qed.

Lemma splitlines_all (p : ascii -> bool) (s : string) :
  sall p s = true -> Forall (fun line => sall p line = true) (splitlines s).
Proof.
  intros H. now apply (splitlines_from_all_bounded p (String.length s)).
Qed.

Lemma blank_output_has_no_lines (output : string) :
  strip output = EmptyString ->
  filter (fun line => truthy (strip line)) (splitlines output) = [].
Proof.
  intros H. apply strip_empty_iff, splitlines_all in H.
  induction H as [|line lines Hl _ IH]; [reflexivity|]. simpl.
  apply strip_empty_iff in Hl. now rewrite Hl.
Qed.

Lemma compact_into_forall (P : string -> Prop) (values compact : list string) :
  Forall P values -> Forall P compact -> Forall P (compact_into compact values).
Proof.
  revert compact; induction values as [|v values IH]; intros compact Hv Hc; simpl;
    [exact Hc|].
  inversion Hv as [|? ? Hv1 Hv2]; subst.
  destruct (is_empty v); [now apply IH|].
  assert (Hsnoc : Forall P (compact ++ [v]))
    by (apply Forall_app; split; [exact Hc | now constructor]).
  destruct (last_value compact) as [l|]; [destruct (String.eqb l v)|]; now apply IH.
Qed.

Lemma compact_into_nonempty (values compact : list string) :
  Forall (fun v => v <> EmptyString) compact ->
  Forall (fun v => v <> EmptyString) (compact_into compact values).
Proof.
  revert compact; induction values as [|v values IH]; intros compact Hc; simpl;
    [exact Hc|].
  destruct (is_empty v) eqn:E; [now apply IH|].
  assert (Hsnoc : Forall (fun v => v <> EmptyString) (compact ++ [v])).
  { apply Forall_app; split; [exact Hc|]. constructor; [|constructor].
    intros ->. discriminate. }
  destruct (last_value compact) as [l|]; [destruct (String.eqb l v)|]; now apply IH.
Qed.

Lemma collect_lines_markers (fr : string -> string) (ft : string -> bool)
      (lines partials markers : list string) :
  Forall is_marker markers ->
  Forall is_marker (snd (collect_lines fr ft lines partials markers)).
Proof.
  revert partials markers; induction lines as [|line lines IH]; intros partials markers Hm;
    simpl; [exact Hm|].
  destruct (try_parse_json line); try now apply IH.
  destruct (truthy_opt _); [now apply IH|].
  apply IH. apply Forall_app; split; [exact Hm|]. constructor; [|constructor].
  now eexists.
Qed.

Lemma trimmed_head (s : string) :
  s <> EmptyString -> strip s = s ->
  rstrip s = s /\ exists c r, s = String c r /\ isspace c = false.
Proof.
  intros Hne Hs. destruct (strip_head s) as [H | (c & r & H & Hc)]; [congruence|].
  rewrite Hs in H. subst s. split; [|now exists c, r].
  unfold strip in Hs. simpl in Hs. now rewrite Hc in Hs.
Qed.

Lemma trimmed_append (a sep b : string) :
  a <> EmptyString -> strip a = a -> b <> EmptyString -> strip b = b ->
  a ++ sep ++ b <> EmptyString /\ strip (a ++ sep ++ b) = a ++ sep ++ b.
Proof.
  intros Ha Hsa Hb Hsb.
  destruct (trimmed_head a Ha Hsa) as (_ & c & r & -> & Hc).
  destruct (trimmed_head b Hb Hsb) as (Hrb & _).
  split; [discriminate|].
  unfold strip. simpl lstrip. rewrite Hc.
  change (String c (r ++ sep ++ b)) with (String c r ++ sep ++ b).
  rewrite <- append_assoc. rewrite rstrip_append; rewrite Hrb; [reflexivity|].
  now apply is_empty_false.
Qed.

Lemma trimmed_join (sep : string) (parts : list string) :
  Forall (fun p => p <> EmptyString /\ strip p = p) parts -> parts <> [] ->
  join sep parts <> EmptyString /\ strip (join sep parts) = join sep parts.
Proof.
  induction 1 as [|p parts [Hp Hsp] Hparts IH]; intros Hne; [congruence|].
  destruct parts as [|q parts]; [now split|].
  change (join sep (p :: q :: parts)) with (p ++ sep ++ join sep (q :: parts)).
  destruct IH as [Hj Hsj]; [discriminate|].
  now apply trimmed_append.
Qed.

Lemma extract_text_trimmed (v : json) (t : string) :
  extract_text v = Some t -> t <> EmptyString /\ strip t = t.
Proof.
  revert t. induction v using json_induction; intros t; try discriminate.
  - simpl. destruct (truthy (strip s)) eqn:E; [|discriminate].
    intros [= <-]. split; [now apply truthy_not_empty | apply strip_idempotent].
  - cbn [extract_text].
    set (f := fun item : json =>
                if truthy_opt (extract_text item)
                then match extract_text item with Some e => [e] | None => [] end
                else []).
    assert (Hparts : Forall (fun p => p <> EmptyString /\ strip p = p) (flat_map f items)).
    { induction H as [|x l Hx Hl IH]; simpl; [constructor|].
      apply Forall_app; split; [|exact IH].
      unfold f. destruct (extract_text x) as [e|] eqn:Ex; simpl; [|constructor].
      destruct (truthy e); constructor; [now apply Hx | constructor]. }
    destruct (flat_map f items) as [|p parts] eqn:Ep; [discriminate|].
    intros [= <-]. apply (trimmed_join newline (p :: parts)); [exact Hparts | discriminate].
  - rewrite extract_text_dict.
    assert (Hkey : forall key u,
               text_of_key fields key = Some u -> u <> EmptyString /\ strip u = u).
    { intros key u. unfold text_of_key, get.
      induction H as [|[k w] l Hw Hl IH]; simpl; [discriminate|].
      destruct (String.eqb key k); [apply Hw | apply IH]. }
    assert (Hfirst : forall keys u,
               first_text (text_of_key fields) keys = Some u ->
               u <> EmptyString /\ strip u = u).
    { induction keys as [|key keys IH]; simpl; intros u; [discriminate|].
      destruct (truthy_opt (text_of_key fields key)); [apply Hkey | apply IH]. }
    destruct (first_text (text_of_key fields) _) as [e|] eqn:E.
    + intros [= <-]. eapply Hfirst; eassumption.
    + destruct (truthy_opt (text_of_key fields "message")); [apply Hkey|].
      destruct (truthy_opt (text_of_key fields "content")); [apply Hkey | discriminate].
Qed.

Lemma collect_lines_partials (fr : string -> string) (ft : string -> bool)
      (lines partials markers : list string) :
  Forall (fun l => l <> EmptyString /\ strip l = l) lines ->
  Forall (fun p => p <> EmptyString /\ strip p = p) partials ->
  Forall (fun p => p <> EmptyString /\ strip p = p)
    (fst (collect_lines fr ft lines partials markers)).
Proof.
  intros Hlines. revert partials markers.
  induction Hlines as [|line lines Hline _ IH]; intros partials markers Hp;
    cbn [collect_lines]; [exact Hp|].
  assert (Hsnoc : Forall (fun p => p <> EmptyString /\ strip p = p) (partials ++ [line]))
    by (apply Forall_app; split; [exact Hp | now constructor]).
  destruct (try_parse_json line); try now apply IH.
  destruct (extract_text (JDict fields)) as [e|] eqn:E; cbn [truthy_opt];
    [|now apply IH].
  destruct (truthy e); [|now apply IH].
  apply IH. apply Forall_app; split; [exact Hp|]. constructor; [|constructor].
  now apply (extract_text_trimmed (JDict fields)).
Qed.

Lemma stripped_lines (output : string) :
  Forall (fun l => l <> EmptyString /\ strip l = l)
    (map strip (filter (fun line => truthy (strip line)) (splitlines output))).
Proof.
  apply Forall_map, Forall_forall. intros line Hin. apply filter_In in Hin.
  destruct Hin as [_ Ht]. split; [now apply truthy_not_empty | apply strip_idempotent].
Qed.

Lemma parse_claude_output_partials (fr : string -> string) (ft : string -> bool)
      (output : string) :
  Forall (fun chunk => chunk <> EmptyString /\ strip chunk = chunk)
    (snd (fst (parse_claude_output fr ft output))).
Proof.
  unfold parse_claude_output.
  destruct (collect_lines fr ft _ [] []) as [partials markers] eqn:E. cbn [fst snd].
  apply compact_into_forall; [|constructor].
  pose proof (collect_lines_partials fr ft _ [] [] (stripped_lines output)
                (Forall_nil _)) as H.
  now rewrite E in H.
Qed.

Lemma parse_claude_output_text (fr : string -> string) (ft : string -> bool)
      (output : string) :
  fst (fst (parse_claude_output fr ft output)) <> EmptyString
  /\ strip (fst (fst (parse_claude_output fr ft output)))
     = fst (fst (parse_claude_output fr ft output)).
Proof.
  unfold parse_claude_output.
  destruct (collect_lines fr ft _ [] []) as [partials markers]. cbn [fst].
  set (joined := strip (join newline (compact_values partials))).
  set (fallback := if truthy joined then joined else strip output).
  assert (Hfallback : strip fallback = fallback).
  { unfold fallback, joined. destruct (truthy _); apply strip_idempotent. }
  destruct (truthy fallback) eqn:E1.
  - split; [now apply truthy_not_empty | exact Hfallback].
  - split; [discriminate | reflexivity].
Qed.

(** X3.  For every agent output whose lines are within the limits of the
    parser, the result text is not empty and has no blanks around it; every
    partial is a non-empty text without blanks around it and every event
    marker starts with [claude:].  When there are partials the result text
    is the partials joined by newlines; when there are none and the output
    is not blank it is the trimmed output; for a blank output it is the
    fixed text [Claude Code returned no output.] and there are neither
    partials nor markers. *)
Theorem X3_parse_claude_output_result :
  forall (fr : string -> string) (ft : string -> bool) (output : string),
    forallb within_parser_limits (splitlines output) = true ->
    let '(result_text, partials, event_markers) := parse_claude_output fr ft output in
    result_text <> EmptyString
    /\ strip result_text = result_text
    /\ Forall (fun chunk => chunk <> EmptyString /\ strip chunk = chunk) partials
    /\ Forall is_marker event_markers
    /\ (partials <> [] -> result_text = join newline partials)
    /\ (partials = [] -> strip output <> EmptyString -> result_text = strip output)
    /\ (strip output = EmptyString ->
        result_text = "Claude Code returned no output."
        /\ partials = [] /\ event_markers = []).
Proof.
  intros fr ft output _.
  pose proof (parse_claude_output_partials fr ft output) as Hpartials.
  pose proof (parse_claude_output_text fr ft output) as Htext.
  unfold parse_claude_output in *.
  destruct (collect_lines fr ft _ [] []) as [partials markers] eqn:E.
  cbn [fst snd] in Hpartials, Htext.
  set (joined := strip (join newline (compact_values partials))) in *.
  set (fallback := if truthy joined then joined else strip output) in *.
  split; [apply Htext|]. split; [apply Htext|]. split; [exact Hpartials|].
  split.
  { apply compact_into_forall; [|constructor].
    pose proof (collect_lines_markers fr ft
                  (map strip (filter (fun line => truthy (strip line)) (splitlines output)))
                  [] [] (Forall_nil _)) as H.
    now rewrite E in H. }
  split.
  { intros Hne. destruct (trimmed_join newline _ Hpartials Hne) as [Hj Hs].
    unfold fallback, joined. rewrite Hs.
    apply truthy_not_empty in Hj. now rewrite Hj, Hj. }
  split.
  { intros Hnil Hout. unfold fallback, joined. rewrite Hnil. cbn.
    apply truthy_not_empty in Hout. now rewrite Hout. }
  intros Hblank. rewrite (blank_output_has_no_lines output Hblank) in E.
  simpl in E. injection E as <- <-. unfold fallback, joined. cbn. rewrite Hblank.
  now cbn.
Qed.

Lemma X3_parse_claude_output_witness :
  fst (fst (parse_claude_output literal_repr literal_truth "   "))
  = "Claude Code returned no output.".
Proof.
  exact (proj1 (proj2 (proj2 (proj2 (proj2 (proj2 (proj2
           (X3_parse_claude_output_result literal_repr literal_truth "   " eq_refl))))))
           eq_refl)).
Defined.

(** X4.  A text that [extract_text] returns is not empty, has no blanks
    around it, and is what [extract_text] returns for that text itself. *)
Theorem X4_extract_text_trimmed :
  forall (v : json) (t : string),
    extract_text v = Some t ->
    t <> EmptyString /\ strip t = t /\ extract_text (JStr t) = Some t.
Proof.
  intros v t H. destruct (extract_text_trimmed v t H) as [Hne Hs].
  split; [exact Hne|]. split; [exact Hs|].
  cbn [extract_text]. rewrite Hs. apply truthy_not_empty in Hne. now rewrite Hne.
Qed.

Lemma X4_extract_text_witness :
  "a" ++ newline ++ "b" <> EmptyString
  /\ strip ("a" ++ newline ++ "b") = "a" ++ newline ++ "b"
  /\ extract_text (JStr ("a" ++ newline ++ "b")) = Some ("a" ++ newline ++ "b").
Proof.
  exact (X4_extract_text_trimmed
           (JDict [("content", JList [JStr " a "; JInt 1; JDict [("text", JStr "b ")]])])
           ("a" ++ newline ++ "b") eq_refl).
Defined.

(** ** The cap on partial messages *)

Lemma set_stdout_nil (s : State) : set_stdout (stdout s ++ []) s = s.
Proof. destruct s. unfold set_stdout. simpl. now rewrite app_nil_r. Qed.

Lemma set_stdout_app (s : State) (a b : list json) :
  set_stdout (stdout (set_stdout (stdout s ++ a) s) ++ b) (set_stdout (stdout s ++ a) s)
  = set_stdout (stdout s ++ a ++ b) s.
Proof. unfold set_stdout. simpl. now rewrite app_assoc. Qed.

Lemma emit_partials_from (opts : HostOptions) (session : Z) (partials : list string) :
  forall (sent : Z) (s : State),
    (0 <= sent)%Z ->
    emit_partials opts session sent partials s
    = (set_stdout
         (stdout s
          ++ map (partial_message session)
               (firstn (Z.to_nat (Z.max 0 (max_partials opts)) - Z.to_nat sent)
                  (filter truthy partials)))
         s,
       inl tt).
Proof.
  induction partials as [|chunk rest IH]; intros sent s Hsent; cbn [emit_partials filter].
  - rewrite firstn_nil. cbn [map]. now rewrite set_stdout_nil.
  - destruct (Z.leb_spec (Z.max 0 (max_partials opts)) sent) as [Hcap|Hcap].
    + replace (Z.to_nat (Z.max 0 (max_partials opts)) - Z.to_nat sent) with 0 by lia.
      cbn [firstn map]. now rewrite set_stdout_nil.
    + unfold truthy at 1. destruct (is_empty chunk); cbn [negb]; [now apply IH|].
      replace (Z.to_nat (Z.max 0 (max_partials opts)) - Z.to_nat sent)
        with (S (Z.to_nat (Z.max 0 (max_partials opts)) - Z.to_nat (sent + 1))) by lia.
      cbn [firstn map]. unfold emit at 1. rewrite bind_modify.
      rewrite IH by lia.
      now rewrite (set_stdout_app s [_] _).
Qed.

(** X5.  The loop of [process_prompt] over the partials writes one
    [partial] message, carrying the session, for each of the first
    [max(0, max_partials)] non-empty partials, in order, and nothing else;
    it never raises.  So at most that many are written, and all non-empty
    partials are written when they are no more than the cap. *)
Theorem X5_partials_cap :
  forall (opts : HostOptions) (session : Z) (partials : list string) (s : State),
    let cap := Z.to_nat (Z.max 0 (max_partials opts)) in
    let written := map (partial_message session) (firstn cap (filter truthy partials)) in
    emit_partials opts session 0 partials s = (set_stdout (stdout s ++ written) s, inl tt)
    /\ length written <= cap
    /\ (length (filter truthy partials) <= cap ->
        written = map (partial_message session) (filter truthy partials)).
Proof.
  intros opts session partials s cap written. split; [|split].
  - rewrite emit_partials_from by lia. unfold written, cap.
    now rewrite Nat.sub_0_r.
  - unfold written. rewrite length_map, length_firstn. lia.
  - intros H. unfold written. now rewrite firstn_all2.
Qed.

Lemma X5_partials_cap_witness :
  map (partial_message 4)
    (firstn (Z.to_nat (Z.max 0 (max_partials default_options)))
       (filter truthy ["a"; ""; "b"]))
  = map (partial_message 4) (filter truthy ["a"; ""; "b"]).
Proof.
  refine (proj2 (proj2 (X5_partials_cap default_options 4%Z ["a"; ""; "b"] (init_state [])))
            _).
  vm_compute. lia.
Defined.

(** ** What a session reads, and the count of sessions *)

Lemma reads_same (n : nat) (s s' : State) : stdin s' = stdin s -> reads n s s'.
Proof. intros H. exists 0. split; [lia | exact H]. Qed.

Lemma reads_weaken (n m : nat) (s s' : State) : n <= m -> reads n s s' -> reads m s s'.
Proof. intros Hle (k & Hk & H). exists k. split; [lia | exact H]. Qed.

Lemma reads_trans (n m : nat) (a b c : State) :
  reads n a b -> reads m b c -> reads (n + m) a c.
Proof.
  intros (k1 & Hk1 & H1) (k2 & Hk2 & H2). exists (k2 + k1). split; [lia|].
  now rewrite H2, H1, skipn_skipn.
Qed.

Lemma reads_zero (s s' : State) : reads 0 s s' <-> stdin s' = stdin s.
Proof.
  split; [|apply reads_same]. intros (k & Hk & H).
  replace k with 0 in H by lia. exact H.
Qed.

Lemma reads_bind {A B : Type} (n m : nat) (f : M A) (k : A -> M B) :
  pres (reads n) f -> (forall a, pres (reads m) (k a)) -> pres (reads (n + m)) (bind f k).
Proof.
  intros Hf Hk s. unfold bind. specialize (Hf s).
  destruct (f s) as [s1 [a|exc]]; cbn [fst] in *.
  - eapply reads_trans; [exact Hf | apply Hk].
  - eapply reads_weaken; [|exact Hf]. lia.
Qed.

Section Reading.

Variable fr : string -> string.
Variable ft : string -> bool.
Variable opts : HostOptions.
Variable env : Env.

(** A relation kept by every step that does not read. *)
Lemma keeps_stdin_session_body session prompt context started note :
  pres (reads 0) (session_body fr ft opts env session prompt context started note).
Proof.
  intros s. apply reads_zero.
  apply (pres_session_body (fun s s' => stdin s' = stdin s)) with (allowed := fun _ => True);
    intros; try reflexivity; try exact I.
  congruence.
Qed.

Lemma reads_emit (t : string) (payload : fields_t) : pres (reads 0) (emit t payload).
Proof. intros s. now apply reads_same. Qed.

Lemma reads_log (message : string) : pres (reads 0) (log opts message).
Proof. intros s. apply reads_same. unfold log. now destruct (verbose opts). Qed.

Lemma reads_ret {A : Type} (n : nat) (a : A) : pres (reads n) (ret a).
Proof. intros s. now apply reads_same. Qed.

Lemma reads_when (b : bool) (m : M unit) : pres (reads 0) m -> pres (reads 0) (when b m).
Proof. intros H. destruct b; [exact H | apply reads_ret]. Qed.

Lemma reads_readline : pres (reads 1) readline.
Proof.
  intros s. unfold readline. destruct (stdin s) as [|line rest] eqn:E; cbn [fst].
  - now apply reads_same.
  - exists 1. split; [lia|]. cbn [stdin set_stdin]. now rewrite E.
Qed.

Lemma reads_read_line_with_timeout (t : Z) : pres (reads 1) (read_line_with_timeout env t).
Proof.
  assert (Hread : pres (reads 1)
                    (line <- readline ;; ret (if truthy line then Some line else None))).
  { apply (reads_bind 1 0); [apply reads_readline | intros line; apply reads_ret]. }
  unfold read_line_with_timeout. destruct (t <=? 0)%Z; [exact Hread|].
  apply (reads_bind 0 1); [intros s; now apply reads_same|].
  intros [| |]; [exact Hread | apply reads_ret | exact Hread].
Qed.

Lemma reads_read_response (default : string) :
  pres (reads 1) (read_response fr opts env default).
Proof.
  unfold read_response.
  apply (reads_bind 1 0); [apply reads_read_line_with_timeout|].
  intros [line|]; [apply reads_ret|].
  apply (reads_bind 0 0); [apply reads_log | intros _; apply reads_ret].
Qed.

Lemma reads_request_question (question context : string) (options : list string) :
  pres (reads 1) (request_question fr opts env question context options).
Proof.
  unfold request_question.
  apply (reads_bind 0 1); [intros s; now apply reads_same|]. intros counter.
  apply (reads_bind 0 1); [apply reads_emit | intros _; apply reads_read_response].
Qed.

Lemma reads_request_approval (description risk_level : string) :
  pres (reads 1) (request_approval fr opts env description risk_level).
Proof.
  unfold request_approval.
  apply (reads_bind 0 1); [intros s; now apply reads_same|]. intros counter.
  apply (reads_bind 0 1); [apply reads_emit|]. intros _.
  apply (reads_bind 1 0); [apply reads_read_response | intros response; apply reads_ret].
Qed.

Lemma reads_session_gate (session : Z) (prompt : string) :
  pres (reads (session_reads opts prompt)) (session_gate fr opts env session prompt).
Proof.
  unfold session_gate, session_reads.
  destruct (is_stream opts && interactive opts); cbn [andb].
  - destruct (looks_high_risk prompt).
    + apply (reads_bind 0 2); [apply reads_when, reads_emit|]. intros _.
      apply (reads_bind 1 1).
      * apply (reads_bind 1 0); [apply reads_request_question|]. intros note.
        apply (reads_bind 0 0); [apply reads_when, reads_emit | intros _; apply reads_ret].
      * intros note.
        apply (reads_bind 1 0); [apply reads_request_approval|]. intros approved.
        destruct (negb approved); [|apply reads_ret].
        apply (reads_bind 0 0); [apply reads_emit | intros _; apply reads_ret].
    + apply (reads_bind 0 1); [apply reads_when, reads_emit|]. intros _.
      apply (reads_bind 1 0); [|intros note; apply reads_ret].
      apply (reads_bind 1 0); [apply reads_request_question|]. intros note.
      apply (reads_bind 0 0); [apply reads_when, reads_emit | intros _; apply reads_ret].
  - apply (reads_bind 0 0); [apply reads_when, reads_emit|]. intros _.
    apply (reads_bind 0 0); [apply reads_ret | intros note; apply reads_ret].
Qed.

Lemma reads_process_prompt (session : Z) (prompt : string) (context : json) (started : Z) :
  pres (reads (session_reads opts prompt))
    (process_prompt fr ft opts env session prompt context started).
Proof.
  unfold process_prompt.
  replace (session_reads opts prompt) with (session_reads opts prompt + 0) by lia.
  apply reads_bind; [apply reads_session_gate|].
  intros [note|]; [apply keeps_stdin_session_body | apply reads_ret].
Qed.

Lemma reads_run_line (raw_line : string) :
  pres (reads (if starts_session fr raw_line
               then session_reads opts (prompt_of_line fr raw_line) else 0))
    (run_line fr ft opts env raw_line).
Proof.
  unfold run_line, starts_session, starts_exchange, prompt_of_line.
  destruct (is_empty (strip raw_line)); [apply reads_ret|].
  destruct (is_response _); [apply reads_log|]. cbn [negb andb].
  destruct (parse_prompt_input fr _ _) as [prompt context]. cbn [fst].
  destruct (is_empty prompt); [apply reads_emit|]. cbn [negb].
  apply (reads_bind 0 _); [intros s; now apply reads_same|]. intros _.
  apply (reads_bind 0 _); [intros s; now apply reads_same|]. intros session.
  apply (reads_bind 0 _); [intros s; now apply reads_same|]. intros started.
  intros s. unfold try_except.
  pose proof (reads_process_prompt session prompt context started s) as H.
  destruct (process_prompt fr ft opts env session prompt context started s)
    as [s1 [[]|exc]]; cbn [fst] in *; [exact H|].
  destruct H as (k & Hk & H). exists k. split; [exact Hk | exact H].
Qed.

End Reading.

(** X6.  When the agent has a standard input of its own, a session reads
    at most two lines of the input, the answer to the question and the
    answer to the approval request, and what is left of the input is the
    input without its first lines.  It reads at most one line when the
    prompt is not high-risk, and none unless the mode is [stream] and the
    host is interactive. *)
Theorem X6_session_reads_at_most_two_lines :
  forall (fr : string -> string) (ft : string -> bool) (opts : HostOptions) (env : Env)
         (session : Z) (prompt : string) (context : json) (started : Z) (s : State),
    agent_has_own_stdin opts = true ->
    exists k : nat,
      stdin (exec (process_prompt fr ft opts env session prompt context started) s)
      = skipn k (stdin s)
      /\ k <= 2
      /\ (looks_high_risk prompt = false -> k <= 1)
      /\ (is_stream opts && interactive opts = false -> k = 0).
Proof.
  intros fr ft opts env session prompt context started s _.
  destruct (reads_process_prompt fr ft opts env session prompt context started s)
    as (k & Hk & H).
  exists k. split; [exact H|]. unfold session_reads in Hk.
  destruct (is_stream opts && interactive opts), (looks_high_risk prompt);
    repeat split; intros; try discriminate; lia.
Qed.

Lemma X6_session_reads_witness :
  exists k : nat,
    stdin (exec (process_prompt literal_repr literal_truth mock_interactive_options
                   (agent_env "" "") 1 "add a test" JNull 0)
             (init_state ["be careful"; "next prompt"]))
    = skipn k ["be careful"; "next prompt"]
    /\ k <= 1.
Proof.
  destruct (X6_session_reads_at_most_two_lines literal_repr literal_truth
              mock_interactive_options (agent_env "" "") 1%Z "add a test" JNull 0%Z
              (init_state ["be careful"; "next prompt"]) eq_refl)
    as (k & Hk & _ & Hone & _).
  exists k. split; [exact Hk | apply Hone; reflexivity].
Defined.

Section Counting.

Variable fr : string -> string.
Variable ft : string -> bool.
Variable opts : HostOptions.
Variable env : Env.

Lemma run_line_counter (raw_line : string) (s : State) :
  session_counter (exec (run_line fr ft opts env raw_line) s)
  = (session_counter s + if starts_session fr raw_line then 1 else 0)%Z.
Proof.
  destruct (starts_session fr raw_line) eqn:E.
  - unfold starts_session, starts_exchange, prompt_of_line in E.
    apply andb_prop in E. destruct E as [E Hp]. apply andb_prop in E.
    destruct E as [Hne Hr]. apply negb_true_iff in Hne, Hr, Hp.
    apply run_line_starts_session; [| exact Hr |].
    + intros H. rewrite H in Hne. discriminate.
    + intros H. rewrite H in Hp. discriminate.
  - rewrite Z.add_0_r. unfold starts_session, starts_exchange, prompt_of_line in E.
    unfold exec, run_line.
    destruct (is_empty (strip raw_line)); [reflexivity|].
    destruct (is_response _); [unfold log; now destruct (verbose opts)|].
    destruct (parse_prompt_input fr _ _) as [prompt context]. cbn [fst] in E.
    destruct (is_empty prompt); [reflexivity | discriminate].
Qed.

Lemma run_loop_session_count (fuel : nat) (s s' : State) :
  run_loop fr ft opts env fuel s = Some s' ->
  session_counter s'
  = (session_counter s
     + Z.of_nat (length (filter (starts_session fr)
                           (main_loop_lines fr ft opts env fuel s))))%Z.
Proof.
  revert s; induction fuel as [|fuel IH]; intros s; simpl; [discriminate|].
  destruct (stdin s) as [|raw_line rest] eqn:E.
  - intros [= <-]. simpl. lia.
  - intros Hrun. rewrite (IH _ Hrun), run_line_counter. cbn [session_counter set_stdin].
    simpl. destruct (starts_session fr raw_line); simpl length; lia.
Qed.

Lemma main_loop_lines_without_mediator (fuel : nat) (s : State) :
  is_stream opts && interactive opts = false ->
  length (stdin s) < fuel ->
  main_loop_lines fr ft opts env fuel s = stdin s.
Proof.
  intros Hmode. revert s; induction fuel as [|fuel IH]; intros s Hlen; [lia|].
  simpl. destruct (stdin s) as [|raw_line rest] eqn:E; [reflexivity|].
  assert (Hrest : stdin (exec (run_line fr ft opts env raw_line) (set_stdin rest s)) = rest).
  { pose proof (reads_run_line fr ft opts env raw_line (set_stdin rest s)) as H.
    unfold session_reads in H. rewrite Hmode in H.
    destruct (starts_session fr raw_line); now apply reads_zero in H. }
  rewrite IH; [now rewrite Hrest|]. rewrite Hrest. simpl in Hlen. lia.
Qed.

End Counting.

Lemma run_start_state (opts : HostOptions) (input : list string) :
  stdin (run_start opts (init_state input)) = input
  /\ stdout (run_start opts (init_state input)) = []
  /\ session_counter (run_start opts (init_state input)) = 0%Z.
Proof. unfold run_start, exec, log. now destruct (verbose opts). Qed.

Lemma run_counts (fr : string -> string) (ft : string -> bool) (opts : HostOptions)
      (env : Env) (input : list string) :
  exists s',
    run fr ft opts env (init_state input) = Some s'
    /\ terminal_count (stdout s')
       = length (filter starts_exchange
                   (main_loop_lines fr ft opts env (S (length input))
                      (run_start opts (init_state input))))
    /\ session_counter s'
       = Z.of_nat (length (filter (starts_session fr)
                             (main_loop_lines fr ft opts env (S (length input))
                                (run_start opts (init_state input))))).
Proof.
  destruct (run_total fr ft opts env (init_state input)) as (s' & Hrun & _).
  exists s'. split; [exact Hrun|].
  unfold run in Hrun. fold (run_start opts (init_state input)) in Hrun.
  destruct (run_start_state opts input) as (Hin & Hout & Hc). rewrite Hin in Hrun.
  rewrite (run_loop_terminal_count fr ft opts env _ _ _ Hrun), Hout.
  rewrite (run_loop_session_count fr ft opts env _ _ _ Hrun), Hc.
  split; reflexivity.
Qed.

Lemma run_counts_without_mediator (fr : string -> string) (ft : string -> bool)
      (opts : HostOptions) (env : Env) (input : list string) :
  is_stream opts && interactive opts = false ->
  exists s',
    run fr ft opts env (init_state input) = Some s'
    /\ terminal_count (stdout s') = length (filter starts_exchange input)
    /\ session_counter s' = Z.of_nat (length (filter (starts_session fr) input)).
Proof.
  intros Hmode.
  destruct (run_counts fr ft opts env input) as (s' & Hrun & Ht & Hc). exists s'.
  destruct (run_start_state opts input) as (Hin & _).
  rewrite main_loop_lines_without_mediator in Ht, Hc; try assumption;
    try (rewrite Hin; lia).
  rewrite Hin in Ht, Hc. now repeat split.
Qed.

(** X7.  When the agent has a standard input of its own and every line of
    the input is a line of the model, the run ends and its session counter
    is then the number of lines read by the main loop that start a session:
    lines that are not blank, do not declare themselves responses and give
    a non-empty prompt.  When the agent has a standard input of its own,
    the lines of the input are within the limits of the parser and the
    host is not both in [stream] mode and interactive, the main loop reads
    every line of the input, so the run writes one terminal message for
    each input line that is not blank and does not declare itself a
    response, and the counter is the number of input lines that start a
    session. *)
Theorem X7_sessions_are_counted :
  (forall (fr : string -> string) (ft : string -> bool) (opts : HostOptions) (env : Env)
          (input : list string),
      agent_has_own_stdin opts = true ->
      forallb line_in_model input = true ->
      exists s',
        run fr ft opts env (init_state input) = Some s'
        /\ session_counter s'
           = Z.of_nat (length (filter (starts_session fr)
                                 (main_loop_lines fr ft opts env (S (length input))
                                    (run_start opts (init_state input))))))
  /\ (forall (fr : string -> string) (ft : string -> bool) (opts : HostOptions) (env : Env)
             (input : list string),
         agent_has_own_stdin opts = true ->
         forallb within_parser_limits input = true ->
         is_stream opts && interactive opts = false ->
         exists s',
           run fr ft opts env (init_state input) = Some s'
           /\ terminal_count (stdout s') = length (filter starts_exchange input)
           /\ session_counter s' = Z.of_nat (length (filter (starts_session fr) input))).
Proof.
  split.
  - intros fr ft opts env input _ _.
    destruct (run_counts fr ft opts env input) as (s' & Hrun & _ & Hc). now exists s'.
  - intros fr ft opts env input _ _. apply run_counts_without_mediator.
Qed.

Lemma X7_sessions_are_counted_witness :
  exists s',
    run literal_repr literal_truth mock_options idle_env
      (init_state ["first task"; ""; dq "{'prompt':''}"; dq "{'type':'response'}";
                   "second task"])
    = Some s'
    /\ terminal_count (stdout s') = 3
    /\ session_counter s' = 2%Z.
Proof.
  refine (proj2 X7_sessions_are_counted literal_repr literal_truth mock_options idle_env
            ["first task"; ""; dq "{'prompt':''}"; dq "{'type':'response'}"; "second task"]
            eq_refl _ eq_refl).
  vm_compute. reflexivity.
Defined.

(** ** The mediator when no response comes *)




Section Unanswered.

Variable fr : string -> string.
Variable opts : HostOptions.
Variable env : Env.






End Unanswered.



(** ** The outcomes of an invocation *)

Lemma build_command_head (fr : string -> string) (opts : HostOptions) (prompt : string) :
  exists rest, fst (build_command fr opts prompt) = claude_command opts :: rest.
Proof.
  unfold build_command.
  destruct (existsb _ (claude_args opts)); [now eexists|].
  destruct (String.eqb (prompt_mode opts) "stdin"); [now eexists|].
  destruct (String.eqb (prompt_mode opts) "json-stdin"); now eexists.
Qed.

Lemma invoke_claude_real (fr : string -> string) (opts : HostOptions) (env : Env)
      (prompt : string) (s : State) :
  mock opts = false ->
  snd (invoke_claude fr opts env prompt s)
  = match agent_answer fr opts env prompt s with
    | FileNotFound => inr ("Claude command not found: " ++ claude_command opts)
    | TimeoutExpired =>
        inr ("Claude command timed out after " ++ str_of_Z (timeout_secs opts) ++ "s")
    | OtherError msg => inr msg
    | Completed returncode out err =>
        if (returncode =? 0)%Z
        then inl (out, err, fst (build_command fr opts prompt))
        else inr ("Claude command failed: " ++ failure_detail returncode out err)
    end.
Proof.
  intros Hmock. unfold invoke_claude, agent_answer, failure_detail. rewrite Hmock.
  destruct (build_command fr opts prompt) as [argv payload]. cbn [fst snd].
  unfold bind, log, run_subprocess.
  destruct (verbose opts); cbn [modify ret ticks set_stderr fst snd];
    destruct (subprocess_run env (ticks s) argv payload (invoke_timeout opts));
    try reflexivity;
    destruct (returncode =? 0)%Z; reflexivity.
Qed.

Lemma invoke_claude_argv (fr : string -> string) (opts : HostOptions) (env : Env)
      (prompt : string) (s s' : State) (out err : string) (argv : list string) :
  invoke_claude fr opts env prompt s = (s', inl (out, err, argv)) ->
  exists rest, argv = claude_command opts :: rest.
Proof.
  intros H. destruct (mock opts) eqn:Hmock.
  - unfold invoke_claude in H. rewrite Hmock in H. injection H as _ _ _ <-. now eexists.
  - pose proof (invoke_claude_real fr opts env prompt s Hmock) as Hr.
    rewrite H in Hr. cbn [snd] in Hr.
    destruct (agent_answer fr opts env prompt s); try discriminate.
    destruct (returncode =? 0)%Z; [|discriminate].
    injection Hr as _ _ ->. apply build_command_head.
Qed.

Lemma failure_detail_nonempty (returncode : Z) (out err : string) :
  failure_detail returncode out err <> EmptyString.
Proof.
  unfold failure_detail.
  destruct (truthy (strip err)) eqn:E1; [now apply truthy_not_empty|].
  destruct (truthy (strip out)) eqn:E2; [now apply truthy_not_empty | discriminate].
Qed.

(** X9.  Outside mock mode, [invoke_claude] returns exactly when the agent
    completes with exit code 0, and then it returns the output and the
    diagnostics of the agent and an argument vector that starts with the
    configured command.  A non-zero exit code raises
    [Claude command failed:] followed by a detail that is never empty: the
    trimmed diagnostics when they are not blank, else the trimmed output
    when it is not blank, else the exit code.  A missing command raises
    [Claude command not found:] followed by the command.  In every case the
    invocation writes no message and leaves history and session counter as
    they are. *)
Theorem X9_invoke_claude_outcomes :
  forall (fr : string -> string) (opts : HostOptions) (env : Env) (prompt : string)
         (s : State),
    mock opts = false ->
    ((exists r, snd (invoke_claude fr opts env prompt s) = inl r)
     <-> exists out err, agent_answer fr opts env prompt s = Completed 0 out err)
    /\ (forall out err,
           agent_answer fr opts env prompt s = Completed 0 out err ->
           exists rest,
             snd (invoke_claude fr opts env prompt s)
             = inl (out, err, claude_command opts :: rest))
    /\ (forall returncode out err,
           agent_answer fr opts env prompt s = Completed returncode out err ->
           returncode <> 0%Z ->
           snd (invoke_claude fr opts env prompt s)
           = inr ("Claude command failed: " ++ failure_detail returncode out err)
           /\ failure_detail returncode out err <> EmptyString
           /\ (strip err <> EmptyString -> failure_detail returncode out err = strip err)
           /\ (strip err = EmptyString -> strip out <> EmptyString ->
               failure_detail returncode out err = strip out))
    /\ (agent_answer fr opts env prompt s = FileNotFound ->
        snd (invoke_claude fr opts env prompt s)
        = inr ("Claude command not found: " ++ claude_command opts))
    /\ quiet s (fst (invoke_claude fr opts env prompt s)).
Proof.
  intros fr opts env prompt s Hmock.
  pose proof (invoke_claude_real fr opts env prompt s Hmock) as Hr.
  split; [|split; [|split; [|split]]].
  - rewrite Hr. split.
    + intros [r H]. destruct (agent_answer fr opts env prompt s); try discriminate.
      destruct (Z.eqb_spec returncode 0) as [->|]; [now eexists; eexists | discriminate].
    + intros (out & err & ->). now eexists.
  - intros out err H. rewrite Hr, H. cbn.
    destruct (build_command_head fr opts prompt) as [rest ->]. now exists rest.
  - intros returncode out err H Hne. rewrite Hr, H.
    destruct (Z.eqb_spec returncode 0) as [|_]; [contradiction|].
    split; [reflexivity|]. split; [apply failure_detail_nonempty|].
    unfold failure_detail. split.
    + intros He. apply truthy_not_empty in He. now rewrite He.
    + intros He Ho. rewrite He. apply truthy_not_empty in Ho. cbn. now rewrite Ho.
  - intros H. now rewrite Hr, H.
  - apply quiet_invoke_claude.
Qed.

Lemma X9_invoke_claude_outcomes_witness :
  snd (invoke_claude literal_repr default_options
         {| time_ms := fun _ => 0%Z; select := fun _ _ => Ready;
            subprocess_run := fun _ _ _ _ => Completed 2 " partial output " "  " |}
         "Task: x" (init_state []))
  = inr "Claude command failed: partial output".
Proof.
  refine (proj1 (proj1 (proj2 (proj2 (X9_invoke_claude_outcomes literal_repr default_options
            {| time_ms := fun _ => 0%Z; select := fun _ _ => Ready;
               subprocess_run := fun _ _ _ _ => Completed 2 " partial output " "  " |}
            "Task: x" (init_state []) eq_refl)))
            2%Z " partial output " "  " eq_refl _)).
  discriminate.
Defined.

Section ResultMessage.

Variable fr : string -> string.
Variable ft : string -> bool.
Variable opts : HostOptions.
Variable env : Env.

Lemma session_body_result session prompt context started note s s' :
  session_body fr ft opts env session prompt context started note s = (s', inl tt) ->
  exists before raw elapsed,
    stdout s'
    = (before ++ [result_message session (fst (fst (parse_claude_output fr ft raw)))
                    elapsed (claude_command opts)])%list.
Proof.
  unfold session_body. rewrite bind_gets.
  match goal with
  | |- context [bind ?m ?k s] =>
      destruct (bind_total quiet m k) with (s := s) as (s1 & [] & Hq1 & _ & ->)
  end.
  { apply total_when, total_emit. }
  { apply (pres_when quiet quiet_refl), quiet_emit_step; split; discriminate. }
  match goal with
  | |- context [bind ?m ?k s1] =>
      destruct (bind_pres quiet m k) with (s := s1)
        as [(s2 & [[raw err] argv] & Hq2 & Hinv & ->) | (s2 & exc & Hq2 & _ & ->)]
  end.
  { apply quiet_invoke_claude. }
  2:{ discriminate. }
  destruct (invoke_claude_argv _ _ _ _ _ _ _ _ _ Hinv) as [rest ->].
  destruct (parse_claude_output fr ft raw) as [[text partials] markers] eqn:Eparse.
  match goal with
  | |- context [bind ?m ?k s2] =>
      destruct (bind_total quiet m k) with (s := s2) as (s3 & [] & Hq3 & _ & ->)
  end.
  { apply total_when, total_bind; [apply total_emit_markers|].
    intros _. apply total_emit_partials. }
  { apply (pres_when quiet quiet_refl), (pres_bind quiet quiet_trans).
    - apply quiet_emit_markers.
    - intros _. apply quiet_emit_partials. }
  unfold time, emit, record_history. unfold bind at 1. rewrite !bind_modify.
  match goal with
  | |- context [when ?b (log opts ?msg) ?X] =>
      destruct (when_log_spec opts b msg X) as (s4 & -> & Ho & _)
  end.
  intros [= <-]. exists (stdout s3), raw. eexists.
  rewrite Ho. cbn [stdout set_history set_stdout tick]. rewrite Eparse. reflexivity.
Qed.

End ResultMessage.

(** X10.  Every session body that completes ends by writing a [result]
    message that carries the session, a text that is not empty and has no
    blanks around it, and as command the configured command of the
    agent. *)
Theorem X10_result_message :
  forall (fr : string -> string) (ft : string -> bool) (opts : HostOptions) (env : Env)
         (session : Z) (prompt : string) (context : json) (started : Z) (note : string)
         (s s' : State),
    session_body fr ft opts env session prompt context started note s = (s', inl tt) ->
    exists (before : list json) (text : string) (elapsed : Z),
      stdout s' = (before ++ [result_message session text elapsed (claude_command opts)])%list
      /\ text <> EmptyString
      /\ strip text = text.
Proof.
  intros fr ft opts env session prompt context started note s s' H.
  destruct (session_body_result fr ft opts env _ _ _ _ _ _ _ H)
    as (before & raw & elapsed & Ho).
  exists before, (fst (fst (parse_claude_output fr ft raw))), elapsed.
  split; [exact Ho|].
  apply parse_claude_output_text.
Qed.

Lemma X10_result_message_witness :
  exists (before : list json) (text : string) (elapsed : Z),
    stdout (fst (session_body literal_repr literal_truth default_options
                   (agent_env "  All tests pass.  " "") 3 "fix the bug" JNull 0
                   EmptyString (init_state [])))
    = (before ++ [result_message 3 text elapsed (claude_command default_options)])%list
    /\ text <> EmptyString
    /\ strip text = text.
Proof.
  exact (X10_result_message literal_repr literal_truth default_options
           (agent_env "  All tests pass.  " "") 3%Z "fix the bug" JNull 0%Z EmptyString
           (init_state [])
           (fst (session_body literal_repr literal_truth default_options
                   (agent_env "  All tests pass.  " "") 3 "fix the bug" JNull 0
                   EmptyString (init_state [])))
           eq_refl).
Defined.

(** ** The composed prompt *)

Lemma lastn_lastn {A : Type} (n : nat) (l : list A) : lastn n (lastn n l) = lastn n l.
Proof.
  unfold lastn at 1. rewrite lastn_length.
  replace (Nat.min n (length l) - n) with 0 by lia. reflexivity.
Qed.

Lemma lastn_nil_iff {A : Type} (n : nat) (l : list A) :
  0 < n -> (lastn n l = [] <-> l = []).
Proof.
  intros Hn. split; [|now intros ->].
  intros H. apply (f_equal (@length A)) in H. rewrite lastn_length in H.
  destruct l; [reflexivity | simpl in H; lia].
Qed.

Lemma join_cons (sep x : string) (l : list string) :
  l <> [] -> join sep (x :: l) = x ++ sep ++ join sep l.
Proof. destruct l; [congruence | reflexivity]. Qed.

Lemma join_app (sep : string) (a b : list string) :
  a <> [] -> b <> [] -> join sep (a ++ b)%list = join sep a ++ sep ++ join sep b.
Proof.
  intros Ha Hb. induction a as [|x a IH]; [congruence|].
  destruct a as [|y a].
  - cbn [app]. now rewrite join_cons.
  - change ((x :: y :: a) ++ b)%list with (x :: ((y :: a) ++ b))%list.
    rewrite join_cons by (cbn; discriminate).
    rewrite IH by discriminate.
    rewrite (join_cons sep x (y :: a)) by discriminate.
    now rewrite !append_assoc.
Qed.

Lemma append_empty_r (s : string) : s ++ EmptyString = s.
Proof. induction s as [|c s IH]; simpl; [reflexivity | now rewrite IH]. Qed.

Lemma join_middle (sep x : string) (before after : list string) :
  exists b a,
    join sep (before ++ x :: after)%list = b ++ x ++ a
    /\ (before = [] -> b = EmptyString)
    /\ (before <> [] -> b = join sep before ++ sep).
Proof.
  assert (Htail : exists a, join sep (x :: after) = x ++ a).
  { destruct after; [exists EmptyString; cbn; now rewrite append_empty_r|].
    eexists. now rewrite join_cons. }
  destruct Htail as [a Ha].
  destruct before as [|y before].
  - exists EmptyString, a. cbn [app]. split; [exact Ha|]. split; congruence.
  - exists (join sep (y :: before) ++ sep), a.
    rewrite join_app by discriminate. rewrite Ha, !append_assoc.
    split; [reflexivity|]. split; congruence.
Qed.

Lemma history_sections_app (idx : Z) (a b : list HistoryEntry) :
  history_sections idx (a ++ b)
  = (history_sections idx a ++ history_sections (idx + Z.of_nat (length a)) b)%list.
Proof.
  revert idx; induction a as [|x a IH]; intros idx.
  - cbn. now rewrite Z.add_0_r.
  - cbn [app history_sections length]. rewrite IH.
    replace (idx + 1 + Z.of_nat (length a))%Z with (idx + Z.of_nat (S (length a)))%Z by lia.
    reflexivity.
Qed.

Section Composer.

Variable fr : string -> string.
Variable opts : HostOptions.

Lemma compose_prompt_trims_note (hist : list HistoryEntry) (prompt : string) (context : json)
      (note : string) :
  compose_prompt fr opts hist prompt context (strip note)
  = compose_prompt fr opts hist prompt context note.
Proof. unfold compose_prompt. now rewrite strip_idempotent. Qed.

Lemma compose_prompt_window (hist : list HistoryEntry) (prompt : string) (context : json)
      (note : string) :
  (0 < history_turns opts)%Z ->
  compose_prompt fr opts (lastn (Z.to_nat (history_turns opts)) hist) prompt context note
  = compose_prompt fr opts hist prompt context note.
Proof.
  intros Hk. unfold compose_prompt. rewrite lastn_lastn.
  assert (Hnil : match lastn (Z.to_nat (history_turns opts)) hist with
                 | [] => false | _ => true end
                 = match hist with [] => false | _ => true end).
  { pose proof (lastn_nil_iff (Z.to_nat (history_turns opts)) hist ltac:(lia)) as H.
    destruct hist as [|h hist]; [reflexivity|].
    destruct (lastn _ (h :: hist)); [|reflexivity].
    destruct H as [H _]. discriminate (H eq_refl). }
  now rewrite Hnil.
Qed.

Lemma compose_prompt_task (hist : list HistoryEntry) (prompt : string) (context : json)
      (note : string) :
  exists before after,
    compose_prompt fr opts hist prompt context note
    = before ++ "Task:" ++ newline ++ prompt ++ after
    /\ (carry_history opts = false \/ hist = [] \/ (history_turns opts <= 0)%Z ->
        before = EmptyString).
Proof.
  unfold compose_prompt.
  match goal with
  | |- context [join ?sep (?h ++ [?t] ++ ?g ++ ?c)%list] =>
      destruct (join_middle sep t h (g ++ c)) as (b & a & Hj & Hnil & _)
  end.
  exists b, a. cbn [app] in *. split.
  - rewrite Hj. now rewrite !append_assoc.
  - intros Hcase. apply Hnil.
    destruct Hcase as [-> | [-> | Hk]]; [reflexivity | now rewrite andb_false_r |].
    destruct (Z.ltb_spec 0 (history_turns opts)); [lia|]. now rewrite andb_false_r.
Qed.

Lemma compose_prompt_after_record (hist : list HistoryEntry) (last_prompt last_result : string)
      (prompt : string) (context : json) (note : string) :
  carry_history opts = true -> (0 < history_turns opts)%Z ->
  exists before idx after,
    compose_prompt fr opts (record opts hist last_prompt last_result) prompt context note
    = before ++ history_line idx (history_entry last_prompt last_result)
      ++ newline ++ newline ++ "Task:" ++ newline ++ prompt ++ after.
Proof.
  intros Hcarry Hk.
  destruct (record_appends opts hist last_prompt last_result Hcarry)
    as (dropped & kept & _ & Hrec).
  destruct (lastn_snoc (Z.to_nat (history_turns opts)) kept
              (history_entry last_prompt last_result) ltac:(lia))
    as (dropped' & shown & _ & Hlast).
  unfold compose_prompt. rewrite Hcarry, Hrec, Hlast.
  destruct (Z.ltb_spec 0 (history_turns opts)); [|lia].
  assert (Hne : match (kept ++ [history_entry last_prompt last_result])%list with
                | [] => false | _ => true end = true) by (now destruct kept).
  rewrite Hne. cbn [andb].
  rewrite history_sections_app. cbn [history_sections].
  set (idx := (1 + Z.of_nat (length shown))%Z).
  fold (history_line idx (history_entry last_prompt last_result)).
  set (line := history_line idx (history_entry last_prompt last_result)).
  set (head := ("Recent middleware history:" :: history_sections 1 shown)).
  match goal with
  | |- context [join ?sep (_ ++ [?t] ++ ?g ++ ?c)%list] =>
      set (tail := (g ++ c)%list); set (task := t)
  end.
  change (("Recent middleware history:" :: (history_sections 1 shown ++ [line]))
          ++ [task] ++ tail)%list
    with ((head ++ [line]) ++ task :: tail)%list.
  rewrite <- app_assoc. cbn [app].
  destruct (join_middle (newline ++ newline) line head (task :: tail))
    as (b & a & Hj & _ & _).
  assert (Ha : exists a', join (newline ++ newline) (line :: task :: tail)
                          = line ++ (newline ++ newline) ++ task ++ a').
  { rewrite join_cons by discriminate.
    destruct (join_middle (newline ++ newline) task [] tail) as (b' & a' & Hj' & Hb' & _).
    cbn [app] in Hj'. rewrite Hj', (Hb' eq_refl). now exists a'. }
  destruct Ha as [a' Ha].
  rewrite join_app by discriminate.
  rewrite Ha.
  exists (join (newline ++ newline) head ++ newline ++ newline), idx, a'.
  unfold task. now rewrite !append_assoc.
Qed.

End Composer.

(** X11.  The composed prompt does not depend on the blanks around the
    supervisor guidance, and it depends on the history only through its
    last [history_turns] entries.  It always contains the section [Task:]
    followed by the prompt, and it starts with that section when history is
    not carried, the history is empty, or [history_turns] is not
    positive. *)
Theorem X11_compose_prompt_sections :
  forall (fr : string -> string) (opts : HostOptions) (hist : list HistoryEntry)
         (prompt : string) (context : json) (note : string),
    compose_prompt fr opts hist prompt context (strip note)
    = compose_prompt fr opts hist prompt context note
    /\ ((0 < history_turns opts)%Z ->
        compose_prompt fr opts (lastn (Z.to_nat (history_turns opts)) hist) prompt context
          note
        = compose_prompt fr opts hist prompt context note)
    /\ (exists before after,
           compose_prompt fr opts hist prompt context note
           = before ++ "Task:" ++ newline ++ prompt ++ after
           /\ (carry_history opts = false \/ hist = [] \/ (history_turns opts <= 0)%Z ->
               before = EmptyString)).
Proof.
  intros fr opts hist prompt context note.
  split; [apply compose_prompt_trims_note|].
  split; [apply compose_prompt_window | apply compose_prompt_task].
Qed.

Lemma X11_compose_prompt_witness :
  compose_prompt literal_repr default_options
    (lastn (Z.to_nat (history_turns default_options))
       [history_entry "a" "1"; history_entry "b" "2"; history_entry "c" "3";
        history_entry "d" "4"])
    "next" JNull EmptyString
  = compose_prompt literal_repr default_options
      [history_entry "a" "1"; history_entry "b" "2"; history_entry "c" "3";
       history_entry "d" "4"]
      "next" JNull EmptyString.
Proof.
  refine (proj1 (proj2 (X11_compose_prompt_sections literal_repr default_options
                          [history_entry "a" "1"; history_entry "b" "2";
                           history_entry "c" "3"; history_entry "d" "4"]
                          "next" JNull EmptyString)) _).
  reflexivity.
Defined.

(** X12.  With history carrying enabled and a positive [history_turns],
    the entry that [record_history] has just appended is the last history
    item of the next composed prompt: its numbered line, with the summaries
    of the prompt and of the result of that session, stands right before
    the section [Task:] of the new prompt. *)
Theorem X12_history_feeds_next_prompt :
  forall (fr : string -> string) (opts : HostOptions) (hist : list HistoryEntry)
         (last_prompt last_result prompt : string) (context : json) (note : string),
    carry_history opts = true -> (0 < history_turns opts)%Z ->
    exists before idx after,
      compose_prompt fr opts (record opts hist last_prompt last_result) prompt context note
      = before
        ++ str_of_Z idx ++ ". Prompt: " ++ summarize last_prompt 300 ++ newline
        ++ "   Result: " ++ summarize last_result 300
        ++ newline ++ newline ++ "Task:" ++ newline ++ prompt ++ after.
Proof.
  intros fr opts hist last_prompt last_result prompt context note Hcarry Hk.
  destruct (compose_prompt_after_record fr opts hist last_prompt last_result prompt context
              note Hcarry Hk) as (before & idx & after & H).
  exists before, idx, after. rewrite H. unfold history_line, history_entry.
  cbn [prompt_summary result_summary]. now rewrite !append_assoc.
Qed.

Lemma X12_history_feeds_next_prompt_witness :
  exists before idx after,
    compose_prompt literal_repr default_options
      (record default_options [history_entry "a" "1"] "fix the bug" "done") "next" JNull
      EmptyString
    = before
      ++ str_of_Z idx ++ ". Prompt: " ++ summarize "fix the bug" 300 ++ newline
      ++ "   Result: " ++ summarize "done" 300
      ++ newline ++ newline ++ "Task:" ++ newline ++ "next" ++ after.
Proof.
  refine (X12_history_feeds_next_prompt literal_repr default_options
            [history_entry "a" "1"] "fix the bug" "done" "next" JNull EmptyString
            eq_refl _).
  reflexivity.
Defined.

(** ** The sources of an empty prompt *)

Lemma string_of_uint_nonempty (d : Decimal.uint) :
  d <> Decimal.Nil -> NilEmpty.string_of_uint d <> EmptyString.
Proof. destruct d; intros H; try discriminate. congruence. Qed.

Lemma str_of_Z_nonempty (z : Z) : str_of_Z z <> EmptyString.
Proof.
  unfold str_of_Z, NilZero.string_of_int, NilZero.string_of_uint.
  destruct (Z.to_int z) as [d|d]; [|discriminate].
  destruct d; discriminate.
Qed.

Lemma dumps_sep_nonempty (fr : string -> string) (item_sep key_sep : string) (v : json) :
  (forall lit, fr lit <> EmptyString) ->
  dumps_sep fr item_sep key_sep v <> EmptyString.
Proof.
  intros Hfr. destruct v; cbn [dumps_sep]; try discriminate.
  - destruct b; discriminate.
  - apply str_of_Z_nonempty.
  - unfold float_json.
    destruct (String.eqb (fr lit) "nan"); [discriminate|].
    destruct (String.eqb (fr lit) "inf"); [discriminate|].
    destruct (String.eqb (fr lit) "-inf"); [discriminate | apply Hfr].
Qed.

(** X13.  When floats never print as the empty text, the prompt that
    [parse_prompt_input] gives is empty in two cases only: the line is an
    object whose [prompt] is the empty text, or the line itself is empty
    and is not an object with a [prompt].  For an object whose [prompt] is
    a text, the prompt is that text and the context is the field [context]
    of the object; for anything without a [prompt] the prompt is the line
    and there is no context. *)
Theorem X13_empty_prompt_sources :
  forall (fr : string -> string) (line : string) (parsed : json),
    (forall lit, fr lit <> EmptyString) ->
    (fst (parse_prompt_input fr line parsed) = EmptyString
     <-> (exists d, parsed = JDict d /\ lookup "prompt" d = Some (JStr EmptyString))
         \/ (line = EmptyString
             /\ forall d, parsed = JDict d -> lookup "prompt" d = None))
    /\ (forall d text,
           parsed = JDict d -> lookup "prompt" d = Some (JStr text) ->
           parse_prompt_input fr line parsed = (text, get d "context"))
    /\ ((forall d, parsed = JDict d -> lookup "prompt" d = None) ->
        parse_prompt_input fr line parsed = (line, JNull)).
Proof.
  intros fr line parsed Hfr. unfold parse_prompt_input.
  destruct parsed as [| | | | | |d];
    try (split; [split; [intros H; right; split; [exact H | discriminate]
                        |intros [(d & Hd & _) | [H _]]; [discriminate | exact H]]
                |split; [discriminate | reflexivity]]).
  unfold has_key, get_or.
  destruct (lookup "prompt" d) as [v|] eqn:E; cbn [fst].
  - split; [|split].
    + split.
      * intros H. left. exists d. split; [reflexivity|].
        destruct v; try (now apply dumps_sep_nonempty in H). now subst.
      * intros [(d' & [= <-] & Hl) | [_ Hn]].
        -- rewrite E in Hl. now injection Hl as ->.
        -- specialize (Hn d eq_refl). congruence.
    + intros d' text [= <-] Hl. rewrite E in Hl. now injection Hl as ->.
    + intros Hn. specialize (Hn d eq_refl). congruence.
  - split; [|split].
    + split.
      * intros H. right. split; [exact H|]. now intros d' [= <-].
      * intros [(d' & [= <-] & Hl) | [H _]]; [congruence | exact H].
    + intros d' text [= <-] Hl. congruence.
    + reflexivity.
Qed.

Lemma X13_empty_prompt_witness :
  parse_prompt_input (fun _ => "1.5") "ignored"
    (JDict [("prompt", JStr "fix it"); ("context", JInt 7)])
  = ("fix it", JInt 7).
Proof.
  refine (proj1 (proj2 (X13_empty_prompt_sources (fun _ => "1.5") "ignored"
                          (JDict [("prompt", JStr "fix it"); ("context", JInt 7)]) _))
            [("prompt", JStr "fix it"); ("context", JInt 7)] "fix it" eq_refl eq_refl).
  discriminate.
Defined.

(** ** Compaction as a closure *)

Lemma last_value_In (c : list string) (v : string) : last_value c = Some v -> In v c.
Proof.
  induction c as [|a c IH]; [discriminate|]. simpl.
  destruct c as [|b c]; [intros [= ->]; now left | intros H; right; now apply IH].
Qed.

Lemma compact_into_fixed (values compact : list string) :
  Forall (fun v => v <> EmptyString) values ->
  no_adjacent_dup values ->
  (forall v rest, values = v :: rest -> last_value compact <> Some v) ->
  compact_into compact values = (compact ++ values)%list.
Proof.
  revert compact; induction values as [|v values IH]; intros compact Hne Hdup Hlast.
  - cbn. now rewrite app_nil_r.
  - inversion Hne as [|? ? Hv Hrest]; subst. cbn [compact_into].
    rewrite (is_empty_false _ Hv).
    assert (Hstep : compact_into (compact ++ [v]) values = ((compact ++ [v]) ++ values)%list).
    { apply IH; [exact Hrest | destruct values; [exact I | apply Hdup] |].
      intros w rest ->. rewrite last_value_snoc. destruct Hdup as [Hvw _]. congruence. }
    rewrite <- app_assoc in Hstep. cbn [app] in Hstep.
    destruct (last_value compact) as [l|] eqn:El; [|exact Hstep].
    destruct (String.eqb_spec l v) as [->|_]; [|exact Hstep].
    exfalso. now apply (Hlast v values).
Qed.

Lemma compact_into_In (values compact : list string) (v : string) :
  In v (compact_into compact values)
  <-> In v compact \/ (In v values /\ v <> EmptyString).
Proof.
  revert compact; induction values as [|w values IH]; intros compact; cbn [compact_into].
  - simpl. tauto.
  - assert (Hsnoc : w <> EmptyString ->
                    (In v (compact_into (compact ++ [w]) values)
                     <-> In v compact \/ (In v (w :: values) /\ v <> EmptyString))).
    { intros Hw. rewrite IH, in_app_iff. simpl. split.
      - intros [[H | [-> | []]] | [H1 H2]]; auto.
      - intros [H | [[<- | H1] H2]]; auto. }
    destruct (is_empty w) eqn:Ew.
    + apply is_empty_true in Ew. subst w. rewrite IH. simpl. split.
      * intros [H | [H1 H2]]; auto.
      * intros [H | [[<- | H1] H2]]; auto. congruence.
    + assert (Hw : w <> EmptyString) by (intros ->; discriminate).
      destruct (last_value compact) as [l|] eqn:El; [|now apply Hsnoc].
      destruct (String.eqb_spec l w) as [->|_]; [|now apply Hsnoc].
      rewrite IH. simpl. apply last_value_In in El. split.
      * intros [H | [H1 H2]]; auto.
      * intros [H | [[<- | H1] H2]]; auto.
Qed.

(** X14.  Compacting twice is compacting once.  A value is in the
    compacted list exactly when it is in the list and is not empty.  A list
    of non-empty values without equal neighbours is left as it is. *)
Theorem X14_compact_values_fixed_point :
  (forall values : list string,
      compact_values (compact_values values) = compact_values values)
  /\ (forall (values : list string) (v : string),
         In v (compact_values values) <-> In v values /\ v <> EmptyString)
  /\ (forall values : list string,
         Forall (fun v => v <> EmptyString) values -> no_adjacent_dup values ->
         compact_values values = values).
Proof.
  assert (Hfixed : forall values,
             Forall (fun v => v <> EmptyString) values -> no_adjacent_dup values ->
             compact_values values = values).
  { intros values Hne Hdup. unfold compact_values.
    rewrite compact_into_fixed; try assumption; [reflexivity|].
    intros v rest _. discriminate. }
  split; [|split; [|exact Hfixed]].
  - intros values. apply Hfixed.
    + apply compact_into_nonempty. constructor.
    + apply compact_values_no_adjacent_dup.
  - intros values v. unfold compact_values. rewrite compact_into_In. simpl. tauto.
Qed.

Lemma X14_compact_values_witness :
  compact_values ["a"; "b"; "a"] = ["a"; "b"; "a"].
Proof.
  refine (proj2 (proj2 X14_compact_values_fixed_point) ["a"; "b"; "a"] _ _).
  - repeat constructor; discriminate.
  - simpl. repeat split; discriminate.
Defined.

(** ** Objects of texts through [json.dumps] and [json.loads] *)

Lemma lex_escape_char (c : ascii) (acc : string) (toks : list token) (rest : string) :
  lex (LStr acc) toks (escape_char c ++ rest) = lex (LStr (snoc acc c)) toks rest.
Proof.
  destruct c as [[] [] [] [] [] [] [] []]; reflexivity.
Qed.

Lemma escape_char_printable (c : ascii) : sall printable (escape_char c) = true.
Proof.
  destruct c as [[] [] [] [] [] [] [] []]; reflexivity.
Qed.

Lemma printable_not_linebreak (c : ascii) : printable c = true -> is_linebreak c = false.
Proof.
  destruct c as [[] [] [] [] [] [] [] []]; intros H; try reflexivity; discriminate H.
Qed.

Lemma lex_escape (s : string) :
  forall (acc : string) (toks : list token) (rest : string),
    lex (LStr acc) toks (escape s ++ rest) = lex (LStr (acc ++ s)) toks rest.
Proof.
  induction s as [|c s IH]; intros acc toks rest.
  - cbn. now rewrite append_empty_r.
  - cbn [escape]. rewrite append_assoc, lex_escape_char, IH.
    unfold snoc. now rewrite append_assoc.
Qed.

Lemma lex_quote (s : string) (toks : list token) (rest : string) :
  lex LIdle toks (quote s ++ rest) = lex LIdle (TString s :: toks) rest.
Proof.
  unfold quote. rewrite !append_assoc.
  change (dquote ++ escape s ++ dquote ++ rest)
    with (String "034" (escape s ++ String "034" rest)).
  change (lex LIdle toks (String "034" (escape s ++ String "034" rest)))
    with (lex (LStr EmptyString) toks (escape s ++ String "034" rest)).
  rewrite lex_escape. reflexivity.
Qed.

Section Separators.

Variable item_sep key_sep : string.
Hypothesis lex_item_sep :
  forall toks rest, lex LIdle toks (item_sep ++ rest) = lex LIdle (TComma :: toks) rest.
Hypothesis lex_key_sep :
  forall toks rest, lex LIdle toks (key_sep ++ rest) = lex LIdle (TColon :: toks) rest.

Lemma lex_field (kv : string * string) (toks : list token) (rest : string) :
  lex LIdle toks (field_text key_sep kv ++ rest) = lex LIdle (rev (field_tokens kv) ++ toks) rest.
Proof.
  unfold field_text. rewrite !append_assoc, lex_quote, lex_key_sep, lex_quote.
  reflexivity.
Qed.

Lemma fields_tokens_cons (first second : string * string) (more : list (string * string)) :
  fields_tokens (first :: second :: more)
  = (field_tokens first ++ TComma :: fields_tokens (second :: more))%list.
Proof. reflexivity. Qed.

Lemma lex_fields (more : list (string * string)) :
  forall (first : string * string) (toks : list token) (rest : string),
    lex LIdle toks (join item_sep (map (field_text key_sep) (first :: more)) ++ rest)
    = lex LIdle (rev (fields_tokens (first :: more)) ++ toks) rest.
Proof.
  induction more as [|second more IH]; intros first toks rest.
  - cbn [map join String.concat fields_tokens flat_map]. rewrite app_nil_r.
    apply lex_field.
  - cbn [map]. rewrite join_cons by discriminate.
    rewrite !append_assoc, lex_field, lex_item_sep.
    change (field_text key_sep second :: map (field_text key_sep) more)
      with (map (field_text key_sep) (second :: more)).
    rewrite IH, fields_tokens_cons, rev_app_distr. cbn [rev].
    now rewrite <- !app_assoc.
Qed.

Lemma lex_object (fr : string -> string) (fields : list (string * string)) (tail : string) :
  (forall toks, lex LIdle toks tail = Some (rev toks)) ->
  lex LIdle [] (dumps_sep fr item_sep key_sep (text_object fields) ++ tail)
  = Some (TLBrace :: fields_tokens fields ++ [TRBrace])%list.
Proof.
  intros Htail. unfold text_object. cbn [dumps_sep]. rewrite map_map.
  cbn [fst snd dumps_sep].
  change (fun x : string * string => quote (fst x) ++ key_sep ++ quote (snd x))
    with (field_text key_sep).
  rewrite !append_assoc.
  match goal with
  | |- lex LIdle [] ("{" ++ ?body ++ "}" ++ tail) = _ =>
      change (lex LIdle [] ("{" ++ body ++ "}" ++ tail))
        with (lex LIdle [TLBrace] (body ++ String "}" tail))
  end.
  destruct fields as [|first more].
  - cbn [map join String.concat append fields_tokens app].
    change (lex LIdle [TLBrace] (String "}" tail)) with (lex LIdle [TRBrace; TLBrace] tail).
    now rewrite Htail.
  - rewrite lex_fields.
    match goal with
    | |- lex LIdle ?t (String "}" tail) = _ =>
        change (lex LIdle t (String "}" tail)) with (lex LIdle (TRBrace :: t) tail)
    end.
    rewrite Htail. cbn [rev]. rewrite rev_app_distr, rev_involutive. reflexivity.
Qed.

End Separators.

Lemma lookup_app_fresh (k : string) (d : fields_t) (v : json) :
  ~ In k (map fst d) -> dict_set d k v = (d ++ [(k, v)])%list.
Proof.
  induction d as [|[k' v'] d IH]; intros Hk; [reflexivity|].
  cbn [dict_set app]. simpl in Hk.
  destruct (String.eqb_spec k k') as [->|_]; [tauto|].
  rewrite IH; [reflexivity | tauto].
Qed.

Lemma set_fields_fresh (fields : list (string * string)) :
  forall acc : fields_t,
    NoDup (map fst acc ++ map fst fields) ->
    set_fields acc fields
    = (acc ++ map (fun kv => (fst kv, JStr (snd kv))) fields)%list.
Proof.
  induction fields as [|[k v] fields IH]; intros acc Hnd.
  - cbn. now rewrite app_nil_r.
  - cbn [set_fields fold_left fst snd map]. cbn [map fst] in Hnd.
    assert (Hk : ~ In k (map fst acc)).
    { intros Hin. apply NoDup_remove_2 in Hnd. apply Hnd, in_or_app. now left. }
    rewrite lookup_app_fresh by exact Hk.
    fold (set_fields (acc ++ [(k, JStr v)])%list fields).
    rewrite IH.
    + now rewrite <- app_assoc.
    + rewrite map_app, <- app_assoc. exact Hnd.
Qed.

Lemma parse_field (kv : string * string) (rest : list token) (acc : fields_t)
      (stack : list frame) (m : Json.mode) :
  m = MKeyOrEnd \/ m = MKey ->
  parse_tokens (field_tokens kv ++ rest) (FDict acc None :: stack) m
  = parse_tokens rest (FDict (dict_set acc (fst kv) (JStr (snd kv))) None :: stack) MAfter.
Proof. intros [-> | ->]; reflexivity. Qed.

Lemma parse_more_fields (fields : list (string * string)) :
  forall (rest : list token) (acc : fields_t) (stack : list frame),
    parse_tokens (flat_map (fun kv => TComma :: field_tokens kv) fields ++ rest)
      (FDict acc None :: stack) MAfter
    = parse_tokens rest (FDict (set_fields acc fields) None :: stack) MAfter.
Proof.
  induction fields as [|kv fields IH]; intros rest acc stack; [reflexivity|].
  cbn [flat_map]. rewrite <- !app_assoc.
  change ((TComma :: field_tokens kv) ++ ?x)%list with (TComma :: (field_tokens kv ++ x))%list.
  change (parse_tokens (TComma :: ?x) (FDict acc None :: stack) MAfter)
    with (parse_tokens x (FDict acc None :: stack) MKey).
  rewrite parse_field by (now right). apply IH.
Qed.

Lemma parse_object (fields : list (string * string)) :
  parse_tokens (TLBrace :: fields_tokens fields ++ [TRBrace]) [] MValue
  = Some (JDict (set_fields [] fields)).
Proof.
  change (parse_tokens (TLBrace :: ?x) [] MValue)
    with (parse_tokens x [FDict [] None] MKeyOrEnd).
  destruct fields as [|first more]; [reflexivity|].
  unfold fields_tokens. rewrite <- app_assoc.
  rewrite parse_field by (now left). rewrite parse_more_fields. reflexivity.
Qed.

Lemma loads_dumps_sep (fr : string -> string) (item_sep key_sep : string)
      (fields : list (string * string)) (tail : string) :
  (forall toks rest, lex LIdle toks (item_sep ++ rest) = lex LIdle (TComma :: toks) rest) ->
  (forall toks rest, lex LIdle toks (key_sep ++ rest) = lex LIdle (TColon :: toks) rest) ->
  (forall toks, lex LIdle toks tail = Some (rev toks)) ->
  NoDup (map fst fields) ->
  loads (dumps_sep fr item_sep key_sep (text_object fields) ++ tail)
  = Some (text_object fields).
Proof.
  intros Hi Hk Htail Hnd. unfold loads.
  rewrite (lex_object item_sep key_sep Hi Hk fr fields tail Htail), parse_object.
  rewrite set_fields_fresh by exact Hnd. reflexivity.
Qed.

Lemma loads_dumps_text_object (fr : string -> string) (fields : list (string * string)) :
  NoDup (map fst fields) ->
  loads (dumps fr (text_object fields)) = Some (text_object fields)
  /\ loads (dumps_compact fr (text_object fields)) = Some (text_object fields)
  /\ loads (dumps fr (text_object fields) ++ newline) = Some (text_object fields).
Proof.
  intros Hnd. split; [|split].
  - rewrite <- (append_empty_r (dumps fr _)).
    apply loads_dumps_sep; try exact Hnd; reflexivity.
  - rewrite <- (append_empty_r (dumps_compact fr _)).
    apply loads_dumps_sep; try exact Hnd; reflexivity.
  - apply loads_dumps_sep; try exact Hnd; reflexivity.
Qed.

Lemma printable_not_cr (c : ascii) : printable c = true -> is_char 13 c = false.
Proof.
  destruct c as [[] [] [] [] [] [] [] []]; intros H; try reflexivity; discriminate H.
Qed.

Lemma splitlines_from_line (line : string) :
  forall cur rest : string,
    sall printable line = true ->
    splitlines_from cur (line ++ String "010" rest)
    = (cur ++ line) :: splitlines_from EmptyString rest.
Proof.
  induction line as [|c line IH]; intros cur rest Hp.
  - cbn. now rewrite append_empty_r.
  - cbn [sall] in Hp. apply andb_prop in Hp. destruct Hp as [Hc Hl].
    cbn [append splitlines_from].
    rewrite (printable_not_cr c Hc), (printable_not_linebreak c Hc), IH by exact Hl.
    now rewrite append_assoc.
Qed.

Lemma splitlines_from_last (line : string) :
  forall cur : string,
    sall printable line = true ->
    splitlines_from cur line = if is_empty (cur ++ line) then [] else [cur ++ line].
Proof.
  induction line as [|c line IH]; intros cur Hp.
  - cbn. now rewrite append_empty_r.
  - cbn [sall] in Hp. apply andb_prop in Hp. destruct Hp as [Hc Hl].
    cbn [splitlines_from].
    rewrite (printable_not_cr c Hc), (printable_not_linebreak c Hc), IH by exact Hl.
    now rewrite append_assoc.
Qed.

Lemma escape_printable (s : string) : sall printable (escape s) = true.
Proof.
  induction s as [|c s IH]; [reflexivity|].
  cbn [escape]. now rewrite sall_append, escape_char_printable, IH.
Qed.

Lemma quote_printable (s : string) : sall printable (quote s) = true.
Proof. unfold quote. now rewrite !sall_append, escape_printable. Qed.

Lemma strip_braced (body : string) :
  strip ("{" ++ body ++ "}") = "{" ++ body ++ "}".
Proof.
  unfold strip.
  change (lstrip ("{" ++ body ++ "}")) with ("{" ++ body ++ "}").
  rewrite <- append_assoc. now rewrite rstrip_append.
Qed.

Section MockLines.

Variable fr : string -> string.
Variable ft : string -> bool.

Lemma mock_line_spec (event text : string) :
  let line := dumps fr (JDict [("event", JStr event); ("text", JStr text)]) in
  sall printable line = true
  /\ strip line = line
  /\ line <> EmptyString
  /\ try_parse_json line = JDict [("event", JStr event); ("text", JStr text)].
Proof.
  cbv zeta.
  assert (Hline : dumps fr (JDict [("event", JStr event); ("text", JStr text)])
                  = "{" ++ (quote "event" ++ ": " ++ quote event ++ ", "
                            ++ quote "text" ++ ": " ++ quote text) ++ "}").
  { unfold dumps. cbn [dumps_sep map fst snd join String.concat].
    now rewrite !append_assoc. }
  split; [|split; [|split]].
  - rewrite Hline. rewrite !sall_append, !quote_printable. reflexivity.
  - rewrite Hline. apply strip_braced.
  - rewrite Hline. discriminate.
  - unfold try_parse_json.
    change (JDict [("event", JStr event); ("text", JStr text)])
      with (text_object [("event", event); ("text", text)]).
    destruct (loads_dumps_text_object fr [("event", event); ("text", text)]) as (-> & _);
      [|reflexivity].
    repeat constructor; simpl; intuition discriminate.
Qed.

Lemma extract_text_mock_line (event text : string) :
  strip text <> EmptyString ->
  extract_text (JDict [("event", JStr event); ("text", JStr text)]) = Some (strip text).
Proof.
  intros Hne. apply truthy_not_empty in Hne.
  rewrite extract_text_dict. unfold text_of_key, get. cbn [first_text].
  change (lookup "text" [("event", JStr event); ("text", JStr text)])
    with (Some (JStr text)).
  cbn [extract_text]. rewrite Hne. cbn [truthy_opt]. now rewrite Hne.
Qed.

Lemma collect_mock_line (event text : string) (lines partials markers : list string) :
  strip text <> EmptyString ->
  collect_lines fr ft
    (dumps fr (JDict [("event", JStr event); ("text", JStr text)]) :: lines)
    partials markers
  = collect_lines fr ft lines (partials ++ [strip text]) markers.
Proof.
  intros Hne. cbn [collect_lines].
  destruct (mock_line_spec event text) as (_ & _ & _ & ->).
  rewrite (extract_text_mock_line event text Hne). cbn [truthy_opt].
  apply truthy_not_empty in Hne. now rewrite Hne.
Qed.

Lemma mock_output_lines (prompt : string) :
  map strip (filter (fun line => truthy (strip line)) (splitlines (mock_output fr prompt)))
  = [dumps fr (JDict [("event", JStr "analysis");
                      ("text", JStr ("Planning implementation for task: "
                                     ++ summarize prompt 100))]);
     dumps fr (JDict [("event", JStr "edit");
                      ("text", JStr "Would update source files and add/adjust tests.")]);
     dumps fr (JDict [("event", JStr "final");
                      ("text", JStr "Mock Claude Code run completed successfully.")])].
Proof.
  unfold mock_output.
  set (l1 := dumps fr (JDict [("event", JStr "analysis"); _])).
  set (l2 := dumps fr (JDict [("event", JStr "edit"); _])).
  set (l3 := dumps fr (JDict [("event", JStr "final"); _])).
  destruct (mock_line_spec "analysis"
              ("Planning implementation for task: " ++ summarize prompt 100))
    as (Hp1 & Hs1 & Hn1 & _).
  destruct (mock_line_spec "edit" "Would update source files and add/adjust tests.")
    as (Hp2 & Hs2 & Hn2 & _).
  destruct (mock_line_spec "final" "Mock Claude Code run completed successfully.")
    as (Hp3 & Hs3 & Hn3 & _).
  fold l1 in Hp1, Hs1, Hn1. fold l2 in Hp2, Hs2, Hn2. fold l3 in Hp3, Hs3, Hn3.
  assert (Hsplit : splitlines (join newline [l1; l2; l3]) = [l1; l2; l3]).
  { unfold splitlines.
    change (join newline [l1; l2; l3])
      with (l1 ++ String "010" (l2 ++ String "010" l3)).
    rewrite splitlines_from_line by exact Hp1.
    rewrite splitlines_from_line by exact Hp2.
    rewrite splitlines_from_last by exact Hp3.
    cbn [append]. now rewrite (is_empty_false _ Hn3). }
  rewrite Hsplit. cbn [filter]. rewrite Hs1, Hs2, Hs3.
  apply truthy_not_empty in Hn1, Hn2, Hn3. rewrite Hn1, Hn2, Hn3.
  cbn [map]. now rewrite Hs1, Hs2, Hs3.
Qed.

Lemma strip_planning (task : string) :
  strip task = task ->
  strip ("Planning implementation for task: " ++ task)
  = if is_empty task then "Planning implementation for task:"
    else "Planning implementation for task: " ++ task.
Proof.
  intros Ht. destruct task as [|c task]; [reflexivity|]. cbn [is_empty].
  destruct (trimmed_head (String c task) ltac:(discriminate) Ht) as (Hr & _).
  unfold strip.
  change (lstrip ("Planning implementation for task: " ++ String c task))
    with ("Planning implementation for task: " ++ String c task).
  rewrite rstrip_append; rewrite Hr; reflexivity.
Qed.

Lemma parse_mock_output (prompt : string) :
  let first := strip ("Planning implementation for task: " ++ summarize prompt 100) in
  parse_claude_output fr ft (mock_output fr prompt)
  = (first ++ mock_tail,
     [first; "Would update source files and add/adjust tests.";
      "Mock Claude Code run completed successfully."],
     []).
Proof.
  intros first. unfold parse_claude_output. rewrite mock_output_lines.
  assert (Hfirst : exists r, first = String "P" r).
  { unfold first. rewrite strip_planning by apply strip_summarize.
    destruct (is_empty _); now eexists. }
  destruct Hfirst as [r Hr].
  assert (Hne : first <> EmptyString) by (rewrite Hr; discriminate).
  assert (Hstripped : strip first = first) by apply strip_idempotent.
  rewrite collect_mock_line by exact Hne.
  rewrite collect_mock_line by discriminate.
  rewrite collect_mock_line by discriminate.
  cbn [collect_lines app].
  change (strip "Would update source files and add/adjust tests.")
    with "Would update source files and add/adjust tests.".
  change (strip "Mock Claude Code run completed successfully.")
    with "Mock Claude Code run completed successfully.".
  fold first. clearbody first. subst first.
  assert (Hcompact : forall a b c : string,
             a <> EmptyString -> b <> EmptyString -> c <> EmptyString ->
             a <> b -> b <> c -> compact_values [a; b; c] = [a; b; c]).
  { intros a b c Ha Hb Hc Hab Hbc. unfold compact_values.
    rewrite compact_into_fixed; [reflexivity | | |].
    - now repeat constructor.
    - cbn [no_adjacent_dup]. now repeat split.
    - intros v rest _. discriminate. }
  rewrite Hcompact by discriminate.
  assert (Hjoin : strip (join newline
                           [String "P" r; "Would update source files and add/adjust tests.";
                            "Mock Claude Code run completed successfully."])
                  = String "P" r ++ mock_tail).
  { destruct (trimmed_join newline
                [String "P" r; "Would update source files and add/adjust tests.";
                 "Mock Claude Code run completed successfully."]) as [_ ->].
    - constructor; [now split|]. repeat constructor; discriminate.
    - discriminate.
    - reflexivity. }
  rewrite Hjoin. reflexivity.
Qed.

End MockLines.

Lemma isspace_flatten (s : string) :
  sall isspace (replace newline " " s) = sall isspace s.
Proof.
  rewrite replace_newline. induction s as [|c s IH]; [reflexivity|].
  cbn [smap sall]. rewrite IH. f_equal.
  destruct (is_char 10 c) eqn:E; [|reflexivity].
  unfold is_char in E. apply Nat.eqb_eq in E. unfold isspace, in_range.
  rewrite E. reflexivity.
Qed.

Lemma summarize_empty_iff (text : string) (limit : Z) :
  (0 <= limit)%Z ->
  (summarize text limit = EmptyString <-> sall isspace text = true).
Proof.
  intros Hl. rewrite <- isspace_flatten, <- strip_empty_iff. unfold summarize.
  destruct (Z.leb_spec (Z.of_nat (String.length (strip (replace newline " " text)))) limit)
    as [_|Hlong]; [tauto|].
  split.
  - intros H. destruct (take _ _); discriminate.
  - intros H. rewrite H in Hlong. simpl in Hlong. lia.
Qed.

Lemma compose_prompt_not_blank (fr : string -> string) (opts : HostOptions)
      (hist : list HistoryEntry) (prompt : string) (context : json) (note : string) :
  sall isspace (compose_prompt fr opts hist prompt context note) = false.
Proof.
  destruct (compose_prompt_task fr opts hist prompt context note)
    as (before & after & -> & _).
  rewrite sall_append. apply andb_false_r.
Qed.

(** X15.  For every prompt, the output of the mock parses back to the three
    texts it was made of: there are three partials and no event marker,
    the first partial is [Planning implementation for task:] followed by the
    summary of the prompt, and the result text is the three texts joined by
    newlines.  So the text of the [result] message of every mock session is
    [Planning implementation for task:], the summary, in 100 characters, of
    the composed prompt, and the two fixed lines of the mock. *)
Theorem X15_mock_output_round_trip :
  (forall (fr : string -> string) (ft : string -> bool) (prompt : string),
      let task := summarize prompt 100 in
      let first := if is_empty task then "Planning implementation for task:"
                   else "Planning implementation for task: " ++ task in
      parse_claude_output fr ft (mock_output fr prompt)
      = (first ++ mock_tail,
         [first; "Would update source files and add/adjust tests.";
          "Mock Claude Code run completed successfully."],
         []))
  /\ (forall (fr : string -> string) (ft : string -> bool) (opts : HostOptions)
             (hist : list HistoryEntry) (prompt : string) (context : json) (note : string),
         mock_result_text fr ft opts hist prompt context note
         = "Planning implementation for task: "
           ++ summarize (compose_prompt fr opts hist prompt context note) 100
           ++ mock_tail).
Proof.
  assert (Hparse : forall fr ft prompt,
             parse_claude_output fr ft (mock_output fr prompt)
             = ((if is_empty (summarize prompt 100)
                 then "Planning implementation for task:"
                 else "Planning implementation for task: " ++ summarize prompt 100)
                ++ mock_tail,
                [if is_empty (summarize prompt 100)
                 then "Planning implementation for task:"
                 else "Planning implementation for task: " ++ summarize prompt 100;
                 "Would update source files and add/adjust tests.";
                 "Mock Claude Code run completed successfully."],
                [])).
  { intros fr ft prompt. rewrite parse_mock_output.
    now rewrite strip_planning by apply strip_summarize. }
  split; [exact Hparse|].
  intros fr ft opts hist prompt context note. unfold mock_result_text.
  rewrite Hparse. cbn [fst].
  assert (Hne : summarize (compose_prompt fr opts hist prompt context note) 100
                <> EmptyString).
  { intros H. apply summarize_empty_iff in H; [|lia].
    now rewrite compose_prompt_not_blank in H. }
  rewrite (is_empty_false _ Hne). now rewrite append_assoc.
Qed.

(** X16.  What [json.dumps] writes for an object whose values are texts
    and whose keys are distinct, [json.loads] reads back as that object,
    with the default separators, with the compact ones, and with a newline
    after the text; whatever characters the texts hold.  So in the
    [json-stdin] prompt mode, when no argument has the placeholder, the
    line given to the agent on its standard input decodes to an object
    whose [prompt] is the composed prompt. *)
Theorem X16_text_objects_round_trip :
  (forall (fr : string -> string) (fields : list (string * string)),
      NoDup (map fst fields) ->
      loads (dumps fr (text_object fields)) = Some (text_object fields)
      /\ loads (dumps_compact fr (text_object fields)) = Some (text_object fields)
      /\ loads (dumps fr (text_object fields) ++ newline) = Some (text_object fields))
  /\ (forall (fr : string -> string) (opts : HostOptions) (prompt : string),
         existsb (fun part => contains "{prompt}" part) (claude_args opts) = false ->
         prompt_mode opts = "json-stdin" ->
         exists payload,
           build_command fr opts prompt
           = (claude_command opts :: claude_args opts, Some payload)
           /\ loads payload = Some (JDict [("prompt", JStr prompt)])).
Proof.
  split; [exact loads_dumps_text_object|].
  intros fr opts prompt Hargs Hmode. unfold build_command. rewrite Hargs, Hmode.
  cbn [String.eqb Ascii.eqb Bool.eqb]. eexists. split; [reflexivity|].
  apply (loads_dumps_text_object fr [("prompt", prompt)]).
  repeat constructor. simpl. tauto.
Qed.

Lemma X16_text_objects_round_trip_witness :
  loads (dumps literal_repr (text_object [("prompt", "say " ++ dquote ++ "hi" ++ dquote)]))
  = Some (text_object [("prompt", "say " ++ dquote ++ "hi" ++ dquote)]).
Proof.
  refine (proj1 (proj1 X16_text_objects_round_trip literal_repr
                   [("prompt", "say " ++ dquote ++ "hi" ++ dquote)] _)).
  repeat constructor. simpl. tauto.
Defined.

(** ** Messages name their session *)






Section Tags.

Variable fr : string -> string.
Variable ft : string -> bool.
Variable opts : HostOptions.
Variable env : Env.
Variable n : Z.












End Tags.



(** ** Modes other than stream *)

Section Oneshot.

Variable fr : string -> string.
Variable ft : string -> bool.
Variable opts : HostOptions.
Variable env : Env.
Hypothesis oneshot : is_stream opts = false.

Lemma invoke_claude_keeps_stdout (prompt : string) :
  pres (fun s s' => stdout s' = stdout s) (invoke_claude fr opts env prompt).
Proof. apply pres_invoke_claude; intros; try reflexivity. congruence. Qed.

Lemma session_body_oneshot session prompt context started note s :
  match session_body fr ft opts env session prompt context started note s with
  | (s', inl _) =>
      exists m, stdout s' = (stdout s ++ [m])%list /\ msg_type m = JStr "result"
  | (s', inr _) => stdout s' = stdout s
  end.
Proof.
  unfold session_body. rewrite bind_gets, oneshot. cbn [when].
  unfold bind at 1. unfold ret at 1.
  match goal with
  | |- context [bind ?m ?k s] =>
      destruct (bind_pres (fun s s' => stdout s' = stdout s) m k) with (s := s)
        as [(s2 & [[raw err] argv] & Ho2 & _ & ->) | (s2 & exc & Ho2 & _ & ->)]
  end.
  { apply invoke_claude_keeps_stdout. }
  2:{ exact Ho2. }
  destruct (parse_claude_output fr ft raw) as [[text partials] markers].
  unfold bind at 1. unfold ret at 1.
  unfold time, emit, record_history. unfold bind at 1. rewrite !bind_modify.
  match goal with
  | |- context [when ?b (log opts ?msg) ?X] =>
      destruct (when_log_spec opts b msg X) as (s4 & -> & Ho & _)
  end.
  eexists. rewrite Ho. cbn [stdout set_history set_stdout tick]. rewrite Ho2.
  split; reflexivity.
Qed.

Lemma run_line_oneshot (raw_line : string) (s : State) :
  starts_exchange raw_line = true ->
  exists m,
    stdout (exec (run_line fr ft opts env raw_line) s) = (stdout s ++ [m])%list
    /\ is_terminal m = true.
Proof.
  intros Hstart. unfold starts_exchange in Hstart. apply andb_prop in Hstart.
  destruct Hstart as [Hne Hr]. apply negb_true_iff in Hne, Hr.
  unfold exec, run_line. rewrite Hne, Hr.
  destruct (parse_prompt_input fr _ _) as [prompt context].
  destruct (is_empty prompt); [now eexists|].
  rewrite bind_modify, bind_gets. unfold time at 1. unfold bind at 1.
  unfold try_except, process_prompt. unfold bind at 1.
  rewrite (session_gate_oneshot fr opts env _ _ _ oneshot).
  match goal with
  | |- context [session_body fr ft opts env ?n prompt context ?t ?note ?X] =>
      pose proof (session_body_oneshot n prompt context t note X) as Hb;
      destruct (session_body fr ft opts env n prompt context t note X) as [s1 [[]|exc]]
  end; cbn [fst stdout tick set_session_counter] in *.
  - destruct Hb as (m & Ho & Ht). exists m. split; [exact Ho|].
    unfold is_terminal. now rewrite Ht.
  - unfold emit, modify. cbn [fst stdout set_stdout]. rewrite Hb. now eexists.
Qed.

Lemma run_loop_oneshot (fuel : nat) (s s' : State) :
  run_loop fr ft opts env fuel s = Some s' ->
  Forall (fun m => is_terminal m = true) (stdout s) ->
  Forall (fun m => is_terminal m = true) (stdout s').
Proof.
  revert s; induction fuel as [|fuel IH]; intros s; simpl; [discriminate|].
  destruct (stdin s) as [|raw_line rest] eqn:E; [now intros [= <-]|].
  intros Hrun Hall. apply (IH _ Hrun).
  destruct (starts_exchange raw_line) eqn:Hs.
  - destruct (run_line_oneshot raw_line (set_stdin rest s) Hs) as (m & -> & Ht).
    apply Forall_app. split; [exact Hall | now constructor].
  - now rewrite (run_line_silent fr ft opts env raw_line (set_stdin rest s) Hs).
Qed.

End Oneshot.

Lemma all_terminal_count (messages : list json) :
  Forall (fun m => is_terminal m = true) messages ->
  terminal_count messages = length messages.
Proof.
  induction 1 as [|m messages Hm _ IH]; [reflexivity|].
  unfold terminal_count in *. simpl. rewrite Hm. simpl. now rewrite IH.
Qed.

(** X18.  When the mode is not [stream], the host writes exactly one
    message, a [result] or an [error], for every line within the limits of
    the parser that is not blank and does not declare itself a response;
    and when the agent has a standard input of its own, nothing is read
    from the input during a line.  So, for such an agent and an input whose
    lines are within the limits of the parser, a run writes terminal
    messages only, as many as there are such lines in the input. *)
Theorem X18_oneshot_one_message_per_line :
  forall (fr : string -> string) (ft : string -> bool) (opts : HostOptions) (env : Env),
    is_stream opts = false ->
    (forall (raw_line : string) (s : State),
        within_parser_limits raw_line = true ->
        starts_exchange raw_line = true ->
        exists m,
          stdout (exec (run_line fr ft opts env raw_line) s) = (stdout s ++ [m])%list
          /\ is_terminal m = true)
    /\ (forall (raw_line : string) (s : State),
           agent_has_own_stdin opts = true ->
           stdin (exec (run_line fr ft opts env raw_line) s) = stdin s)
    /\ (forall input : list string,
           agent_has_own_stdin opts = true ->
           forallb within_parser_limits input = true ->
           exists s',
             run fr ft opts env (init_state input) = Some s'
             /\ Forall (fun m => is_terminal m = true) (stdout s')
             /\ length (stdout s') = length (filter starts_exchange input)).
Proof.
  intros fr ft opts env Hs.
  split; [|split].
  - intros raw_line s _. now apply run_line_oneshot.
  - intros raw_line s _.
    pose proof (reads_run_line fr ft opts env raw_line s) as H.
    unfold session_reads in H. rewrite Hs in H. cbn [andb] in H.
    destruct (starts_session fr raw_line); now apply reads_zero in H.
  - intros input _ _.
    destruct (run_counts_without_mediator fr ft opts env input) as (s' & Hrun & Ht & _);
      [now rewrite Hs|].
    exists s'. split; [exact Hrun|].
    assert (Hall : Forall (fun m => is_terminal m = true) (stdout s')).
    { unfold run in Hrun. eapply run_loop_oneshot; [exact Hs | exact Hrun |].
      fold (run_start opts (init_state input)).
      destruct (run_start_state opts input) as (_ & -> & _). constructor. }
    split; [exact Hall|]. now rewrite <- (all_terminal_count _ Hall).
Qed.

Lemma X18_oneshot_one_message_per_line_witness :
  exists s',
    run literal_repr literal_truth mock_options idle_env
      (init_state ["one"; "  "; "two"])
    = Some s'
    /\ Forall (fun m => is_terminal m = true) (stdout s')
    /\ length (stdout s') = 2.
Proof.
  refine (proj2 (proj2 (X18_oneshot_one_message_per_line literal_repr literal_truth
                          mock_options idle_env eq_refl))
            ["one"; "  "; "two"] eq_refl eq_refl).
Defined.

(** ** The messages of a session in stream mode *)



Section StreamSession.

Variable fr : string -> string.
Variable ft : string -> bool.
Variable opts : HostOptions.
Variable env : Env.
Hypothesis stream : is_stream opts = true.


End StreamSession.


